(** * Wallet-readiness coordinator and coin-salt generation

    A shallow embedding of
    - [client/src/contexts/SmartAccountContext.tsx] (the [SmartAccountProvider]
      component: the readiness watcher, [initSmartAccount],
      [retryWalletCreation] and the two effects), and
    - [client/src/lib/gasless-deployment.ts] ([generateCoinSalt]),
    together with the properties of the coordinator that the design document
    states.

    The component is modelled as a transition system.  One transition is one
    task of the JavaScript event loop: a handler runs to completion, the
    promise reactions (microtasks) it made runnable run, and React re-renders
    and re-runs the effects whose dependencies changed.  React may commit the
    re-render asked for by the handler after the promise reactions (the
    updates are batched) or before them (the updates are flushed at once);
    both orders are transitions of the system. *)

From Stdlib Require Import ZArith NArith String Ascii List Lia Bool.
From stdpp Require Import base tactics option list gmap strings.

Local Open Scope string_scope.

Module SmartAccount.

(** ** Data *)

(** [type SmartAccountStatus = 'idle' | 'waiting_for_wallet' | ...] *)
Inductive SmartAccountStatus :=
| S_idle
| S_waiting_for_wallet
| S_initializing
| S_ready
| S_error.

#[global] Instance SmartAccountStatus_eq_dec : EqDecision SmartAccountStatus.
Proof. solve_decision. Defined.

(** An entry of [useWallets().wallets]; only [walletClientType] is read. *)
Record Wallet := {
  walletClientType : string;
  walletAddress : string;
}.

(** The client is an opaque object (an identity); an [Address] is a
    [`0x${string}`], of which the part after the prefix is kept, so every
    non-null client and address is truthy. *)
Definition SmartAccountClient := nat.
Definition Address := string.
Definition Handle : Type := SmartAccountClient * Address.

(** A thrown value: an [Error] with its message, or anything else. *)
Inductive Thrown :=
| ErrorObj (message : string)
| NonError.

(** [err instanceof Error ? err.message : fallback] *)
Definition message_or (e : Thrown) (fallback : string) : string :=
  match e with
  | ErrorObj m => m
  | NonError => fallback
  end.

(** Completion of a block or of an async function: a value, or a throw. *)
Inductive Result (A : Type) :=
| Normal (a : A)
| Abrupt (e : Thrown).
Arguments Normal {A} a.
Arguments Abrupt {A} e.

Inductive PromiseState :=
| Pending
| Fulfilled
| Rejected (reason : Thrown).

(** [const WALLET_READY_TIMEOUT = 25000;] *)
Definition WALLET_READY_TIMEOUT : N := 25000.

(** [new Error("Wallet creation timeout. Please try again or refresh the page.")] *)
Definition TIMEOUT_MESSAGE : string :=
  "Wallet creation timeout. Please try again or refresh the page.".

(** What [usePrivy()] and [useWallets()] report; [user] is [true] when the
    user object is non-null. *)
Record Auth := {
  ready : bool;
  authenticated : bool;
  user : bool;
  wallets : list Wallet;
}.

(** The five [useState] cells. *)
Record Hooks := {
  smartAccountClient : option SmartAccountClient;
  smartAccountAddress : option Address;
  isLoading : bool;
  error : option string;
  smartAccountStatus : SmartAccountStatus;
}.

(** The three [useRef] cells.  A promise is named by its allocation number;
    [walletReadyResolveRef] holds the [resolve] function of that promise.
    [setTimeout] returns an integer greater than zero, so a stored timer
    identifier is truthy. *)
Record Refs := {
  walletReadyPromiseRef : option positive;
  walletReadyResolveRef : option positive;
  timeoutIdRef : option positive;
}.

(** A pending [setTimeout]: its callback rejects [timer_promise]. *)
Record Timer := {
  timer_id : positive;
  timer_set_at : N;
  timer_delay : N;
  timer_promise : positive;
}.

Definition timer_deadline (t : Timer) : N := (timer_set_at t + timer_delay t)%N.

(** Where a call of [initSmartAccount] is suspended: at
    [await walletReadyPromiseRef.current] (the closure has captured the
    [wallets] of its render), or inside the account construction. *)
Inductive Suspended :=
| AwaitWatcher (p : positive) (captured_wallets : list Wallet)
| AwaitDelegate (w : Wallet).

Record Task := {
  call_id : nat;
  awaiting : Suspended;
}.

(** The event loop and the bookkeeping of calls. *)
Record Loop := {
  clock : N;
  promises : gmap positive PromiseState;
  next_promise : positive;
  timers : list Timer;
  next_timer : positive;
  tasks : list Task;
  next_call : nat;
  returned : list (nat * Result (option Handle));
  delegate_calls : nat;
  bootstrap_cleanup : bool;
}.

Record State := {
  auth : Auth;
  hooks : Hooks;
  refs : Refs;
  loop : Loop;
}.

(** What the account construction (lines 137-214) does once it is awaited:
    the provider or the account request rejects, or the accounts arrive and
    the construction of the smart account throws or yields a client and an
    address. *)
Inductive DelegateOutcome :=
| ProviderThrows (e : Thrown)
| AccountsThen (accounts : option (list Address))
               (build : Thrown + Handle).

(** ** Field updates *)

Definition with_hooks (f : Hooks -> Hooks) (s : State) : State :=
  {| auth := auth s; hooks := f (hooks s); refs := refs s; loop := loop s |}.
Definition with_refs (f : Refs -> Refs) (s : State) : State :=
  {| auth := auth s; hooks := hooks s; refs := f (refs s); loop := loop s |}.
Definition with_loop (f : Loop -> Loop) (s : State) : State :=
  {| auth := auth s; hooks := hooks s; refs := refs s; loop := f (loop s) |}.
Definition with_auth (a : Auth) (s : State) : State :=
  {| auth := a; hooks := hooks s; refs := refs s; loop := loop s |}.

Definition setSmartAccountClient (v : option SmartAccountClient) : State -> State :=
  with_hooks (fun h =>
    {| smartAccountClient := v; smartAccountAddress := smartAccountAddress h;
       isLoading := isLoading h; error := error h;
       smartAccountStatus := smartAccountStatus h |}).
Definition setSmartAccountAddress (v : option Address) : State -> State :=
  with_hooks (fun h =>
    {| smartAccountClient := smartAccountClient h; smartAccountAddress := v;
       isLoading := isLoading h; error := error h;
       smartAccountStatus := smartAccountStatus h |}).
Definition setIsLoading (v : bool) : State -> State :=
  with_hooks (fun h =>
    {| smartAccountClient := smartAccountClient h;
       smartAccountAddress := smartAccountAddress h;
       isLoading := v; error := error h;
       smartAccountStatus := smartAccountStatus h |}).
Definition setError (v : option string) : State -> State :=
  with_hooks (fun h =>
    {| smartAccountClient := smartAccountClient h;
       smartAccountAddress := smartAccountAddress h;
       isLoading := isLoading h; error := v;
       smartAccountStatus := smartAccountStatus h |}).
Definition setSmartAccountStatus (v : SmartAccountStatus) : State -> State :=
  with_hooks (fun h =>
    {| smartAccountClient := smartAccountClient h;
       smartAccountAddress := smartAccountAddress h;
       isLoading := isLoading h; error := error h;
       smartAccountStatus := v |}).

Definition set_walletReadyPromiseRef (v : option positive) : State -> State :=
  with_refs (fun r =>
    {| walletReadyPromiseRef := v;
       walletReadyResolveRef := walletReadyResolveRef r;
       timeoutIdRef := timeoutIdRef r |}).
Definition set_walletReadyResolveRef (v : option positive) : State -> State :=
  with_refs (fun r =>
    {| walletReadyPromiseRef := walletReadyPromiseRef r;
       walletReadyResolveRef := v;
       timeoutIdRef := timeoutIdRef r |}).
Definition set_timeoutIdRef (v : option positive) : State -> State :=
  with_refs (fun r =>
    {| walletReadyPromiseRef := walletReadyPromiseRef r;
       walletReadyResolveRef := walletReadyResolveRef r;
       timeoutIdRef := v |}).

Definition set_clock (v : N) : State -> State :=
  with_loop (fun l =>
    {| clock := v; promises := promises l; next_promise := next_promise l;
       timers := timers l; next_timer := next_timer l; tasks := tasks l;
       next_call := next_call l; returned := returned l;
       delegate_calls := delegate_calls l;
       bootstrap_cleanup := bootstrap_cleanup l |}).
Definition set_promises (v : gmap positive PromiseState) : State -> State :=
  with_loop (fun l =>
    {| clock := clock l; promises := v; next_promise := next_promise l;
       timers := timers l; next_timer := next_timer l; tasks := tasks l;
       next_call := next_call l; returned := returned l;
       delegate_calls := delegate_calls l;
       bootstrap_cleanup := bootstrap_cleanup l |}).
Definition set_next_promise (v : positive) : State -> State :=
  with_loop (fun l =>
    {| clock := clock l; promises := promises l; next_promise := v;
       timers := timers l; next_timer := next_timer l; tasks := tasks l;
       next_call := next_call l; returned := returned l;
       delegate_calls := delegate_calls l;
       bootstrap_cleanup := bootstrap_cleanup l |}).
Definition set_timers (v : list Timer) : State -> State :=
  with_loop (fun l =>
    {| clock := clock l; promises := promises l; next_promise := next_promise l;
       timers := v; next_timer := next_timer l; tasks := tasks l;
       next_call := next_call l; returned := returned l;
       delegate_calls := delegate_calls l;
       bootstrap_cleanup := bootstrap_cleanup l |}).
Definition set_next_timer (v : positive) : State -> State :=
  with_loop (fun l =>
    {| clock := clock l; promises := promises l; next_promise := next_promise l;
       timers := timers l; next_timer := v; tasks := tasks l;
       next_call := next_call l; returned := returned l;
       delegate_calls := delegate_calls l;
       bootstrap_cleanup := bootstrap_cleanup l |}).
Definition set_tasks (v : list Task) : State -> State :=
  with_loop (fun l =>
    {| clock := clock l; promises := promises l; next_promise := next_promise l;
       timers := timers l; next_timer := next_timer l; tasks := v;
       next_call := next_call l; returned := returned l;
       delegate_calls := delegate_calls l;
       bootstrap_cleanup := bootstrap_cleanup l |}).
Definition set_next_call (v : nat) : State -> State :=
  with_loop (fun l =>
    {| clock := clock l; promises := promises l; next_promise := next_promise l;
       timers := timers l; next_timer := next_timer l; tasks := tasks l;
       next_call := v; returned := returned l;
       delegate_calls := delegate_calls l;
       bootstrap_cleanup := bootstrap_cleanup l |}).
Definition set_returned (v : list (nat * Result (option Handle))) : State -> State :=
  with_loop (fun l =>
    {| clock := clock l; promises := promises l; next_promise := next_promise l;
       timers := timers l; next_timer := next_timer l; tasks := tasks l;
       next_call := next_call l; returned := v;
       delegate_calls := delegate_calls l;
       bootstrap_cleanup := bootstrap_cleanup l |}).
Definition set_delegate_calls (v : nat) : State -> State :=
  with_loop (fun l =>
    {| clock := clock l; promises := promises l; next_promise := next_promise l;
       timers := timers l; next_timer := next_timer l; tasks := tasks l;
       next_call := next_call l; returned := returned l;
       delegate_calls := v;
       bootstrap_cleanup := bootstrap_cleanup l |}).
Definition set_bootstrap_cleanup (v : bool) : State -> State :=
  with_loop (fun l =>
    {| clock := clock l; promises := promises l; next_promise := next_promise l;
       timers := timers l; next_timer := next_timer l; tasks := tasks l;
       next_call := next_call l; returned := returned l;
       delegate_calls := delegate_calls l;
       bootstrap_cleanup := v |}).

(** ** The event loop: promises and timers *)

(** Calling the [resolve] function of promise [p]; settling is one-shot. *)
Definition resolve_promise (p : positive) (s : State) : State :=
  match promises (loop s) !! p with
  | Some Pending => set_promises (<[p := Fulfilled]> (promises (loop s))) s
  | _ => s
  end.

(** Calling the [reject] function of promise [p]. *)
Definition reject_promise (p : positive) (e : Thrown) (s : State) : State :=
  match promises (loop s) !! p with
  | Some Pending => set_promises (<[p := Rejected e]> (promises (loop s))) s
  | _ => s
  end.

(** [clearTimeout(id)] *)
Definition clearTimeout (id : positive) (s : State) : State :=
  set_timers
    (filter (fun t => timer_id t <> id) (timers (loop s))) s.

(** [setTimeout(callback, delay)] where the callback rejects [p]; returns
    the new identifier. *)
Definition setTimeout (p : positive) (delay : N) (s : State) : positive * State :=
  let id := next_timer (loop s) in
  let t := {| timer_id := id; timer_set_at := clock (loop s);
              timer_delay := delay; timer_promise := p |} in
  (id, set_next_timer (Pos.succ id) (set_timers (timers (loop s) ++ [t]) s)).

(** ** The watcher *)

(** Lines 59-66. *)
Definition clearWalletReadinessWatcher (s : State) : State :=
  let s1 :=
    match timeoutIdRef (refs s) with
    | Some id => set_timeoutIdRef None (clearTimeout id s)
    | None => s
    end in
  set_walletReadyResolveRef None (set_walletReadyPromiseRef None s1).

(** The callback given to [setTimeout] at lines 80-88, for the watcher whose
    promise is [p]. *)
Definition timeout_callback (p : positive) (s : State) : State :=
  let s1 := setSmartAccountStatus S_error s in
  let s2 := setError (Some TIMEOUT_MESSAGE) s1 in
  let s3 := reject_promise p (ErrorObj TIMEOUT_MESSAGE) s2 in
  clearWalletReadinessWatcher s3.

(** Lines 69-93.  The executor of [new Promise] runs at once: it stores the
    resolver and arms the timer; then the promise is stored. *)
Definition createWalletReadinessWatcher (s : State) : State :=
  let s1 := clearWalletReadinessWatcher s in
  let s2 := setSmartAccountStatus S_waiting_for_wallet s1 in
  let p := next_promise (loop s2) in
  let s3 := set_next_promise (Pos.succ p)
              (set_promises (<[p := Pending]> (promises (loop s2))) s2) in
  let s4 := set_walletReadyResolveRef (Some p) s3 in
  let '(id, s5) := setTimeout p WALLET_READY_TIMEOUT s4 in
  let s6 := set_timeoutIdRef (Some id) s5 in
  set_walletReadyPromiseRef (Some p) s6.

(** ** Calls of [initSmartAccount] *)

(** The promise of an async call settles: the outcome is recorded. *)
Definition finish (id : nat) (r : Result (option Handle)) (s : State) : State :=
  set_returned (returned (loop s) ++ [(id, r)]) s.

(** The call reaches an [await] and is parked. *)
Definition suspend (id : nat) (k : Suspended) (s : State) : State :=
  set_tasks (tasks (loop s) ++ [{| call_id := id; awaiting := k |}]) s.

(** [try { body } catch (err) { handler } finally { finalizer }] for the part
    of a block that runs without suspension. *)
Definition try_catch_finally {A : Type}
    (body : State -> Result A * State)
    (handler : Thrown -> State -> Result A * State)
    (finalizer : State -> State) (s : State) : Result A * State :=
  let '(r1, s1) := body s in
  let '(r2, s2) :=
    match r1 with
    | Normal a => (Normal a, s1)
    | Abrupt e => handler e s1
    end in
  (r2, finalizer s2).

(** [(wallet) => wallet.walletClientType === 'privy'] *)
Definition isPrivyWallet (w : Wallet) : bool :=
  String.eqb (walletClientType w) "privy".

(** [wallets.find((wallet) => wallet.walletClientType === 'privy')] *)
Definition embeddedWallet (ws : list Wallet) : option Wallet :=
  List.find isPrivyWallet ws.

(** [wallets?.some((wallet) => wallet.walletClientType === 'privy')] *)
Definition hasPrivyWallet (ws : list Wallet) : bool :=
  existsb isPrivyWallet ws.

(** Lines 227-231: the [catch] of the construction. *)
Definition init_catch (e : Thrown) (s : State) : Result (option Handle) * State :=
  let s1 := setError (Some (message_or e "Failed to initialize smart account")) s in
  (Normal None, setSmartAccountStatus S_error s1).

(** Lines 232-234: the [finally]. *)
Definition init_finally (s : State) : State := setIsLoading false s.

(** Lines 128-133: no embedded wallet among the captured wallets. *)
Definition init_no_wallet (s : State) : Result (option Handle) * State :=
  (Normal None, setSmartAccountStatus S_waiting_for_wallet (setIsLoading false s)).

(** Lines 121-161: from [setIsLoading(true)] to the first [await] of the
    construction. *)
Definition init_begin (id : nat) (ws : list Wallet) (s : State) : State :=
  let s1 := setIsLoading true s in
  let s2 := setSmartAccountStatus S_initializing s1 in
  let s3 := setError None s2 in
  match embeddedWallet ws with
  | None =>
      let '(r, s4) := try_catch_finally init_no_wallet init_catch init_finally s3 in
      finish id r s4
  | Some w =>
      suspend id (AwaitDelegate w)
        (set_delegate_calls (S (delegate_calls (loop s3))) s3)
  end.

(** Lines 161-226: the rest of the [try] block once the construction has
    settled. *)
Definition init_construct (o : DelegateOutcome) (s : State)
    : Result (option Handle) * State :=
  match o with
  | ProviderThrows e => (Abrupt e, s)
  | AccountsThen None _ | AccountsThen (Some []) _ =>
      (Abrupt (ErrorObj "No accounts found in wallet"), s)
  | AccountsThen (Some (_ :: _)) (inl e) => (Abrupt e, s)
  | AccountsThen (Some (_ :: _)) (inr (client, address)) =>
      let s1 := clearWalletReadinessWatcher s in
      let s2 := setSmartAccountClient (Some client) s1 in
      let s3 := setSmartAccountAddress (Some address) s2 in
      let s4 := setSmartAccountStatus S_ready s3 in
      (Normal (Some (client, address)), s4)
  end.

(** The call [id] resumes inside the construction with outcome [o]. *)
Definition init_resume_delegate (id : nat) (o : DelegateOutcome) (s : State) : State :=
  let '(r, s1) := try_catch_finally (init_construct o) init_catch init_finally s in
  finish id r s1.

(** Lines 113-118: the [catch] around the [await] of the watcher. *)
Definition init_wait_rejected (id : nat) (e : Thrown) (s : State) : State :=
  let s1 := setError (Some (message_or e "Wallet creation timeout")) s in
  let s2 := setSmartAccountStatus S_error s1 in
  finish id (Normal None) s2.

(** Lines 95-119: a call of [initSmartAccount], up to its first suspension or
    its return.  The closure reads [authenticated], [user], [wallets] and the
    handle of the current render. *)
Definition initSmartAccount (s : State) : State :=
  let id := next_call (loop s) in
  let s0 := set_next_call (S id) s in
  if negb (authenticated (auth s)) || negb (user (auth s)) then
    finish id (Normal None) s0
  else
    match smartAccountClient (hooks s), smartAccountAddress (hooks s) with
    | Some client, Some address => finish id (Normal (Some (client, address))) s0
    | _, _ =>
        match walletReadyPromiseRef (refs s0) with
        | Some p =>
            suspend id (AwaitWatcher p (wallets (auth s)))
              (setSmartAccountStatus S_waiting_for_wallet s0)
        | None => init_begin id (wallets (auth s)) s0
        end
    end.

(** ** [retryWalletCreation], lines 238-254 *)

(** [walletReadyResolveRef.current?.()] *)
Definition call_resolver (s : State) : State :=
  match walletReadyResolveRef (refs s) with
  | Some p => resolve_promise p s
  | None => s
  end.

Definition retryWalletCreation (s : State) : State :=
  let s1 := setError None s in
  let s2 := clearWalletReadinessWatcher s1 in
  if hasPrivyWallet (wallets (auth s)) then
    let s3 := call_resolver s2 in
    let s4 := clearWalletReadinessWatcher s3 in
    initSmartAccount s4
  else
    let s3 := createWalletReadinessWatcher s2 in
    initSmartAccount s3.

(** ** The effects *)

(** Lines 257-281.  The flag records whether this run returned the cleanup
    function. *)
Definition bootstrapEffect (s : State) : State :=
  if negb (ready (auth s)) || negb (authenticated (auth s)) then
    set_bootstrap_cleanup false
      (setSmartAccountStatus S_idle (clearWalletReadinessWatcher s))
  else if hasPrivyWallet (wallets (auth s)) then
    set_bootstrap_cleanup false
      (clearWalletReadinessWatcher (call_resolver s))
  else
    match walletReadyPromiseRef (refs s) with
    | None => set_bootstrap_cleanup true (createWalletReadinessWatcher s)
    | Some _ => set_bootstrap_cleanup false s
    end.

(** The cleanup returned by the previous run of the bootstrap effect, run
    before the effect runs again. *)
Definition bootstrapCleanup (s : State) : State :=
  if bootstrap_cleanup (loop s) then clearWalletReadinessWatcher s else s.

(** Lines 284-288. *)
Definition autoInitEffect (s : State) : State :=
  if ready (auth s) && authenticated (auth s)
     && negb (Nat.eqb (length (wallets (auth s))) 0)
     && negb (bool_decide (is_Some (smartAccountClient (hooks s))))
     && negb (isLoading (hooks s))
  then initSmartAccount s
  else s.

(** ** Microtasks *)

Definition settled (s : State) (p : positive) : bool :=
  match promises (loop s) !! p with
  | Some Fulfilled | Some (Rejected _) => true
  | _ => false
  end.

(** One parked call: it continues when the promise it awaits is settled,
    and stays parked otherwise. *)
Definition resume_watcher (t : Task) (s : State) : State :=
  match awaiting t with
  | AwaitWatcher p ws =>
      match promises (loop s) !! p with
      | Some Fulfilled => init_begin (call_id t) ws s
      | Some (Rejected e) => init_wait_rejected (call_id t) e s
      | _ => suspend (call_id t) (awaiting t) s
      end
  | AwaitDelegate _ => suspend (call_id t) (awaiting t) s
  end.

Definition run_microtasks (s : State) : State :=
  fold_left (fun acc t => resume_watcher t acc) (tasks (loop s)) (set_tasks [] s).

(** ** Timers becoming due *)

Definition due (now : N) (t : Timer) : bool := (timer_deadline t <=? now)%N.

(** The due timers fire in the order in which they were armed. *)
Fixpoint fire_due (fuel : nat) (s : State) : State :=
  match fuel with
  | O => s
  | S fuel' =>
      match List.find (due (clock (loop s))) (timers (loop s)) with
      | None => s
      | Some t =>
          fire_due fuel'
            (timeout_callback (timer_promise t) (clearTimeout (timer_id t) s))
      end
  end.

(** ** Transitions *)

(** What can happen to the component.

    React compares the dependencies of an effect by identity ([Object.is]).
    The bootstrap effect (lines 257-281) depends on [ready], [authenticated]
    and the [wallets] array; the auto-initialisation effect (lines 284-288)
    depends on those, on [smartAccountClient] and [isLoading], and on
    [initSmartAccount], which is a new function whenever [user] is (line 235).
    So the renders that the two providers cause are of two kinds:
    - [AuthChanged r a u ws]: [usePrivy] or [useWallets] deliver new values,
      among them a new value of [ready] or [authenticated] or a new [wallets]
      array (a new array object, whatever it holds).  Both effects re-run.
    - [UserChanged u]: [usePrivy] delivers a new [user] and nothing else
      changes ([ready], [authenticated] and the [wallets] array are the very
      same values).  Only the auto-initialisation effect re-runs.

    [Flushed e] is the happening [e] on the other schedule: React commits
    the re-render asked for by the handler of [e] before the promise
    reactions that the handler released run. *)
Inductive Event :=
| AuthChanged (r a u : bool) (ws : list Wallet)
| CallInitSmartAccount
| CallRetryWalletCreation
| Elapse (ms : N)
| DelegateSettles (id : nat) (o : DelegateOutcome)
| UserChanged (u : bool)
| Flushed (e : Event).

Definition is_delegate_task (id : nat) (t : Task) : bool :=
  match awaiting t with
  | AwaitDelegate _ => Nat.eqb (call_id t) id
  | AwaitWatcher _ _ => false
  end.

(** The synchronous part of a happening: the handler, or the render and the
    effects (their cleanups first) that a notification of the providers
    causes.  [AuthChanged] brings a new dependency of the bootstrap effect, so
    its cleanup (if the last run returned one) and the effect run, and then
    the auto-initialisation effect; [UserChanged] brings none, so only the
    auto-initialisation effect runs. *)
Fixpoint handle (e : Event) (s : State) : State :=
  match e with
  | AuthChanged r a u ws =>
      let s1 := with_auth {| ready := r; authenticated := a; user := u;
                             wallets := ws |} s in
      autoInitEffect (bootstrapEffect (bootstrapCleanup s1))
  | CallInitSmartAccount => initSmartAccount s
  | CallRetryWalletCreation => retryWalletCreation s
  | Elapse ms =>
      let s1 := set_clock (clock (loop s) + ms)%N s in
      fire_due (length (timers (loop s1))) s1
  | DelegateSettles id o =>
      if existsb (is_delegate_task id) (tasks (loop s)) then
        init_resume_delegate id o
          (set_tasks
             (List.filter (fun t => negb (is_delegate_task id t)) (tasks (loop s))) s)
      else s
  | UserChanged u =>
      autoInitEffect
        (with_auth {| ready := ready (auth s); authenticated := authenticated (auth s);
                      user := u; wallets := wallets (auth s) |} s)
  | Flushed e' => handle e' s
  end.

(** The dependencies of the auto-initialisation effect that a handler can
    change. *)
Definition autoInit_deps_changed (s s' : State) : bool :=
  negb (bool_decide (smartAccountClient (hooks s) = smartAccountClient (hooks s'))
        && bool_decide (smartAccountAddress (hooks s) = smartAccountAddress (hooks s'))
        && bool_decide (isLoading (hooks s) = isLoading (hooks s'))).

(** The handler, then the promise reactions it released, then the re-render:
    the auto-initialisation effect re-runs if one of its dependencies differs
    from the last render. *)
Definition step_batched (e : Event) (s : State) : State :=
  let s1 := run_microtasks (handle e s) in
  if autoInit_deps_changed s s1 then autoInitEffect s1 else s1.

(** The handler, then the re-render it asked for, then the promise reactions
    it released, then the re-render they ask for. *)
Definition step_flushed (e : Event) (s : State) : State :=
  let s1 := handle e s in
  let s2 := if autoInit_deps_changed s s1 then autoInitEffect s1 else s1 in
  let s3 := run_microtasks s2 in
  if autoInit_deps_changed s2 s3 then autoInitEffect s3 else s3.

Definition step (e : Event) (s : State) : State :=
  match e with
  | Flushed e' => step_flushed e' s
  | _ => step_batched e s
  end.

Definition run (es : list Event) (s : State) : State :=
  fold_left (fun acc e => step e acc) es s.

(** The component just mounted, before the authentication provider is ready. *)
Definition initial : State :=
  {| auth := {| ready := false; authenticated := false; user := false; wallets := [] |};
     hooks := {| smartAccountClient := None; smartAccountAddress := None;
                 isLoading := false; error := None; smartAccountStatus := S_idle |};
     refs := {| walletReadyPromiseRef := None; walletReadyResolveRef := None;
                timeoutIdRef := None |};
     loop := {| clock := 0; promises := ∅; next_promise := 1; timers := [];
                next_timer := 1; tasks := []; next_call := 0; returned := [];
                delegate_calls := 0; bootstrap_cleanup := false |} |}.

(** ** What the operations leave alone *)

(** The part of the state that the watcher lives in. *)
Definition Core : Type :=
  Refs * list Timer * N * gmap positive PromiseState * positive * positive.

Definition core (s : State) : Core :=
  (refs s, timers (loop s), clock (loop s), promises (loop s),
   next_timer (loop s), next_promise (loop s)).

Lemma core_inv s r ts now ps nt np :
  core s = (r, ts, now, ps, nt, np) ->
  refs s = r /\ timers (loop s) = ts /\ clock (loop s) = now
  /\ promises (loop s) = ps /\ next_timer (loop s) = nt
  /\ next_promise (loop s) = np.
Proof. unfold core. intros [= -> -> -> -> -> ->]. repeat split. Qed.

Lemma core_eq s s' :
  core s' = core s ->
  refs s' = refs s /\ timers (loop s') = timers (loop s)
  /\ clock (loop s') = clock (loop s)
  /\ promises (loop s') = promises (loop s)
  /\ next_timer (loop s') = next_timer (loop s)
  /\ next_promise (loop s') = next_promise (loop s).
Proof. apply core_inv. Qed.

Lemma core_with_hooks f s : core (with_hooks f s) = core s.
Proof. reflexivity. Qed.

Lemma core_with_auth a s : core (with_auth a s) = core s.
Proof. reflexivity. Qed.

Lemma core_set_bootstrap_cleanup b s : core (set_bootstrap_cleanup b s) = core s.
Proof. reflexivity. Qed.

Lemma core_setSmartAccountStatus v s : core (setSmartAccountStatus v s) = core s.
Proof. reflexivity. Qed.

Lemma core_setError v s : core (setError v s) = core s.
Proof. reflexivity. Qed.

Lemma refs_set_bootstrap_cleanup b s : refs (set_bootstrap_cleanup b s) = refs s.
Proof. reflexivity. Qed.

Lemma core_finish id r s : core (finish id r s) = core s.
Proof. reflexivity. Qed.

Lemma core_suspend id k s : core (suspend id k s) = core s.
Proof. reflexivity. Qed.

Lemma core_init_begin id ws s : core (init_begin id ws s) = core s.
Proof. unfold init_begin. destruct (embeddedWallet ws); reflexivity. Qed.

Lemma core_init_wait_rejected id e s : core (init_wait_rejected id e s) = core s.
Proof. reflexivity. Qed.

Lemma core_initSmartAccount s : core (initSmartAccount s) = core s.
Proof.
  unfold initSmartAccount.
  destruct (negb (authenticated (auth s)) || negb (user (auth s))); [reflexivity|].
  destruct (smartAccountClient (hooks s)), (smartAccountAddress (hooks s));
    try reflexivity; cbn [refs set_next_call with_loop];
    destruct (walletReadyPromiseRef (refs s));
    rewrite ?core_suspend, ?core_init_begin; reflexivity.
Qed.

Lemma core_autoInitEffect s : core (autoInitEffect s) = core s.
Proof.
  unfold autoInitEffect.
  destruct (_ && _); [apply core_initSmartAccount | reflexivity].
Qed.

Lemma core_resume_watcher t s : core (resume_watcher t s) = core s.
Proof.
  unfold resume_watcher. destruct (awaiting t); [|reflexivity].
  destruct (promises (loop s) !! p) as [[]|];
    rewrite ?core_init_begin; reflexivity.
Qed.

Lemma core_resume_all ts s :
  core (fold_left (fun acc t => resume_watcher t acc) ts s) = core s.
Proof.
  revert s. induction ts as [|t ts IH]; intros s; [reflexivity|].
  cbn [fold_left]. rewrite IH. apply core_resume_watcher.
Qed.

Lemma core_run_microtasks s : core (run_microtasks s) = core s.
Proof. unfold run_microtasks. rewrite core_resume_all. reflexivity. Qed.

(** ** The watcher invariant *)

Definition refs_none : Refs :=
  {| walletReadyPromiseRef := None; walletReadyResolveRef := None;
     timeoutIdRef := None |}.

Definition refs_of (t : Timer) : Refs :=
  {| walletReadyPromiseRef := Some (timer_promise t);
     walletReadyResolveRef := Some (timer_promise t);
     timeoutIdRef := Some (timer_id t) |}.

(** Either there is no watcher, or there is exactly one armed timer and the
    three refs are those of its watcher. *)
Definition watcher_shape (c : Core) : Prop :=
  let '(r, ts, now, ps, nt, np) := c in
  (r = refs_none /\ ts = []) \/
  (exists t, ts = [t] /\ r = refs_of t
             /\ timer_delay t = WALLET_READY_TIMEOUT
             /\ (timer_set_at t <= now < timer_deadline t)%N
             /\ ps !! timer_promise t = Some Pending
             /\ (timer_id t < nt)%positive
             /\ (timer_promise t < np)%positive).

(** Every call parked on a watcher waits for a promise that is not settled
    (a settled one has been resumed by the microtasks). *)
Definition tasks_unsettled (s : State) : Prop :=
  forall t p ws, In t (tasks (loop s)) -> awaiting t = AwaitWatcher p ws ->
                 settled s p = false.

Record Inv (s : State) : Prop := {
  inv_shape : watcher_shape (core s);
  inv_tasks : tasks_unsettled s;
}.

(** *** Clearing and creating *)

Lemma clear_refs s : refs (clearWalletReadinessWatcher s) = refs_none.
Proof.
  unfold clearWalletReadinessWatcher.
  destruct (timeoutIdRef (refs s)) eqn:E; cbn; rewrite ?E; reflexivity.
Qed.

Lemma clear_timers s :
  timers (loop (clearWalletReadinessWatcher s)) =
  match timeoutIdRef (refs s) with
  | Some id => filter (fun t => timer_id t <> id) (timers (loop s))
  | None => timers (loop s)
  end.
Proof.
  unfold clearWalletReadinessWatcher.
  destruct (timeoutIdRef (refs s)); reflexivity.
Qed.

Lemma clear_clock s :
  clock (loop (clearWalletReadinessWatcher s)) = clock (loop s).
Proof.
  unfold clearWalletReadinessWatcher.
  destruct (timeoutIdRef (refs s)); reflexivity.
Qed.

Lemma clear_promises s :
  promises (loop (clearWalletReadinessWatcher s)) = promises (loop s).
Proof.
  unfold clearWalletReadinessWatcher.
  destruct (timeoutIdRef (refs s)); reflexivity.
Qed.

Lemma clear_hooks s : hooks (clearWalletReadinessWatcher s) = hooks s.
Proof.
  unfold clearWalletReadinessWatcher.
  destruct (timeoutIdRef (refs s)); reflexivity.
Qed.

Lemma clear_auth s : auth (clearWalletReadinessWatcher s) = auth s.
Proof.
  unfold clearWalletReadinessWatcher.
  destruct (timeoutIdRef (refs s)); reflexivity.
Qed.

Lemma clear_tasks s :
  tasks (loop (clearWalletReadinessWatcher s)) = tasks (loop s).
Proof.
  unfold clearWalletReadinessWatcher.
  destruct (timeoutIdRef (refs s)); reflexivity.
Qed.

Lemma clear_counters s :
  next_timer (loop (clearWalletReadinessWatcher s)) = next_timer (loop s)
  /\ next_promise (loop (clearWalletReadinessWatcher s)) = next_promise (loop s).
Proof.
  unfold clearWalletReadinessWatcher.
  destruct (timeoutIdRef (refs s)); split; reflexivity.
Qed.

(** The armed timers are at most the one the ref names. *)
Definition timers_in_ref (s : State) : Prop :=
  forall t, In t (timers (loop s)) -> timeoutIdRef (refs s) = Some (timer_id t).

Lemma filter_none_left (ts : list Timer) id :
  (forall t, In t ts -> timer_id t = id) ->
  filter (fun t => timer_id t <> id) ts = [].
Proof.
  induction ts as [|t ts IH]; intros H; [reflexivity|].
  rewrite filter_cons. destruct (decide (timer_id t <> id)) as [Hne|_].
  - exfalso. apply Hne, H. now left.
  - apply IH. intros t' Ht'. apply H. now right.
Qed.

Lemma clear_timers_in_ref s :
  timers_in_ref s -> timers (loop (clearWalletReadinessWatcher s)) = [].
Proof.
  intros H. rewrite clear_timers.
  destruct (timeoutIdRef (refs s)) as [id|] eqn:E.
  - apply filter_none_left. intros t Ht. specialize (H t Ht). congruence.
  - destruct (timers (loop s)) as [|t ts] eqn:Et; [reflexivity|].
    specialize (H t). rewrite Et in H. specialize (H (or_introl eq_refl)).
    congruence.
Qed.

Lemma shape_timers_in_ref s : watcher_shape (core s) -> timers_in_ref s.
Proof.
  unfold core, watcher_shape, timers_in_ref.
  intros [[Hr Ht]|(t & Ht & Hr & _)] t' Hin; rewrite Ht in Hin.
  - destruct Hin.
  - destruct Hin as [<-|[]]. rewrite Hr. reflexivity.
Qed.

Lemma clear_shape s :
  timers_in_ref s -> watcher_shape (core (clearWalletReadinessWatcher s)).
Proof.
  intros H. unfold core. rewrite clear_refs, (clear_timers_in_ref s H).
  left. split; reflexivity.
Qed.

Lemma timers_in_ref_eq s s' :
  refs s' = refs s -> timers (loop s') = timers (loop s) ->
  timers_in_ref s -> timers_in_ref s'.
Proof. unfold timers_in_ref. intros -> ->. auto. Qed.

(** The timer that [createWalletReadinessWatcher] arms in [s]. *)
Definition new_timer (s : State) : Timer :=
  {| timer_id := next_timer (loop s); timer_set_at := clock (loop s);
     timer_delay := WALLET_READY_TIMEOUT; timer_promise := next_promise (loop s) |}.

Lemma create_core s :
  core (createWalletReadinessWatcher s) =
  (refs_of (new_timer s),
   (timers (loop (clearWalletReadinessWatcher s)) ++ [new_timer s])%list,
   clock (loop s),
   <[next_promise (loop s) := Pending]> (promises (loop s)),
   Pos.succ (next_timer (loop s)),
   Pos.succ (next_promise (loop s))).
Proof.
  unfold createWalletReadinessWatcher, clearWalletReadinessWatcher, new_timer.
  destruct (timeoutIdRef (refs s)); reflexivity.
Qed.

Lemma create_timers s :
  timers (loop (createWalletReadinessWatcher s)) =
  (timers (loop (clearWalletReadinessWatcher s)) ++ [new_timer s])%list.
Proof. exact (f_equal (fun c : Core => c.1.1.1.1.2) (create_core s)). Qed.

Lemma create_refs s :
  refs (createWalletReadinessWatcher s) = refs_of (new_timer s).
Proof. exact (f_equal (fun c : Core => c.1.1.1.1.1) (create_core s)). Qed.

Lemma create_promises s :
  promises (loop (createWalletReadinessWatcher s)) =
  <[next_promise (loop s) := Pending]> (promises (loop s)).
Proof. exact (f_equal (fun c : Core => c.1.1.2) (create_core s)). Qed.

Lemma create_shape s :
  timers_in_ref s -> watcher_shape (core (createWalletReadinessWatcher s)).
Proof.
  intros H. rewrite create_core, (clear_timers_in_ref s H).
  right. exists (new_timer s).
  split; [reflexivity|]. split; [reflexivity|]. split; [reflexivity|].
  split; [unfold timer_deadline, new_timer, WALLET_READY_TIMEOUT;
          cbn [timer_set_at timer_delay]; lia|].
  split; [apply lookup_insert_eq|].
  unfold new_timer. cbn [timer_id timer_promise]. lia.
Qed.

Lemma resolve_promise_frame p s :
  refs (resolve_promise p s) = refs s
  /\ timers (loop (resolve_promise p s)) = timers (loop s)
  /\ clock (loop (resolve_promise p s)) = clock (loop s)
  /\ hooks (resolve_promise p s) = hooks s
  /\ tasks (loop (resolve_promise p s)) = tasks (loop s).
Proof.
  unfold resolve_promise.
  destruct (promises (loop s) !! p) as [[]|]; repeat split.
Qed.

Lemma reject_promise_frame p e s :
  refs (reject_promise p e s) = refs s
  /\ timers (loop (reject_promise p e s)) = timers (loop s)
  /\ clock (loop (reject_promise p e s)) = clock (loop s)
  /\ hooks (reject_promise p e s) = hooks s
  /\ tasks (loop (reject_promise p e s)) = tasks (loop s).
Proof.
  unfold reject_promise.
  destruct (promises (loop s) !! p) as [[]|]; repeat split.
Qed.

Lemma call_resolver_frame s :
  refs (call_resolver s) = refs s
  /\ timers (loop (call_resolver s)) = timers (loop s)
  /\ clock (loop (call_resolver s)) = clock (loop s)
  /\ hooks (call_resolver s) = hooks s
  /\ tasks (loop (call_resolver s)) = tasks (loop s).
Proof.
  unfold call_resolver. destruct (walletReadyResolveRef (refs s)).
  - apply resolve_promise_frame.
  - repeat split.
Qed.

Lemma timers_in_ref_call_resolver s :
  timers_in_ref s -> timers_in_ref (call_resolver s).
Proof.
  destruct (call_resolver_frame s) as (Hr & Ht & _).
  now apply timers_in_ref_eq.
Qed.

Lemma shape_core_eq s s' :
  core s' = core s -> watcher_shape (core s) -> watcher_shape (core s').
Proof. now intros ->. Qed.

(** *** The handlers keep the shape *)

Lemma retry_shape s :
  watcher_shape (core s) -> watcher_shape (core (retryWalletCreation s)).
Proof.
  intros H. unfold retryWalletCreation.
  assert (Hin : timers_in_ref (setError None s))
    by (apply (timers_in_ref_eq s); [reflexivity..|now apply shape_timers_in_ref]).
  pose proof (clear_shape _ Hin) as Hc.
  destruct (hasPrivyWallet (wallets (auth s))).
  - rewrite core_initSmartAccount. apply clear_shape.
    apply timers_in_ref_call_resolver. now apply shape_timers_in_ref.
  - rewrite core_initSmartAccount. apply create_shape.
    now apply shape_timers_in_ref.
Qed.

Lemma bootstrapCleanup_shape s :
  watcher_shape (core s) -> watcher_shape (core (bootstrapCleanup s)).
Proof.
  intros H. unfold bootstrapCleanup. destruct (bootstrap_cleanup (loop s)); [|exact H].
  apply clear_shape. now apply shape_timers_in_ref.
Qed.

Lemma bootstrapEffect_shape s :
  watcher_shape (core s) -> watcher_shape (core (bootstrapEffect s)).
Proof.
  intros H. pose proof (shape_timers_in_ref s H) as Hin. unfold bootstrapEffect.
  destruct (negb (ready (auth s)) || negb (authenticated (auth s))).
  - rewrite core_set_bootstrap_cleanup, core_setSmartAccountStatus.
    now apply clear_shape.
  - destruct (hasPrivyWallet (wallets (auth s))).
    + rewrite core_set_bootstrap_cleanup.
      apply clear_shape. now apply timers_in_ref_call_resolver.
    + destruct (walletReadyPromiseRef (refs s)).
      * rewrite core_set_bootstrap_cleanup. exact H.
      * rewrite core_set_bootstrap_cleanup. now apply create_shape.
Qed.

Lemma timeout_callback_shape p s :
  timers_in_ref s -> watcher_shape (core (timeout_callback p s)).
Proof.
  intros H. unfold timeout_callback. apply clear_shape.
  destruct (reject_promise_frame p (ErrorObj TIMEOUT_MESSAGE)
              (setError (Some TIMEOUT_MESSAGE) (setSmartAccountStatus S_error s)))
    as (Hr & Ht & _).
  apply (timers_in_ref_eq s); assumption.
Qed.

Lemma elapse_shape ms s :
  watcher_shape (core s) -> watcher_shape (core (handle (Elapse ms) s)).
Proof.
  unfold core at 1. cbn [watcher_shape handle].
  intros [[Hr Ht]|(t & Ht & Hr & Hd & Hc & Hp & Hf)].
  - cbn [set_clock with_loop loop timers]. rewrite Ht. cbn [length fire_due].
    unfold core. cbn. rewrite Hr, Ht. now left.
  - cbn [set_clock with_loop loop timers]. rewrite Ht. cbn [length fire_due].
    cbn [set_clock with_loop loop timers clock]. rewrite Ht. cbn [List.find].
    destruct (due (clock (loop s) + ms) t) eqn:Hdue.
    + apply timeout_callback_shape. intros t' Hin. cbn in Hin.
      rewrite Ht in Hin. cbn in Hin.
      destruct (decide (timer_id t <> timer_id t)) as [Hne|_]; [congruence|].
      destruct Hin.
    + unfold core. cbn. rewrite Hr, Ht. right. exists t.
      unfold due in Hdue. apply N.leb_gt in Hdue.
      repeat split; try assumption; lia.
Qed.

Lemma init_construct_shape o s r s' :
  watcher_shape (core s) -> init_construct o s = (r, s') ->
  watcher_shape (core s').
Proof.
  intros H. unfold init_construct.
  destruct o as [e|[[|a l]|] [e|[c a']]]; intros [= <- <-]; try exact H.
  apply (shape_core_eq (clearWalletReadinessWatcher s)); [reflexivity|].
  apply clear_shape. now apply shape_timers_in_ref.
Qed.

Lemma init_resume_delegate_shape id o s :
  watcher_shape (core s) -> watcher_shape (core (init_resume_delegate id o s)).
Proof.
  intros H. unfold init_resume_delegate, try_catch_finally.
  destruct (init_construct o s) as [r s1] eqn:E.
  pose proof (init_construct_shape _ _ _ _ H E) as H1.
  destruct r; exact H1.
Qed.

Lemma handle_shape e s :
  watcher_shape (core s) -> watcher_shape (core (handle e s)).
Proof.
  revert s. induction e as [r a u ws| | |ms|id o|u|e IH]; intros s H.
  - cbn [handle]. rewrite core_autoInitEffect.
    apply bootstrapEffect_shape, bootstrapCleanup_shape. exact H.
  - cbn [handle]. now rewrite core_initSmartAccount.
  - now apply retry_shape.
  - now apply elapse_shape.
  - cbn [handle]. destruct (existsb _ _); [|exact H].
    apply init_resume_delegate_shape. exact H.
  - cbn [handle]. now rewrite core_autoInitEffect, core_with_auth.
  - cbn [handle]. now apply IH.
Qed.

(** *** Parked calls *)

Lemma promises_of_core s s' :
  core s' = core s -> promises (loop s') = promises (loop s).
Proof. unfold core. now intros [= _ _ _ -> _ _]. Qed.

Lemma tasks_unsettled_grow s s' :
  promises (loop s') = promises (loop s) ->
  (forall t, In t (tasks (loop s')) ->
     In t (tasks (loop s))
     \/ (exists w, awaiting t = AwaitDelegate w)
     \/ (exists p ws, awaiting t = AwaitWatcher p ws /\ settled s p = false)) ->
  tasks_unsettled s -> tasks_unsettled s'.
Proof.
  intros Hp Hin H t p ws Ht Ha. unfold settled. rewrite Hp.
  destruct (Hin t Ht) as [Hold|[(w & Hw)|(p' & ws' & Hw & Hs)]].
  - exact (H t p ws Hold Ha).
  - congruence.
  - rewrite Ha in Hw. injection Hw as -> ->. exact Hs.
Qed.

Lemma tasks_init_begin id ws s :
  tasks (loop (init_begin id ws s)) = tasks (loop s)
  \/ exists w, tasks (loop (init_begin id ws s))
               = (tasks (loop s) ++ [{| call_id := id; awaiting := AwaitDelegate w |}])%list.
Proof.
  unfold init_begin. destruct (embeddedWallet ws) as [w|].
  - right. exists w. reflexivity.
  - left. reflexivity.
Qed.

Lemma init_begin_unsettled id ws s :
  tasks_unsettled s -> tasks_unsettled (init_begin id ws s).
Proof.
  apply tasks_unsettled_grow.
  - apply promises_of_core, core_init_begin.
  - intros t Ht. destruct (tasks_init_begin id ws s) as [E|(w & E)];
      rewrite E in Ht; [now left|].
    apply in_app_or in Ht. destruct Ht as [Ht|[<-|[]]]; [now left|].
    right. left. now exists w.
Qed.

Lemma resume_watcher_unsettled t s :
  tasks_unsettled s -> tasks_unsettled (resume_watcher t s).
Proof.
  intros H. unfold resume_watcher.
  destruct (awaiting t) as [p ws|w] eqn:Ha.
  - destruct (promises (loop s) !! p) as [[| |e]|] eqn:Hp.
    + revert H. apply tasks_unsettled_grow; [reflexivity|].
      intros t' Ht'. cbn in Ht'. apply in_app_or in Ht'.
      destruct Ht' as [Ht'|[<-|[]]]; [now left|].
      right. right. exists p, ws. split; [reflexivity|].
      unfold settled. now rewrite Hp.
    + now apply init_begin_unsettled.
    + revert H. apply tasks_unsettled_grow; [reflexivity|]. intros t' Ht'. now left.
    + revert H. apply tasks_unsettled_grow; [reflexivity|].
      intros t' Ht'. cbn in Ht'. apply in_app_or in Ht'.
      destruct Ht' as [Ht'|[<-|[]]]; [now left|].
      right. right. exists p, ws. split; [reflexivity|].
      unfold settled. now rewrite Hp.
  - revert H. apply tasks_unsettled_grow; [reflexivity|].
    intros t' Ht'. cbn in Ht'. apply in_app_or in Ht'.
    destruct Ht' as [Ht'|[<-|[]]]; [now left|].
    right. left. now exists w.
Qed.

Lemma resume_all_unsettled ts s :
  tasks_unsettled s ->
  tasks_unsettled (fold_left (fun acc t => resume_watcher t acc) ts s).
Proof.
  revert s. induction ts as [|t ts IH]; intros s H; [exact H|].
  cbn [fold_left]. apply IH. now apply resume_watcher_unsettled.
Qed.

(** After the microtasks no parked call waits for a settled promise. *)
Lemma run_microtasks_unsettled s : tasks_unsettled (run_microtasks s).
Proof.
  unfold run_microtasks. apply resume_all_unsettled.
  intros t p ws Ht. destruct Ht.
Qed.

Lemma shape_ref_pending s p :
  watcher_shape (core s) -> walletReadyPromiseRef (refs s) = Some p ->
  promises (loop s) !! p = Some Pending.
Proof.
  unfold core, watcher_shape.
  intros [[Hr _]|(t & _ & Hr & _ & _ & Hp & _)] E; rewrite Hr in E; cbn in E.
  - discriminate.
  - now injection E as <-.
Qed.

Lemma initSmartAccount_unsettled s :
  watcher_shape (core s) -> tasks_unsettled s ->
  tasks_unsettled (initSmartAccount s).
Proof.
  intros Hs H. unfold initSmartAccount.
  destruct (negb (authenticated (auth s)) || negb (user (auth s))); [exact H|].
  assert (Hgo : tasks_unsettled
    match walletReadyPromiseRef (refs (set_next_call (S (next_call (loop s))) s)) with
    | Some p =>
        suspend (next_call (loop s)) (AwaitWatcher p (wallets (auth s)))
          (setSmartAccountStatus S_waiting_for_wallet
             (set_next_call (S (next_call (loop s))) s))
    | None => init_begin (next_call (loop s)) (wallets (auth s))
                (set_next_call (S (next_call (loop s))) s)
    end).
  { cbn [refs set_next_call with_loop].
    destruct (walletReadyPromiseRef (refs s)) as [p|] eqn:E.
    - revert H. apply tasks_unsettled_grow; [reflexivity|].
      intros t' Ht'. cbn in Ht'. apply in_app_or in Ht'.
      destruct Ht' as [Ht'|[<-|[]]]; [now left|].
      right. right. exists p, (wallets (auth s)). split; [reflexivity|].
      unfold settled. now rewrite (shape_ref_pending s p Hs E).
    - apply init_begin_unsettled. exact H. }
  destruct (smartAccountClient (hooks s)), (smartAccountAddress (hooks s));
    try exact Hgo; exact H.
Qed.

Lemma autoInitEffect_unsettled s :
  watcher_shape (core s) -> tasks_unsettled s ->
  tasks_unsettled (autoInitEffect s).
Proof.
  intros Hs H. unfold autoInitEffect.
  destruct (_ && _); [now apply initSmartAccount_unsettled | exact H].
Qed.

(** *** The invariant holds in every reachable state *)

Lemma Inv_initial : Inv initial.
Proof.
  split.
  - left. split; reflexivity.
  - intros t p ws [].
Qed.

(** *** The two schedules of a transition *)

(** Whether the re-render is committed before the promise reactions. *)
Definition flushed (e : Event) : bool :=
  match e with
  | Flushed _ => true
  | _ => false
  end.

Lemma step_plain e s : flushed e = false -> step e s = step_batched e s.
Proof. destruct e; [reflexivity..|discriminate]. Qed.

Lemma step_Flushed e s : step (Flushed e) s = step_flushed e s.
Proof. reflexivity. Qed.

Lemma handle_Flushed e s : handle (Flushed e) s = handle e s.
Proof. reflexivity. Qed.

(** What the handler establishes and the promise reactions and the
    auto-initialisation effect keep, holds after the transition, on either
    schedule. *)
Lemma step_preserves (P : State -> Prop) e s :
  P (handle e s) ->
  (forall x, P x -> P (run_microtasks x)) ->
  (forall x, P x -> P (autoInitEffect x)) ->
  P (step e s).
Proof.
  intros H0 Hm Ha.
  assert (Hr : forall x y, P y ->
            P (if autoInit_deps_changed x y then autoInitEffect y else y))
    by (intros x y Hy; destruct (autoInit_deps_changed x y); auto).
  destruct e; try (rewrite step_plain by reflexivity; apply Hr, Hm, H0).
  rewrite step_Flushed. rewrite handle_Flushed in H0.
  apply Hr, Hm, Hr, H0.
Qed.

(** A transition ends with the promise reactions and at most one run of the
    auto-initialisation effect. *)
Lemma step_form e s :
  exists x y,
    step e s = (if autoInit_deps_changed x (run_microtasks y)
                then autoInitEffect (run_microtasks y) else run_microtasks y)
    /\ (y = handle e s \/ y = autoInitEffect (handle e s)).
Proof.
  destruct e;
    try (rewrite step_plain by reflexivity; eexists _, _; split;
         [reflexivity|left; reflexivity]).
  rewrite step_Flushed, handle_Flushed. unfold step_flushed.
  destruct (autoInit_deps_changed s (handle e s));
    eexists _, _; (split; [reflexivity|]); [right|left]; reflexivity.
Qed.

Lemma step_shape e s :
  watcher_shape (core s) -> watcher_shape (core (step e s)).
Proof.
  intros Hs. apply (step_preserves (fun x => watcher_shape (core x))).
  - now apply handle_shape.
  - intros x Hx. now rewrite core_run_microtasks.
  - intros x Hx. now rewrite core_autoInitEffect.
Qed.

Lemma Inv_step e s : Inv s -> Inv (step e s).
Proof.
  intros [Hs _]. split; [now apply step_shape|].
  destruct (step_form e s) as (x & y & -> & Hy).
  assert (H1 : watcher_shape (core (run_microtasks y))).
  { rewrite core_run_microtasks.
    destruct Hy as [-> | ->]; rewrite ?core_autoInitEffect; now apply handle_shape. }
  pose proof (run_microtasks_unsettled y) as H2.
  destruct (autoInit_deps_changed _ _); [|exact H2].
  now apply autoInitEffect_unsettled.
Qed.

Lemma Inv_run es s : Inv s -> Inv (run es s).
Proof.
  revert s. induction es as [|e es IH]; intros s H; [exact H|].
  cbn [run fold_left]. apply IH, Inv_step, H.
Qed.

(** ** Microtasks when nothing or only a timed-out watcher is settled *)

(** The parts of the state that a resumed call can write. *)
Definition parked (s : State) (t : Task) : Prop :=
  forall p ws, awaiting t = AwaitWatcher p ws -> settled s p = false.

Lemma resume_watcher_parked t s :
  parked s t -> resume_watcher t s = suspend (call_id t) (awaiting t) s.
Proof.
  intros H. unfold resume_watcher.
  destruct (awaiting t) as [p ws|w] eqn:Ha; [|reflexivity].
  specialize (H p ws Ha). unfold settled in H.
  destruct (promises (loop s) !! p) as [[]|]; try reflexivity; discriminate.
Qed.

Lemma resume_watcher_rejected t s p ws e :
  awaiting t = AwaitWatcher p ws ->
  promises (loop s) !! p = Some (Rejected e) ->
  resume_watcher t s = init_wait_rejected (call_id t) e s.
Proof. intros Ha Hp. unfold resume_watcher. now rewrite Ha, Hp. Qed.

Lemma resume_all_parked ts s :
  (forall t, In t ts -> parked s t) ->
  hooks (fold_left (fun acc t => resume_watcher t acc) ts s) = hooks s
  /\ returned (loop (fold_left (fun acc t => resume_watcher t acc) ts s))
     = returned (loop s)
  /\ delegate_calls (loop (fold_left (fun acc t => resume_watcher t acc) ts s))
     = delegate_calls (loop s).
Proof.
  revert s. induction ts as [|t ts IH]; intros s H; [repeat split|].
  cbn [fold_left]. rewrite resume_watcher_parked by (apply H; now left).
  destruct (IH (suspend (call_id t) (awaiting t) s)) as (H1 & H2 & H3).
  - intros t' Ht' p ws Ha. exact (H t' (or_intror Ht') p ws Ha).
  - rewrite H1, H2, H3. repeat split.
Qed.

Lemma run_microtasks_parked s :
  tasks_unsettled s ->
  hooks (run_microtasks s) = hooks s
  /\ returned (loop (run_microtasks s)) = returned (loop s)
  /\ delegate_calls (loop (run_microtasks s)) = delegate_calls (loop s).
Proof.
  intros H. unfold run_microtasks.
  destruct (resume_all_parked (tasks (loop s)) (set_tasks [] s)) as (H1 & H2 & H3).
  - intros t Ht p ws Ha. exact (H t p ws Ht Ha).
  - rewrite H1, H2, H3. repeat split.
Qed.

Lemma autoInit_deps_same s s' :
  hooks s' = hooks s -> autoInit_deps_changed s s' = false.
Proof.
  intros E. unfold autoInit_deps_changed. rewrite E.
  rewrite !bool_decide_eq_true_2 by reflexivity. reflexivity.
Qed.

(** A step whose handler settles no promise and leaves the hooks alone is
    the handler followed by nothing else that is visible. *)
Lemma step_quiet e s :
  flushed e = false ->
  tasks_unsettled (handle e s) -> hooks (handle e s) = hooks s ->
  hooks (step e s) = hooks s /\ core (step e s) = core (handle e s)
  /\ returned (loop (step e s)) = returned (loop (handle e s)).
Proof.
  intros Hf Hu Hh. rewrite (step_plain e s Hf). unfold step_batched.
  destruct (run_microtasks_parked _ Hu) as (H1 & H2 & _).
  rewrite autoInit_deps_same by congruence.
  rewrite H1, Hh, core_run_microtasks, H2. repeat split.
Qed.

(** The hooks after a watcher has timed out. *)
Definition timed_out (h : Hooks) : Prop :=
  smartAccountStatus h = S_error /\ error h = Some TIMEOUT_MESSAGE.

(** A parked call that is either still waiting or waits for a promise that
    the timeout rejected. *)
Definition parked_or_timed_out (s : State) (t : Task) : Prop :=
  forall p ws, awaiting t = AwaitWatcher p ws ->
    settled s p = false
    \/ promises (loop s) !! p = Some (Rejected (ErrorObj TIMEOUT_MESSAGE)).

Lemma resume_all_timed_out ts s :
  (forall t, In t ts -> parked_or_timed_out s t) ->
  timed_out (hooks s) ->
  let s' := fold_left (fun acc t => resume_watcher t acc) ts s in
  timed_out (hooks s')
  /\ smartAccountClient (hooks s') = smartAccountClient (hooks s)
  /\ smartAccountAddress (hooks s') = smartAccountAddress (hooks s)
  /\ isLoading (hooks s') = isLoading (hooks s).
Proof.
  revert s. induction ts as [|t ts IH]; intros s H Hto; [repeat split; apply Hto|].
  cbn [fold_left].
  assert (Hnext : forall s1, promises (loop s1) = promises (loop s) ->
            forall t', In t' ts -> parked_or_timed_out s1 t').
  { intros s1 Hp t' Ht' p ws Ha. unfold settled. rewrite Hp.
    exact (H t' (or_intror Ht') p ws Ha). }
  destruct (awaiting t) as [p ws|w] eqn:Ha.
  - destruct (H t (or_introl eq_refl) p ws Ha) as [Hs|Hr].
    + rewrite resume_watcher_parked
        by (intros p' ws' Ha'; rewrite Ha in Ha'; now injection Ha' as <- <-).
      apply (IH (suspend (call_id t) (awaiting t) s)); [|exact Hto].
      now apply Hnext.
    + rewrite (resume_watcher_rejected t s p ws _ Ha Hr).
      destruct (IH (init_wait_rejected (call_id t) (ErrorObj TIMEOUT_MESSAGE) s))
        as (H1 & H2 & H3 & H4).
      * now apply Hnext.
      * split; reflexivity.
      * cbv beta iota zeta. rewrite H2, H3, H4. repeat split; apply H1.
  - rewrite resume_watcher_parked by (intros p ws Ha'; congruence).
    apply (IH (suspend (call_id t) (awaiting t) s)); [|exact Hto].
    now apply Hnext.
Qed.

(** ** Observing the status along a run *)




(** ** Time passing *)

Lemma handle_elapse_none ms s :
  timers (loop s) = [] ->
  handle (Elapse ms) s = set_clock (clock (loop s) + ms) s.
Proof. intros Ht. cbn [handle set_clock with_loop loop timers]. now rewrite Ht. Qed.


Lemma handle_elapse_due ms s t :
  timers (loop s) = [t] -> due (clock (loop s) + ms) t = true ->
  handle (Elapse ms) s =
  timeout_callback (timer_promise t)
    (clearTimeout (timer_id t) (set_clock (clock (loop s) + ms) s)).
Proof.
  intros Ht Hd. cbn [handle set_clock with_loop loop timers]. rewrite Ht.
  cbn [length fire_due set_clock with_loop loop timers clock]. rewrite Ht.
  cbn [List.find]. now rewrite Hd.
Qed.

Lemma timeout_callback_hooks p s :
  hooks (timeout_callback p s)
  = hooks (setError (Some TIMEOUT_MESSAGE) (setSmartAccountStatus S_error s)).
Proof.
  unfold timeout_callback. rewrite clear_hooks.
  apply reject_promise_frame.
Qed.

Lemma timeout_callback_tasks p s :
  tasks (loop (timeout_callback p s)) = tasks (loop s).
Proof.
  unfold timeout_callback. rewrite clear_tasks.
  destruct (reject_promise_frame p (ErrorObj TIMEOUT_MESSAGE)
              (setError (Some TIMEOUT_MESSAGE) (setSmartAccountStatus S_error s)))
    as (_ & _ & _ & _ & E).
  exact E.
Qed.

Lemma timeout_callback_promises p s :
  promises (loop s) !! p = Some Pending ->
  promises (loop (timeout_callback p s))
  = <[p := Rejected (ErrorObj TIMEOUT_MESSAGE)]> (promises (loop s)).
Proof.
  intros Hp. unfold timeout_callback. rewrite clear_promises.
  unfold reject_promise. cbn [setError setSmartAccountStatus with_hooks loop].
  now rewrite Hp.
Qed.

Lemma autoInit_deps_same3 s s' :
  smartAccountClient (hooks s') = smartAccountClient (hooks s) ->
  smartAccountAddress (hooks s') = smartAccountAddress (hooks s) ->
  isLoading (hooks s') = isLoading (hooks s) ->
  autoInit_deps_changed s s' = false.
Proof.
  intros E1 E2 E3. unfold autoInit_deps_changed. rewrite E1, E2, E3.
  rewrite !bool_decide_eq_true_2 by reflexivity. reflexivity.
Qed.

Lemma shape_one s t :
  watcher_shape (core s) -> timers (loop s) = [t] ->
  refs s = refs_of t
  /\ timer_delay t = WALLET_READY_TIMEOUT
  /\ (timer_set_at t <= clock (loop s) < timer_deadline t)%N
  /\ promises (loop s) !! timer_promise t = Some Pending.
Proof.
  unfold core, watcher_shape.
  intros [[_ Ht]|(t' & Ht & Hr & Hd & Hc & Hp & _)] E; rewrite E in Ht.
  - discriminate.
  - injection Ht as <-. repeat split; try assumption; apply Hc.
Qed.



(** Time passes with no watcher: only the clock moves. *)
Lemma elapse_idle ms s :
  Inv s -> timers (loop s) = [] ->
  let s' := step (Elapse ms) s in
  hooks s' = hooks s /\ timers (loop s') = []
  /\ promises (loop s') = promises (loop s).
Proof.
  intros [Hs Hu] Ht s'.
  pose proof (handle_elapse_none ms s Ht) as Hh.
  destruct (step_quiet (Elapse ms) s eq_refl) as (H1 & H2 & _).
  - rewrite Hh. exact Hu.
  - now rewrite Hh.
  - subst s'. rewrite Hh in H2.
    destruct (core_eq _ _ H2) as (_ & E2 & _ & E4 & _).
    rewrite H1, E2, E4. cbn [set_clock with_loop loop timers clock promises].
    rewrite Ht. repeat split.
Qed.

(** Time passes and reaches the deadline of the watcher: its callback runs,
    and the calls parked on it resume in their [catch]. *)
Lemma elapse_late ms s t :
  Inv s -> timers (loop s) = [t] ->
  (timer_deadline t <= clock (loop s) + ms)%N ->
  let s' := step (Elapse ms) s in
  timed_out (hooks s') /\ timers (loop s') = []
  /\ promises (loop s') !! timer_promise t
     = Some (Rejected (ErrorObj TIMEOUT_MESSAGE)).
Proof.
  intros [Hs Hu] Ht Hle s'.
  destruct (shape_one s t Hs Ht) as (Hr & _ & _ & Hp).
  assert (Hd : due (clock (loop s) + ms) t = true)
    by (unfold due; apply N.leb_le; exact Hle).
  pose proof (handle_elapse_due ms s t Ht Hd) as Hh.
  set (h := handle (Elapse ms) s) in *.
  assert (Hhooks : hooks h = hooks (setError (Some TIMEOUT_MESSAGE)
                                      (setSmartAccountStatus S_error s)))
    by (rewrite Hh, timeout_callback_hooks; reflexivity).
  assert (Hprom : promises (loop h)
                  = <[timer_promise t := Rejected (ErrorObj TIMEOUT_MESSAGE)]>
                      (promises (loop s)))
    by (rewrite Hh, timeout_callback_promises; [reflexivity|exact Hp]).
  assert (Htasks : tasks (loop h) = tasks (loop s))
    by (rewrite Hh, timeout_callback_tasks; reflexivity).
  assert (Hshape : watcher_shape (core h))
    by (apply handle_shape; exact Hs).
  assert (Htim : timers (loop h) = []).
  { rewrite Hh. unfold timeout_callback. apply clear_timers_in_ref.
    intros t' Hin.
    destruct (reject_promise_frame (timer_promise t) (ErrorObj TIMEOUT_MESSAGE)
      (setError (Some TIMEOUT_MESSAGE) (setSmartAccountStatus S_error
         (clearTimeout (timer_id t) (set_clock (clock (loop s) + ms) s)))))
      as (_ & E & _).
    rewrite E in Hin. cbn in Hin. rewrite Ht in Hin. cbn in Hin.
    destruct (decide (timer_id t <> timer_id t)) as [Hne|_]; [congruence|].
    destruct Hin. }
  destruct (resume_all_timed_out (tasks (loop h)) (set_tasks [] h))
    as (H1 & H2 & H3 & H4).
  - intros t' Hin p ws Ha. unfold settled. cbn [set_tasks with_loop loop promises].
    rewrite Hprom. destruct (decide (p = timer_promise t)) as [->|Hne].
    + right. apply lookup_insert_eq.
    + left. rewrite lookup_insert_ne by congruence.
      rewrite Htasks in Hin. exact (Hu t' p ws Hin Ha).
  - cbn [set_tasks with_loop hooks]. rewrite Hhooks. split; reflexivity.
  - fold (run_microtasks h) in H1, H2, H3, H4.
    cbn [set_tasks with_loop hooks] in H2, H3, H4.
    rewrite Hhooks in H2, H3, H4. cbn in H2, H3, H4.
    subst s'. unfold step, step_batched. fold h.
    rewrite (autoInit_deps_same3 s (run_microtasks h) H2 H3 H4).
    pose proof (core_run_microtasks h) as Hc. unfold core in Hc.
    injection Hc as _ E2 _ E4 _ _.
    rewrite E2, E4, Htim, Hprom, lookup_insert_eq. repeat split; apply H1.
Qed.

Lemma run_cons e es s : run (e :: es) s = run es (step e s).
Proof. reflexivity. Qed.

(** ** The bookkeeping of calls *)

(** The parked calls, the call counter, the recorded outcomes and the number
    of constructions started. *)
Definition calls (s : State)
    : list Task * nat * list (nat * Result (option Handle)) * nat :=
  (tasks (loop s), next_call (loop s), returned (loop s), delegate_calls (loop s)).

Lemma calls_set_bootstrap_cleanup b s : calls (set_bootstrap_cleanup b s) = calls s.
Proof. reflexivity. Qed.

Lemma calls_setSmartAccountStatus v s : calls (setSmartAccountStatus v s) = calls s.
Proof. reflexivity. Qed.

Lemma calls_setError v s : calls (setError v s) = calls s.
Proof. reflexivity. Qed.

Lemma calls_with_auth a s : calls (with_auth a s) = calls s.
Proof. reflexivity. Qed.

Lemma calls_clear s : calls (clearWalletReadinessWatcher s) = calls s.
Proof.
  unfold clearWalletReadinessWatcher.
  destruct (timeoutIdRef (refs s)); reflexivity.
Qed.

Lemma calls_create s : calls (createWalletReadinessWatcher s) = calls s.
Proof.
  unfold createWalletReadinessWatcher, clearWalletReadinessWatcher.
  destruct (timeoutIdRef (refs s)); reflexivity.
Qed.

Lemma calls_resolve_promise p s : calls (resolve_promise p s) = calls s.
Proof. unfold resolve_promise. destruct (_ !! _) as [[]|]; reflexivity. Qed.

Lemma calls_reject_promise p e s : calls (reject_promise p e s) = calls s.
Proof. unfold reject_promise. destruct (_ !! _) as [[]|]; reflexivity. Qed.

Lemma calls_call_resolver s : calls (call_resolver s) = calls s.
Proof.
  unfold call_resolver. destruct (walletReadyResolveRef (refs s));
    [apply calls_resolve_promise|reflexivity].
Qed.

Lemma calls_timeout_callback p s : calls (timeout_callback p s) = calls s.
Proof.
  unfold timeout_callback. now rewrite calls_clear, calls_reject_promise.
Qed.

Lemma calls_fire_due fuel s : calls (fire_due fuel s) = calls s.
Proof.
  revert s. induction fuel as [|fuel IH]; intros s; [reflexivity|].
  cbn [fire_due]. destruct (List.find _ _); [|reflexivity].
  now rewrite IH, calls_timeout_callback.
Qed.

Lemma calls_bootstrapCleanup s : calls (bootstrapCleanup s) = calls s.
Proof.
  unfold bootstrapCleanup. destruct (bootstrap_cleanup (loop s));
    [apply calls_clear|reflexivity].
Qed.

Lemma calls_bootstrapEffect s : calls (bootstrapEffect s) = calls s.
Proof.
  unfold bootstrapEffect.
  destruct (negb (ready (auth s)) || negb (authenticated (auth s))).
  - now rewrite calls_set_bootstrap_cleanup, calls_setSmartAccountStatus, calls_clear.
  - destruct (hasPrivyWallet (wallets (auth s))).
    + now rewrite calls_set_bootstrap_cleanup, calls_clear, calls_call_resolver.
    + destruct (walletReadyPromiseRef (refs s)); [reflexivity|].
      now rewrite calls_set_bootstrap_cleanup, calls_create.
Qed.

Lemma calls_inv s s' :
  calls s' = calls s ->
  tasks (loop s') = tasks (loop s) /\ next_call (loop s') = next_call (loop s)
  /\ returned (loop s') = returned (loop s)
  /\ delegate_calls (loop s') = delegate_calls (loop s).
Proof. unfold calls. intros [= -> -> -> ->]. repeat split. Qed.

Lemma returned_of_calls s s' :
  calls s' = calls s -> returned (loop s') = returned (loop s).
Proof. unfold calls. now intros [= _ _ -> _]. Qed.

Lemma tasks_of_calls s s' :
  calls s' = calls s -> tasks (loop s') = tasks (loop s).
Proof. unfold calls. now intros [= -> _ _ _]. Qed.

(** *** No call ever completes abruptly *)

Definition is_normal {A : Type} (r : Result A) : bool :=
  match r with
  | Normal _ => true
  | Abrupt _ => false
  end.

Definition all_normal (s : State) : Prop :=
  Forall (fun x => is_normal (snd x) = true) (returned (loop s)).

Lemma all_normal_calls s s' : calls s' = calls s -> all_normal s -> all_normal s'.
Proof. intros E. unfold all_normal. now rewrite (returned_of_calls _ _ E). Qed.

Lemma all_normal_finish id v s :
  all_normal s -> all_normal (finish id (Normal v) s).
Proof.
  unfold all_normal, finish. cbn. intros H. apply Forall_app. split; [exact H|].
  constructor; [reflexivity|constructor].
Qed.

(** The [catch] of the construction turns every throw into a return. *)
Lemma init_try_normal body s :
  exists v, fst (try_catch_finally body init_catch init_finally s) = Normal v.
Proof.
  unfold try_catch_finally. destruct (body s) as [[v|e] s1]; cbn; eauto.
Qed.

Lemma returned_try body s :
  returned (loop (snd (body s))) = returned (loop s) ->
  returned (loop (snd (try_catch_finally body init_catch init_finally s)))
  = returned (loop s).
Proof.
  unfold try_catch_finally. destruct (body s) as [[v|e] s1]; cbn; auto.
Qed.

Lemma all_normal_init_begin id ws s :
  all_normal s -> all_normal (init_begin id ws s).
Proof.
  intros H. unfold init_begin. destruct (embeddedWallet ws); [exact H|].
  cbn. now apply all_normal_finish.
Qed.

Lemma init_construct_returned o s :
  returned (loop (snd (init_construct o s))) = returned (loop s).
Proof.
  unfold init_construct.
  destruct o as [e|[[|a l]|] [e|[c a']]]; try reflexivity.
  cbn. exact (returned_of_calls _ _ (calls_clear s)).
Qed.

Lemma all_normal_init_resume_delegate id o s :
  all_normal s -> all_normal (init_resume_delegate id o s).
Proof.
  intros H. unfold init_resume_delegate.
  destruct (init_try_normal (init_construct o) s) as [v Hv].
  pose proof (returned_try (init_construct o) s (init_construct_returned o s)) as Hr.
  destruct (try_catch_finally _ _ _ s) as [r s1]. cbn in Hv, Hr. subst r.
  apply all_normal_finish. unfold all_normal. now rewrite Hr.
Qed.

Lemma all_normal_initSmartAccount s :
  all_normal s -> all_normal (initSmartAccount s).
Proof.
  intros H. unfold initSmartAccount.
  assert (H0 : all_normal (set_next_call (S (next_call (loop s))) s)) by exact H.
  destruct (negb (authenticated (auth s)) || negb (user (auth s)));
    [now apply all_normal_finish|].
  destruct (smartAccountClient (hooks s)), (smartAccountAddress (hooks s));
    try (now apply all_normal_finish);
    cbn [refs set_next_call with_loop];
    (destruct (walletReadyPromiseRef (refs s));
     [exact H|now apply all_normal_init_begin]).
Qed.

Lemma all_normal_autoInitEffect s :
  all_normal s -> all_normal (autoInitEffect s).
Proof.
  intros H. unfold autoInitEffect.
  destruct (_ && _); [now apply all_normal_initSmartAccount|exact H].
Qed.

Lemma all_normal_resume_watcher t s :
  all_normal s -> all_normal (resume_watcher t s).
Proof.
  intros H. unfold resume_watcher. destruct (awaiting t); [|exact H].
  destruct (promises (loop s) !! p) as [[]|]; try exact H.
  - now apply all_normal_init_begin.
  - now apply all_normal_finish.
Qed.

Lemma all_normal_run_microtasks s :
  all_normal s -> all_normal (run_microtasks s).
Proof.
  intros H. unfold run_microtasks.
  assert (H0 : all_normal (set_tasks [] s)) by exact H.
  revert H0. generalize (set_tasks [] s). generalize (tasks (loop s)).
  intros ts. induction ts as [|t ts IH]; intros s0 H0; [exact H0|].
  cbn [fold_left]. apply IH. now apply all_normal_resume_watcher.
Qed.

Lemma all_normal_handle e s : all_normal s -> all_normal (handle e s).
Proof.
  revert s. induction e as [r a u ws| | |ms|id o|u|e IH]; intros s H; cbn [handle].
  - apply all_normal_autoInitEffect.
    apply (all_normal_calls s); [|exact H].
    now rewrite calls_bootstrapEffect, calls_bootstrapCleanup, calls_with_auth.
  - now apply all_normal_initSmartAccount.
  - unfold retryWalletCreation. destruct (hasPrivyWallet _);
      apply all_normal_initSmartAccount; apply (all_normal_calls s); try exact H.
    + now rewrite calls_clear, calls_call_resolver, calls_clear, calls_setError.
    + now rewrite calls_create, calls_clear, calls_setError.
  - apply (all_normal_calls s); [|exact H]. now rewrite calls_fire_due.
  - destruct (existsb _ _); [|exact H].
    now apply all_normal_init_resume_delegate.
  - apply all_normal_autoInitEffect.
    apply (all_normal_calls s); [|exact H]. now rewrite calls_with_auth.
  - now apply IH.
Qed.

Lemma all_normal_step e s : all_normal s -> all_normal (step e s).
Proof.
  intros H. apply (step_preserves all_normal).
  - now apply all_normal_handle.
  - apply all_normal_run_microtasks.
  - apply all_normal_autoInitEffect.
Qed.

Lemma all_normal_initial : all_normal initial.
Proof. constructor. Qed.

Lemma all_normal_run es s : all_normal s -> all_normal (run es s).
Proof.
  revert s. induction es as [|e es IH]; intros s H; [exact H|].
  rewrite run_cons. now apply IH, all_normal_step.
Qed.

(** ** C1: at most one watcher *)

(** C1.  After every sequence of authentication and wallet-list changes,
    calls of [initSmartAccount] and of [retryWalletCreation], elapsed time
    and settled constructions, at most one timer is armed, and it is the
    timer of the watcher that the three refs hold (with no timer armed the
    refs are empty).  Creating a watcher in such a state leaves exactly one
    armed timer, the new one: the previous timer has another identifier and
    has been cancelled, so its callback can no longer fire. *)
Theorem at_most_one_watcher_outstanding (es : list Event) :
  let s := run es initial in
  (length (timers (loop s)) <= 1)%nat
  /\ (forall t, In t (timers (loop s)) -> refs s = refs_of t)
  /\ (timers (loop s) = [] -> refs s = refs_none)
  /\ timers (loop (createWalletReadinessWatcher s)) = [new_timer s]
  /\ (forall t, In t (timers (loop s)) ->
        timer_id t <> timer_id (new_timer s)
        /\ ~ In t (timers (loop (createWalletReadinessWatcher s)))).
Proof.
  intros s. pose proof (Inv_run es initial Inv_initial) as [Hs _].
  fold s in Hs. pose proof (shape_timers_in_ref s Hs) as Hin.
  assert (Hc : timers (loop (createWalletReadinessWatcher s)) = [new_timer s]).
  { rewrite create_timers, (clear_timers_in_ref s Hin). reflexivity. }
  unfold core, watcher_shape in Hs.
  destruct Hs as [[Hr Ht]|(t & Ht & Hr & _ & _ & _ & Hid & _)].
  - rewrite Ht. split; [cbn; lia|]. split; [intros t []|].
    split; [intros _; exact Hr|]. split; [exact Hc|intros t []].
  - rewrite Ht. split; [cbn; lia|]. split; [|split; [discriminate|split; [exact Hc|]]].
    + intros t' [<-|[]]. exact Hr.
    + intros t' [<-|[]].
      assert (Hne : timer_id t <> timer_id (new_timer s))
        by (unfold new_timer; cbn [timer_id]; lia).
      split; [exact Hne|]. rewrite Hc. intros [E|[]]. apply Hne. now rewrite E.
Qed.

(** ** C2: the timeout *)



Definition no_wallets_session : list Event := [AuthChanged true true true []].


(** ** Sessions used as examples *)

Definition privy_wallet : Wallet :=
  {| walletClientType := "privy"; walletAddress := "0x1111" |}.

Definition external_wallet : Wallet :=
  {| walletClientType := "metamask"; walletAddress := "0x2222" |}.

Definition construction_ok : DelegateOutcome :=
  AccountsThen (Some ["0x1111"]) (inr (7, "0xbeef")).

(** The user logs in with an embedded wallet and the smart account is built. *)
Definition session_ready : list Event :=
  [AuthChanged true true true [privy_wallet]; DelegateSettles 0 construction_ok].

(** ... and then logs out. *)
Definition session_logged_out : list Event :=
  (session_ready ++ [AuthChanged true false false []])%list.

(** ** C3: the cached handle *)

Lemma initSmartAccount_cached s c a :
  authenticated (auth s) = true -> user (auth s) = true ->
  smartAccountClient (hooks s) = Some c ->
  smartAccountAddress (hooks s) = Some a ->
  initSmartAccount s
  = finish (next_call (loop s)) (Normal (Some (c, a)))
      (set_next_call (S (next_call (loop s))) s).
Proof.
  intros Ha Hu Hc Had. unfold initSmartAccount. now rewrite Ha, Hu, Hc, Had.
Qed.

(** C3, as the code has it.  In a state where the session is authenticated
    (with a user) and a client and an address are cached, [initSmartAccount]
    returns exactly that pair at once, without being parked; a second call
    returns the same pair; neither call starts a construction or changes the
    hooks, the refs, the timers or the promises. *)
Theorem cached_handle_fast_path (s : State) (c : SmartAccountClient) (a : Address) :
  authenticated (auth s) = true -> user (auth s) = true ->
  smartAccountClient (hooks s) = Some c ->
  smartAccountAddress (hooks s) = Some a ->
  let n := next_call (loop s) in
  let s1 := initSmartAccount s in
  let s2 := initSmartAccount s1 in
  returned (loop s1) = (returned (loop s) ++ [(n, Normal (Some (c, a)))])%list
  /\ returned (loop s2)
     = (returned (loop s)
        ++ [(n, Normal (Some (c, a))); (S n, Normal (Some (c, a)))])%list
  /\ hooks s2 = hooks s /\ core s2 = core s
  /\ tasks (loop s2) = tasks (loop s)
  /\ delegate_calls (loop s2) = delegate_calls (loop s).
Proof.
  intros Ha Hu Hc Had n s1 s2.
  assert (E1 : s1 = finish n (Normal (Some (c, a))) (set_next_call (S n) s))
    by (apply initSmartAccount_cached; assumption).
  assert (E2 : s2 = finish (S n) (Normal (Some (c, a))) (set_next_call (S (S n)) s1)).
  { subst s2. rewrite (initSmartAccount_cached s1 c a); rewrite E1; try assumption.
    reflexivity. }
  rewrite E2, E1. cbn. rewrite <- app_assoc. repeat split.
Qed.

Lemma cached_handle_fast_path_witness :
  let s := run session_ready initial in
  authenticated (auth s) = true /\ user (auth s) = true
  /\ smartAccountClient (hooks s) = Some 7
  /\ smartAccountAddress (hooks s) = Some "0xbeef"
  /\ returned (loop (initSmartAccount (initSmartAccount s)))
     = (returned (loop s)
        ++ [(next_call (loop s), Normal (Some (7, "0xbeef")));
            (S (next_call (loop s)), Normal (Some (7, "0xbeef")))])%list
  /\ delegate_calls (loop (initSmartAccount (initSmartAccount s)))
     = delegate_calls (loop s).
Proof.
  intros s.
  assert (Ha : authenticated (auth s) = true) by reflexivity.
  assert (Hu : user (auth s) = true) by reflexivity.
  assert (Hc : smartAccountClient (hooks s) = Some 7) by reflexivity.
  assert (Had : smartAccountAddress (hooks s) = Some "0xbeef") by reflexivity.
  destruct (cached_handle_fast_path s 7 "0xbeef" Ha Hu Hc Had)
    as (_ & H2 & _ & _ & _ & H6).
  repeat split; assumption.
Defined.

(** C3 as stated fails: after a logout the client and the address are still
    cached, and [initSmartAccount] returns null, not the cached pair. *)
Lemma cached_handle_not_returned_after_logout :
  let s := run session_logged_out initial in
  smartAccountClient (hooks s) = Some 7
  /\ smartAccountAddress (hooks s) = Some "0xbeef"
  /\ returned (loop (initSmartAccount s))
     = (returned (loop s) ++ [(next_call (loop s), Normal None)])%list.
Proof. vm_compute. repeat split. Qed.

(** ** C8: calls without a session *)

(** C8, as the code has it.  Without an authenticated session (or without a
    user) [initSmartAccount] returns null at once and changes neither the
    status nor the stored error nor anything else of the coordinator. *)
Theorem unauthenticated_call_returns_null (s : State) :
  authenticated (auth s) = false \/ user (auth s) = false ->
  let s' := initSmartAccount s in
  returned (loop s')
  = (returned (loop s) ++ [(next_call (loop s), Normal None)])%list
  /\ hooks s' = hooks s /\ core s' = core s
  /\ tasks (loop s') = tasks (loop s)
  /\ delegate_calls (loop s') = delegate_calls (loop s).
Proof.
  intros H s'. subst s'. unfold initSmartAccount.
  assert (E : negb (authenticated (auth s)) || negb (user (auth s)) = true)
    by (destruct H as [-> | ->]; [reflexivity|apply orb_true_r]).
  rewrite E. repeat split.
Qed.

Lemma unauthenticated_call_returns_null_witness :
  (authenticated (auth initial) = false \/ user (auth initial) = false)
  /\ returned (loop (initSmartAccount initial)) = [(0, Normal None)]
  /\ hooks (initSmartAccount initial) = hooks initial.
Proof.
  assert (H : authenticated (auth initial) = false \/ user (auth initial) = false)
    by (left; reflexivity).
  split; [exact H|].
  destruct (unauthenticated_call_returns_null initial H) as (H1 & H2 & _).
  split; [exact H1|exact H2].
Defined.

(** C8 as stated fails: a call made before any login completes with null,
    with no error stored and the status still [idle]. *)
Lemma not_authenticated_leaves_no_error :
  let s' := step CallInitSmartAccount initial in
  returned (loop s') = [(0, Normal None)]
  /\ error (hooks s') = None
  /\ smartAccountStatus (hooks s') = S_idle.
Proof. vm_compute. repeat split. Qed.

(** ** C4: failures of a call *)

(** The value thrown inside the construction, if any. *)
Definition construction_error (o : DelegateOutcome) : option Thrown :=
  match o with
  | ProviderThrows e => Some e
  | AccountsThen None _ | AccountsThen (Some []) _ =>
      Some (ErrorObj "No accounts found in wallet")
  | AccountsThen (Some (_ :: _)) (inl e) => Some e
  | AccountsThen (Some (_ :: _)) (inr _) => None
  end.

Lemma init_construct_error o e s :
  construction_error o = Some e -> init_construct o s = (Abrupt e, s).
Proof.
  destruct o as [e'|[[|a l]|] [e'|[c a']]]; cbn; intros [= <-]; reflexivity.
Qed.

(** C4, as the code has it.  No call of [initSmartAccount] ever completes
    with a throw: in every reachable state every recorded outcome is a
    returned value.  A rejected watcher and a failed construction both end in
    status [error] with a string message and the value null; a missing
    embedded wallet ends in status [waiting_for_wallet] with the stored error
    cleared (null, no message) and the value null. *)
Theorem failures_are_captured :
  (forall es id r, In (id, r) (returned (loop (run es initial))) ->
     exists v, r = Normal v)
  /\ (forall id e s,
        let s' := init_wait_rejected id e s in
        smartAccountStatus (hooks s') = S_error
        /\ error (hooks s') = Some (message_or e "Wallet creation timeout")
        /\ returned (loop s') = (returned (loop s) ++ [(id, Normal None)])%list)
  /\ (forall id ws s,
        embeddedWallet ws = None ->
        let s' := init_begin id ws s in
        smartAccountStatus (hooks s') = S_waiting_for_wallet
        /\ error (hooks s') = None
        /\ isLoading (hooks s') = false
        /\ returned (loop s') = (returned (loop s) ++ [(id, Normal None)])%list)
  /\ (forall id o e s,
        construction_error o = Some e ->
        let s' := init_resume_delegate id o s in
        smartAccountStatus (hooks s') = S_error
        /\ error (hooks s')
           = Some (message_or e "Failed to initialize smart account")
        /\ isLoading (hooks s') = false
        /\ returned (loop s') = (returned (loop s) ++ [(id, Normal None)])%list).
Proof.
  split; [|split; [|split]].
  - intros es id r Hin.
    pose proof (all_normal_run es initial all_normal_initial) as H.
    unfold all_normal in H. rewrite List.Forall_forall in H.
    specialize (H (id, r) Hin). cbn in H. destruct r as [v|e]; [eauto|discriminate].
  - intros id e s. repeat split.
  - intros id ws s Hw. unfold init_begin. rewrite Hw. repeat split.
  - intros id o e s Ho. unfold init_resume_delegate, try_catch_finally.
    rewrite (init_construct_error o e _ Ho). repeat split.
Qed.

Lemma failures_are_captured_witness :
  let s := run [AuthChanged true true true [privy_wallet];
                DelegateSettles 0 (ProviderThrows NonError)] initial in
  In (0, Normal None) (returned (loop s))
  /\ embeddedWallet [external_wallet] = None
  /\ error (hooks (init_begin 0 [external_wallet] initial)) = None
  /\ construction_error (ProviderThrows NonError) = Some NonError
  /\ error (hooks (init_resume_delegate 0 (ProviderThrows NonError) initial))
     = Some "Failed to initialize smart account".
Proof.
  intros s. destruct failures_are_captured as (H1 & _ & H3 & H4).
  assert (Hin : In (0, @Normal (option Handle) None) (returned (loop s)))
    by (left; reflexivity).
  assert (Hw : embeddedWallet [external_wallet] = None) by reflexivity.
  assert (Ho : construction_error (ProviderThrows NonError) = Some NonError)
    by reflexivity.
  destruct (H1 _ _ _ Hin) as [v Hv].
  destruct (H3 0 [external_wallet] initial Hw) as (_ & E3 & _).
  destruct (H4 0 _ _ initial Ho) as (_ & E4 & _).
  repeat split; assumption.
Defined.

(** C4 as stated fails for the missing wallet: the call made after a timeout,
    with still no embedded wallet, ends in [waiting_for_wallet] with no
    message stored. *)
Lemma missing_wallet_stores_no_message :
  let s := run [AuthChanged true true true []; Elapse 25000;
                CallInitSmartAccount] initial in
  smartAccountStatus (hooks s) = S_waiting_for_wallet
  /\ error (hooks s) = None
  /\ returned (loop s) = [(0, Normal None)].
Proof. vm_compute. repeat split. Qed.

(** ** C5: loss of authentication *)

Lemma tasks_unsettled_same s s' :
  tasks (loop s') = tasks (loop s) -> promises (loop s') = promises (loop s) ->
  tasks_unsettled s -> tasks_unsettled s'.
Proof.
  intros Et Ep H t p ws Hin Ha. unfold settled. rewrite Ep.
  rewrite Et in Hin. exact (H t p ws Hin Ha).
Qed.

Lemma step_parked e s :
  flushed e = false ->
  tasks_unsettled (handle e s) ->
  autoInit_deps_changed s (handle e s) = false ->
  hooks (step e s) = hooks (handle e s) /\ core (step e s) = core (handle e s)
  /\ calls (step e s) = calls (run_microtasks (handle e s)).
Proof.
  intros Hf Hu Hd. rewrite (step_plain e s Hf). unfold step_batched.
  destruct (run_microtasks_parked _ Hu) as (H1 & _).
  assert (E : autoInit_deps_changed s (run_microtasks (handle e s)) = false)
    by (unfold autoInit_deps_changed in *; now rewrite H1).
  rewrite E, H1, core_run_microtasks. repeat split.
Qed.

Lemma bootstrapCleanup_frame s :
  auth (bootstrapCleanup s) = auth s /\ hooks (bootstrapCleanup s) = hooks s
  /\ promises (loop (bootstrapCleanup s)) = promises (loop s).
Proof.
  unfold bootstrapCleanup. destruct (bootstrap_cleanup (loop s)).
  - now rewrite clear_auth, clear_hooks, clear_promises.
  - repeat split.
Qed.

Lemma handle_auth_lost r a u ws s :
  negb r || negb a = true ->
  handle (AuthChanged r a u ws) s
  = set_bootstrap_cleanup false
      (setSmartAccountStatus S_idle
         (clearWalletReadinessWatcher
            (bootstrapCleanup
               (with_auth {| ready := r; authenticated := a; user := u;
                             wallets := ws |} s)))).
Proof.
  intros H. cbn [handle].
  set (s1 := bootstrapCleanup _).
  assert (Ea : auth s1 = {| ready := r; authenticated := a; user := u; wallets := ws |})
    by (subst s1; now destruct (bootstrapCleanup_frame
          (with_auth {| ready := r; authenticated := a; user := u; wallets := ws |} s))).
  unfold bootstrapEffect. rewrite Ea. cbn [ready authenticated]. rewrite H.
  unfold autoInitEffect.
  cbn [auth set_bootstrap_cleanup with_loop setSmartAccountStatus with_hooks].
  rewrite clear_auth, Ea. cbn [ready authenticated].
  replace (r && a) with false by (destruct r, a; cbn in *; congruence).
  reflexivity.
Qed.

(** C5, as the code has it.  When authentication (or readiness) is lost the
    watcher is cleared (no refs, no armed timer) and the status becomes
    [idle]; the cached client and address are left as they were. *)
Theorem auth_loss_clears_watcher_keeps_handle
    (s : State) (r a u : bool) (ws : list Wallet) :
  Inv s -> negb r || negb a = true ->
  let s' := step (AuthChanged r a u ws) s in
  smartAccountStatus (hooks s') = S_idle
  /\ refs s' = refs_none /\ timers (loop s') = []
  /\ smartAccountClient (hooks s') = smartAccountClient (hooks s)
  /\ smartAccountAddress (hooks s') = smartAccountAddress (hooks s).
Proof.
  intros [Hs Hu] H s'. pose proof (handle_auth_lost r a u ws s H) as Hh.
  set (s0 := with_auth {| ready := r; authenticated := a; user := u; wallets := ws |} s)
    in *.
  destruct (bootstrapCleanup_frame s0) as (_ & Hhk & Hpr).
  assert (Hhooks : hooks (handle (AuthChanged r a u ws) s)
                   = hooks (setSmartAccountStatus S_idle s)).
  { rewrite Hh. cbn [set_bootstrap_cleanup setSmartAccountStatus with_loop with_hooks hooks].
    now rewrite clear_hooks, Hhk. }
  destruct (step_parked (AuthChanged r a u ws) s eq_refl) as (H1 & H2 & _).
  - apply (tasks_unsettled_same s); [| |exact Hu]; rewrite Hh.
    + apply tasks_of_calls.
      change (calls (clearWalletReadinessWatcher (bootstrapCleanup s0)) = calls s).
      now rewrite calls_clear, calls_bootstrapCleanup.
    + cbn [set_bootstrap_cleanup setSmartAccountStatus with_loop with_hooks loop promises].
      now rewrite clear_promises, Hpr.
  - apply autoInit_deps_same3; now rewrite Hhooks.
  - subst s'. rewrite H1, Hhooks.
    assert (Hshape : watcher_shape (core (bootstrapCleanup s0)))
      by (apply bootstrapCleanup_shape; exact Hs).
    pose proof (shape_timers_in_ref _ Hshape) as Hin.
    pose proof (f_equal (fun c : Core => c.1.1.1.1.1) H2) as E1.
    pose proof (f_equal (fun c : Core => c.1.1.1.1.2) H2) as E2.
    cbn [core fst snd] in E1, E2. rewrite E1, E2, Hh.
    change (refs (set_bootstrap_cleanup false (setSmartAccountStatus S_idle
              (clearWalletReadinessWatcher (bootstrapCleanup s0)))))
      with (refs (clearWalletReadinessWatcher (bootstrapCleanup s0))).
    change (timers (loop (set_bootstrap_cleanup false (setSmartAccountStatus S_idle
              (clearWalletReadinessWatcher (bootstrapCleanup s0))))))
      with (timers (loop (clearWalletReadinessWatcher (bootstrapCleanup s0)))).
    rewrite clear_refs, (clear_timers_in_ref _ Hin). repeat split.
Qed.

Lemma auth_loss_clears_watcher_keeps_handle_witness :
  let s := run session_ready initial in
  let s' := step (AuthChanged true false false []) s in
  Inv s /\ negb true || negb false = true
  /\ smartAccountStatus (hooks s') = S_idle
  /\ smartAccountClient (hooks s') = smartAccountClient (hooks s).
Proof.
  intros s s'.
  assert (HI : Inv s) by apply Inv_run, Inv_initial.
  assert (H : negb true || negb false = true) by reflexivity.
  destruct (auth_loss_clears_watcher_keeps_handle s true false false [] HI H)
    as (H1 & _ & _ & H4 & _).
  repeat split; try assumption; apply HI.
Defined.

(** C5 as stated fails: after a logout the cached client and address are
    still there. *)
Lemma handle_survives_logout :
  let s := run session_logged_out initial in
  smartAccountStatus (hooks s) = S_idle
  /\ smartAccountClient (hooks s) = Some 7
  /\ smartAccountAddress (hooks s) = Some "0xbeef".
Proof. vm_compute. repeat split. Qed.

(** ** C6: how the embedded wallet is found *)

Lemma isPrivyWallet_spec w :
  isPrivyWallet w = true <-> walletClientType w = "privy".
Proof. unfold isPrivyWallet. apply String.eqb_eq. Qed.

Lemma embeddedWallet_Some ws w :
  embeddedWallet ws = Some w -> In w ws /\ walletClientType w = "privy".
Proof.
  intros H. apply find_some in H. destruct H as [Hin Hp].
  split; [exact Hin|now apply isPrivyWallet_spec].
Qed.

Lemma embeddedWallet_None ws :
  embeddedWallet ws = None <->
  ~ exists w, In w ws /\ walletClientType w = "privy".
Proof.
  split.
  - intros H (w & Hin & Hw). pose proof (find_none _ _ H w Hin) as Hf.
    apply isPrivyWallet_spec in Hw. congruence.
  - intros H. destruct (embeddedWallet ws) as [w|] eqn:E; [|reflexivity].
    exfalso. apply H. exists w. now apply embeddedWallet_Some.
Qed.

Lemma hasPrivyWallet_spec ws :
  hasPrivyWallet ws = true <-> exists w, In w ws /\ walletClientType w = "privy".
Proof.
  unfold hasPrivyWallet. rewrite existsb_exists.
  split; intros (w & Hin & Hw); exists w; (split; [exact Hin|]);
    now apply isPrivyWallet_spec.
Qed.

Lemma hasPrivyWallet_embedded ws :
  hasPrivyWallet ws = true ->
  exists w, embeddedWallet ws = Some w /\ walletClientType w = "privy".
Proof.
  intros H. destruct (embeddedWallet ws) as [w|] eqn:E.
  - exists w. split; [reflexivity|]. now apply embeddedWallet_Some in E.
  - apply embeddedWallet_None in E. apply hasPrivyWallet_spec in H. contradiction.
Qed.

Lemma retry_promise_ref s :
  walletReadyPromiseRef (refs (retryWalletCreation s))
  = if hasPrivyWallet (wallets (auth s)) then None
    else Some (next_promise (loop s)).
Proof.
  unfold retryWalletCreation.
  destruct (hasPrivyWallet (wallets (auth s))).
  - destruct (core_eq _ _ (core_initSmartAccount
      (clearWalletReadinessWatcher (call_resolver
         (clearWalletReadinessWatcher (setError None s)))))) as [E _].
    rewrite E, clear_refs. reflexivity.
  - destruct (core_eq _ _ (core_initSmartAccount
      (createWalletReadinessWatcher
         (clearWalletReadinessWatcher (setError None s))))) as [E _].
    rewrite E, create_refs. unfold refs_of, new_timer.
    cbn [walletReadyPromiseRef timer_promise].
    destruct (clear_counters (setError None s)) as [_ E2]. now rewrite E2.
Qed.

Lemma bootstrapEffect_promise_ref s :
  ready (auth s) = true -> authenticated (auth s) = true ->
  walletReadyPromiseRef (refs (bootstrapEffect s))
  = if hasPrivyWallet (wallets (auth s)) then None
    else match walletReadyPromiseRef (refs s) with
         | Some p => Some p
         | None => Some (next_promise (loop s))
         end.
Proof.
  intros Hr Ha. unfold bootstrapEffect. rewrite Hr, Ha. cbn [negb orb].
  destruct (hasPrivyWallet (wallets (auth s))).
  - now rewrite refs_set_bootstrap_cleanup, clear_refs.
  - destruct (walletReadyPromiseRef (refs s)) as [p|] eqn:E.
    + rewrite refs_set_bootstrap_cleanup. exact E.
    + rewrite refs_set_bootstrap_cleanup, create_refs. reflexivity.
Qed.

(** C6, as the code has it.  In all three places the embedded wallet is the
    one whose [walletClientType] is ["privy"]: [initSmartAccount] goes on to
    [initializing] exactly when the wallet list has such a wallet, and hands
    such a wallet to the construction; [retryWalletCreation] creates no
    watcher exactly when there is one; the bootstrap effect of a ready,
    authenticated session ends with no watcher exactly when there is one. *)
Theorem embedded_wallet_is_privy_typed :
  (forall id ws s,
     (smartAccountStatus (hooks (init_begin id ws s)) = S_initializing
      <-> exists w, In w ws /\ walletClientType w = "privy")
     /\ (forall w, In {| call_id := id; awaiting := AwaitDelegate w |}
                      (tasks (loop (init_begin id ws s))) ->
                   ~ In {| call_id := id; awaiting := AwaitDelegate w |}
                      (tasks (loop s)) ->
                   In w ws /\ walletClientType w = "privy"))
  /\ (forall s,
        walletReadyPromiseRef (refs (retryWalletCreation s)) = None
        <-> exists w, In w (wallets (auth s)) /\ walletClientType w = "privy")
  /\ (forall s,
        ready (auth s) = true -> authenticated (auth s) = true ->
        (walletReadyPromiseRef (refs (bootstrapEffect s)) = None
         <-> exists w, In w (wallets (auth s)) /\ walletClientType w = "privy")).
Proof.
  split; [|split].
  - intros id ws s. unfold init_begin.
    destruct (embeddedWallet ws) as [w|] eqn:E.
    + pose proof (embeddedWallet_Some ws w E) as Hw. split.
      * split; [intros _; now exists w|reflexivity].
      * intros w' Hin Hnot. cbn in Hin. apply in_app_or in Hin.
        destruct Hin as [Hin|[[= <-]|[]]]; [contradiction|exact Hw].
    + split.
      * split; [discriminate|]. intros H. apply embeddedWallet_None in E.
        contradiction.
      * intros w' Hin Hnot. cbn in Hin. contradiction.
  - intros s. rewrite retry_promise_ref, <- hasPrivyWallet_spec.
    destruct (hasPrivyWallet (wallets (auth s))); split; congruence.
  - intros s Hr Ha. rewrite (bootstrapEffect_promise_ref s Hr Ha), <- hasPrivyWallet_spec.
    destruct (hasPrivyWallet (wallets (auth s))); [split; congruence|].
    destruct (walletReadyPromiseRef (refs s)); split; congruence.
Qed.

Lemma embedded_wallet_is_privy_typed_witness :
  let ws := [external_wallet; privy_wallet] in
  let s := with_auth {| ready := true; authenticated := true; user := true;
                        wallets := ws |} initial in
  ready (auth s) = true /\ authenticated (auth s) = true
  /\ (exists w, In w ws /\ walletClientType w = "privy")
  /\ walletReadyPromiseRef (refs (bootstrapEffect s)) = None
  /\ walletReadyPromiseRef (refs (retryWalletCreation s)) = None
  /\ smartAccountStatus (hooks (init_begin 5 ws s)) = S_initializing.
Proof.
  intros ws s. destruct embedded_wallet_is_privy_typed as (H1 & H2 & H3).
  assert (Hr : ready (auth s) = true) by reflexivity.
  assert (Ha : authenticated (auth s) = true) by reflexivity.
  assert (Hw : exists w, In w ws /\ walletClientType w = "privy")
    by (exists privy_wallet; split; [right; left; reflexivity|reflexivity]).
  destruct (H1 5 ws s) as [[_ G1] _].
  destruct (H2 s) as [_ G2].
  destruct (H3 s Hr Ha) as [_ G3].
  split; [exact Hr|]. split; [exact Ha|]. split; [exact Hw|].
  split; [exact (G3 Hw)|]. split; [exact (G2 Hw)|exact (G1 Hw)].
Defined.

(** C6 as stated fails: a wallet whose [walletClientType] is ["embedded"] is
    not selected anywhere; with only such a wallet the session waits for a
    wallet and times out. *)
Lemma embedded_typed_wallet_is_not_selected :
  let w := {| walletClientType := "embedded"; walletAddress := "0x3333" |} in
  let s := run [AuthChanged true true true [w]] initial in
  embeddedWallet [w] = None /\ hasPrivyWallet [w] = false
  /\ smartAccountStatus (hooks s) = S_waiting_for_wallet
  /\ walletReadyPromiseRef (refs (retryWalletCreation s)) = Some 2%positive
  /\ smartAccountStatus (hooks (step (Elapse 25000) s)) = S_error.
Proof. vm_compute. repeat split. Qed.

(** ** C7: retry *)

Lemma core_clear s :
  timers_in_ref s ->
  core (clearWalletReadinessWatcher s)
  = (refs_none, [], clock (loop s), promises (loop s),
     next_timer (loop s), next_promise (loop s)).
Proof.
  intros H. unfold core. destruct (clear_counters s) as [E1 E2].
  now rewrite clear_refs, (clear_timers_in_ref s H), clear_clock, clear_promises, E1, E2.
Qed.

Lemma call_resolver_none s :
  walletReadyResolveRef (refs s) = None -> call_resolver s = s.
Proof. intros H. unfold call_resolver. now rewrite H. Qed.

Lemma create_frame s :
  auth (createWalletReadinessWatcher s) = auth s
  /\ hooks (createWalletReadinessWatcher s)
     = hooks (setSmartAccountStatus S_waiting_for_wallet s).
Proof.
  unfold createWalletReadinessWatcher, clearWalletReadinessWatcher.
  destruct (timeoutIdRef (refs s)); split; reflexivity.
Qed.

Definition no_handle (s : State) : Prop :=
  smartAccountClient (hooks s) = None \/ smartAccountAddress (hooks s) = None.

Lemma initSmartAccount_no_watcher s :
  authenticated (auth s) = true -> user (auth s) = true -> no_handle s ->
  walletReadyPromiseRef (refs s) = None ->
  initSmartAccount s
  = init_begin (next_call (loop s)) (wallets (auth s))
      (set_next_call (S (next_call (loop s))) s).
Proof.
  intros Ha Hu Hn Hp. unfold initSmartAccount. rewrite Ha, Hu.
  cbn [negb orb refs set_next_call with_loop]. rewrite Hp.
  destruct Hn as [-> | ->]; [reflexivity|].
  destruct (smartAccountClient (hooks s)); reflexivity.
Qed.

Lemma initSmartAccount_watcher s p :
  authenticated (auth s) = true -> user (auth s) = true -> no_handle s ->
  walletReadyPromiseRef (refs s) = Some p ->
  initSmartAccount s
  = suspend (next_call (loop s)) (AwaitWatcher p (wallets (auth s)))
      (setSmartAccountStatus S_waiting_for_wallet
         (set_next_call (S (next_call (loop s))) s)).
Proof.
  intros Ha Hu Hn Hp. unfold initSmartAccount. rewrite Ha, Hu.
  cbn [negb orb refs set_next_call with_loop]. rewrite Hp.
  destruct Hn as [-> | ->]; [reflexivity|].
  destruct (smartAccountClient (hooks s)); reflexivity.
Qed.

Lemma tasks_set_next_call v s :
  tasks (loop (set_next_call v s)) = tasks (loop s).
Proof. reflexivity. Qed.

Lemma tasks_setSmartAccountStatus v s :
  tasks (loop (setSmartAccountStatus v s)) = tasks (loop s).
Proof. reflexivity. Qed.

Lemma tasks_suspend id k s :
  tasks (loop (suspend id k s))
  = (tasks (loop s) ++ [{| call_id := id; awaiting := k |}])%list.
Proof. reflexivity. Qed.

Lemma init_begin_found id ws s w :
  embeddedWallet ws = Some w ->
  smartAccountStatus (hooks (init_begin id ws s)) = S_initializing
  /\ tasks (loop (init_begin id ws s))
     = (tasks (loop s) ++ [{| call_id := id; awaiting := AwaitDelegate w |}])%list.
Proof. intros E. unfold init_begin. rewrite E. split; reflexivity. Qed.

Lemma init_begin_bookkeeping id ws s :
  error (hooks (init_begin id ws s)) = None
  /\ next_call (loop (init_begin id ws s)) = next_call (loop s).
Proof. unfold init_begin. destruct (embeddedWallet ws); split; reflexivity. Qed.

Lemma initSmartAccount_bookkeeping s :
  next_call (loop (initSmartAccount s)) = S (next_call (loop s))
  /\ (error (hooks s) = None -> error (hooks (initSmartAccount s)) = None).
Proof.
  unfold initSmartAccount.
  destruct (negb (authenticated (auth s)) || negb (user (auth s)));
    [split; [reflexivity|auto]|].
  assert (G : forall x : State,
    x = match walletReadyPromiseRef (refs (set_next_call (S (next_call (loop s))) s)) with
        | Some p =>
            suspend (next_call (loop s)) (AwaitWatcher p (wallets (auth s)))
              (setSmartAccountStatus S_waiting_for_wallet
                 (set_next_call (S (next_call (loop s))) s))
        | None => init_begin (next_call (loop s)) (wallets (auth s))
                    (set_next_call (S (next_call (loop s))) s)
        end ->
    next_call (loop x) = S (next_call (loop s))
    /\ (error (hooks s) = None -> error (hooks x) = None)).
  { intros x ->. cbn [refs set_next_call with_loop].
    destruct (walletReadyPromiseRef (refs s)); [split; [reflexivity|auto]|].
    destruct (init_begin_bookkeeping (next_call (loop s)) (wallets (auth s))
                (set_next_call (S (next_call (loop s))) s)) as [E1 E2].
    rewrite E1, E2. split; [reflexivity|auto]. }
  destruct (smartAccountClient (hooks s)), (smartAccountAddress (hooks s));
    try (apply G; reflexivity).
  split; [reflexivity|auto].
Qed.

(** C7, as the code has it.  [retryWalletCreation] clears the stored error
    and cancels the existing watcher, and makes one call of
    [initSmartAccount].  With a privy wallet in the list no watcher is
    created, so the call, when the session is authenticated and no handle is
    cached, goes straight to [initializing] and starts the construction.
    Otherwise a fresh watcher is created and the call, under the same
    conditions, is parked on it with status [waiting_for_wallet]. *)
Theorem retry_restarts_bootstrap (s : State) :
  Inv s ->
  let s' := retryWalletCreation s in
  let n := next_call (loop s) in
  error (hooks s') = None
  /\ next_call (loop s') = S n
  /\ (forall t, In t (timers (loop s)) -> ~ In t (timers (loop s')))
  /\ if hasPrivyWallet (wallets (auth s)) then
       refs s' = refs_none /\ timers (loop s') = []
       /\ next_promise (loop s') = next_promise (loop s)
       /\ (authenticated (auth s) = true -> user (auth s) = true -> no_handle s ->
           smartAccountStatus (hooks s') = S_initializing
           /\ exists w, walletClientType w = "privy"
                /\ tasks (loop s')
                   = (tasks (loop s)
                      ++ [{| call_id := n; awaiting := AwaitDelegate w |}])%list)
     else
       refs s' = refs_of (new_timer s) /\ timers (loop s') = [new_timer s]
       /\ promises (loop s') !! next_promise (loop s) = Some Pending
       /\ (authenticated (auth s) = true -> user (auth s) = true -> no_handle s ->
           smartAccountStatus (hooks s') = S_waiting_for_wallet
           /\ tasks (loop s')
              = (tasks (loop s)
                 ++ [{| call_id := n;
                        awaiting := AwaitWatcher (next_promise (loop s))
                                      (wallets (auth s)) |}])%list).
Proof.
  intros [Hs _] s' n. subst s' n. unfold retryWalletCreation.
  set (x1 := setError None s).
  assert (Hin1 : timers_in_ref x1)
    by (apply (timers_in_ref_eq s); [reflexivity..|now apply shape_timers_in_ref]).
  set (x2 := clearWalletReadinessWatcher x1).
  assert (Hc2 : core x2 = (refs_none, [], clock (loop s), promises (loop s),
                           next_timer (loop s), next_promise (loop s)))
    by (subst x2; now rewrite core_clear).
  destruct (core_inv _ _ _ _ _ _ _ Hc2) as (Hr2 & Ht2 & Hcl2 & Hp2 & Hnt2 & Hnp2).
  assert (Hin2 : timers_in_ref x2) by (intros t Ht; rewrite Ht2 in Ht; destruct Ht).
  assert (Ha2 : auth x2 = auth s) by (subst x2; now rewrite clear_auth).
  assert (Hh2 : hooks x2 = hooks x1) by (subst x2; now rewrite clear_hooks).
  assert (Hk2 : calls x2 = calls s) by (subst x2; now rewrite calls_clear).
  assert (He2 : error (hooks x2) = None) by (rewrite Hh2; reflexivity).
  assert (Hno : no_handle s -> no_handle x2) by (unfold no_handle; now rewrite Hh2).
  destruct (hasPrivyWallet (wallets (auth s))) eqn:Hw.
  - rewrite (call_resolver_none x2) by (now rewrite Hr2).
    set (x4 := clearWalletReadinessWatcher x2).
    assert (Hc4 : core x4 = (refs_none, [], clock (loop s), promises (loop s),
                             next_timer (loop s), next_promise (loop s)))
      by (subst x4; rewrite core_clear by exact Hin2;
          now rewrite Hcl2, Hp2, Hnt2, Hnp2).
    assert (Hk4 : calls x4 = calls s)
      by (subst x4; now rewrite calls_clear).
    destruct (calls_inv _ _ Hk4) as (Ht4 & Hn4 & _).
    assert (Hh4 : hooks x4 = hooks x1) by (subst x4; now rewrite clear_hooks).
    assert (Ha4 : auth x4 = auth s) by (subst x4; now rewrite clear_auth).
    assert (Hr4 : walletReadyPromiseRef (refs x4) = None)
      by (subst x4; now rewrite clear_refs).
    destruct (initSmartAccount_bookkeeping x4) as [B1 B2].
    pose proof (core_initSmartAccount x4) as Hci. rewrite Hc4 in Hci.
    destruct (core_inv _ _ _ _ _ _ _ Hci) as (Hri & Hti & _ & _ & _ & Hnpi).
    split; [apply B2; now rewrite Hh4|]. split; [now rewrite B1, Hn4|].
    rewrite Hti. split; [intros t _ []|].
    split; [exact Hri|]. split; [reflexivity|]. split; [exact Hnpi|].
    intros Ha Hu Hn.
    destruct (hasPrivyWallet_embedded _ Hw) as (w & Hew & Hty).
    rewrite initSmartAccount_no_watcher;
      [|now rewrite Ha4|now rewrite Ha4|unfold no_handle; now rewrite Hh4|exact Hr4].
    rewrite Ha4, Hn4.
    destruct (init_begin_found (next_call (loop s)) (wallets (auth s))
                (set_next_call (S (next_call (loop s))) x4) w Hew) as [G1 G2].
    split; [exact G1|]. exists w. split; [exact Hty|].
    now rewrite G2, tasks_set_next_call, Ht4.
  - set (x3 := createWalletReadinessWatcher x2).
    assert (Hnt : new_timer x2 = new_timer s)
      by (unfold new_timer; now rewrite Hcl2, Hnt2, Hnp2).
    assert (Hc3 : core x3 = (refs_of (new_timer s), [new_timer s], clock (loop s),
                             <[next_promise (loop s) := Pending]> (promises (loop s)),
                             Pos.succ (next_timer (loop s)),
                             Pos.succ (next_promise (loop s))))
      by (subst x3; rewrite create_core, Hnt, (clear_timers_in_ref x2 Hin2);
          now rewrite Hcl2, Hp2, Hnt2, Hnp2).
    destruct (core_inv _ _ _ _ _ _ _ Hc3) as (Hr3 & _).
    assert (Hk3 : calls x3 = calls s)
      by (subst x3; now rewrite calls_create).
    destruct (calls_inv _ _ Hk3) as (Ht3 & Hn3 & _).
    destruct (create_frame x2) as [Ha3 Hh3]. fold x3 in Ha3, Hh3.
    destruct (initSmartAccount_bookkeeping x3) as [B1 B2].
    pose proof (core_initSmartAccount x3) as Hci. rewrite Hc3 in Hci.
    destruct (core_inv _ _ _ _ _ _ _ Hci) as (Hri & Hti & _ & Hpi & _ & _).
    split; [apply B2; rewrite Hh3; exact He2|]. split; [now rewrite B1, Hn3|].
    rewrite Hti. split.
    { intros t Ht [<-|[]].
      assert (Hlt : (timer_id (new_timer s) < next_timer (loop s))%positive).
      { unfold core, watcher_shape in Hs.
        destruct Hs as [[_ E]|(t' & E & _ & _ & _ & _ & Hid & _)];
          rewrite E in Ht; [destruct Ht|].
        destruct Ht as [<-|[]]. exact Hid. }
      unfold new_timer in Hlt. cbn [timer_id] in Hlt. lia. }
    split; [exact Hri|]. split; [reflexivity|].
    split; [rewrite Hpi; apply lookup_insert_eq|].
    intros Ha Hu Hn.
    rewrite (initSmartAccount_watcher x3 (next_promise (loop s)));
      [|now rewrite Ha3, Ha2|now rewrite Ha3, Ha2
       |unfold no_handle; rewrite Hh3; apply Hno, Hn
       |now rewrite Hr3].
    rewrite Ha3, Ha2, Hn3. split; [reflexivity|].
    now rewrite tasks_suspend, tasks_setSmartAccountStatus, tasks_set_next_call, Ht3.
Qed.

(** The user logs in without a wallet, the watcher times out, and the
    embedded wallet of an external-only session never appears. *)
Definition session_timed_out : list Event :=
  [AuthChanged true true true [external_wallet]; Elapse 25000].

Lemma retry_restarts_bootstrap_witness :
  let s := run session_timed_out initial in
  let s' := retryWalletCreation s in
  Inv s
  /\ hasPrivyWallet (wallets (auth s)) = false
  /\ error (hooks s) = Some TIMEOUT_MESSAGE
  /\ error (hooks s') = None
  /\ timers (loop s') = [new_timer s]
  /\ smartAccountStatus (hooks s') = S_waiting_for_wallet.
Proof.
  intros s s'.
  assert (HI : Inv s) by apply Inv_run, Inv_initial.
  pose proof (retry_restarts_bootstrap s HI) as (H1 & _ & _ & H4).
  change (hasPrivyWallet (wallets (auth s))) with false in H4.
  destruct H4 as (_ & H5 & _ & H7).
  assert (Ha : authenticated (auth s) = true) by reflexivity.
  assert (Hu : user (auth s) = true) by reflexivity.
  assert (Hn : no_handle s) by (left; reflexivity).
  destruct (H7 Ha Hu Hn) as [H8 _].
  split; [exact HI|]. split; [reflexivity|]. split; [reflexivity|].
  split; [exact H1|]. split; [exact H5|exact H8].
Defined.

(** The session of [session_logged_out] continues: the user logs in again
    without a wallet, the watcher times out, then the embedded wallet
    appears. *)
Definition session_relogin_timed_out : list Event :=
  (session_logged_out
   ++ [AuthChanged true true true []; Elapse 25000;
       AuthChanged true true true [privy_wallet]])%list.

(** C7 as stated fails: here a retry after a timeout, with the wallet
    present, returns the handle cached in the earlier session and leaves the
    status at [error]; it does not go to [initializing]. *)
Lemma retry_with_cached_handle_stays_in_error :
  let s := run session_relogin_timed_out initial in
  let s' := step CallRetryWalletCreation s in
  authenticated (auth s) = true
  /\ hasPrivyWallet (wallets (auth s)) = true
  /\ smartAccountStatus (hooks s) = S_error
  /\ error (hooks s) = Some TIMEOUT_MESSAGE
  /\ smartAccountStatus (hooks s') = S_error
  /\ error (hooks s') = None
  /\ delegate_calls (loop s') = delegate_calls (loop s).
Proof. vm_compute. repeat split. Qed.

(** ** C9: a call parked on a discarded watcher *)

Section Orphan.

(** The promise of a watcher that has been discarded. *)
Variable p : positive.

(** [p] is pending, it is not the promise of the current watcher, and no
    armed timer rejects it: nothing holds its [resolve] or [reject] any more. *)
Definition orphaned (s : State) : Prop :=
  promises (loop s) !! p = Some Pending
  /\ (p < next_promise (loop s))%positive
  /\ walletReadyResolveRef (refs s) <> Some p
  /\ forall t, In t (timers (loop s)) -> timer_promise t <> p.

Lemma orphaned_core s s' : core s' = core s -> orphaned s -> orphaned s'.
Proof.
  intros E. destruct (core_eq _ _ E) as (Hr & Ht & _ & Hp & _ & Hn).
  unfold orphaned. now rewrite Hr, Ht, Hp, Hn.
Qed.

Lemma in_filter_timers (P : Timer -> Prop) `{forall t, Decision (P t)}
    (ts : list Timer) t :
  In t (filter P ts) -> In t ts.
Proof.
  intros Hin. apply list_elem_of_In in Hin. apply list_elem_of_In.
  apply list_elem_of_filter in Hin. apply Hin.
Qed.

Lemma clear_timers_subset s t :
  In t (timers (loop (clearWalletReadinessWatcher s))) -> In t (timers (loop s)).
Proof.
  rewrite clear_timers. destruct (timeoutIdRef (refs s)); [|auto].
  apply in_filter_timers.
Qed.

Lemma orphaned_clear s : orphaned s -> orphaned (clearWalletReadinessWatcher s).
Proof.
  intros (Hp & Hn & _ & Ht). unfold orphaned.
  destruct (clear_counters s) as [_ E].
  rewrite clear_promises, E, clear_refs.
  split; [exact Hp|]. split; [exact Hn|]. split; [discriminate|].
  intros t Hin. apply Ht. now apply clear_timers_subset.
Qed.

Lemma create_next_promise s :
  next_promise (loop (createWalletReadinessWatcher s))
  = Pos.succ (next_promise (loop s)).
Proof.
  destruct (core_inv _ _ _ _ _ _ _ (create_core s)) as (_ & _ & _ & _ & _ & E).
  exact E.
Qed.

Lemma orphaned_create s : orphaned s -> orphaned (createWalletReadinessWatcher s).
Proof.
  intros (Hp & Hn & _ & Ht). unfold orphaned.
  rewrite create_promises, create_next_promise, create_refs, create_timers.
  split; [rewrite lookup_insert_ne by lia; exact Hp|].
  split; [lia|]. split.
  - unfold refs_of, new_timer. cbn [walletReadyResolveRef timer_promise].
    intros [= E]. lia.
  - intros t Hin. apply in_app_or in Hin. destruct Hin as [Hin|[<-|[]]].
    + apply Ht. now apply clear_timers_subset.
    + unfold new_timer. cbn [timer_promise]. lia.
Qed.

Lemma orphaned_resolve_promise q s :
  q <> p -> orphaned s -> orphaned (resolve_promise q s).
Proof.
  intros Hq H. unfold resolve_promise.
  destruct (promises (loop s) !! q) as [[]|]; try exact H.
  destruct H as (Hp & Hn & Hr & Ht). unfold orphaned.
  cbn [set_promises with_loop loop promises next_promise refs timers].
  rewrite lookup_insert_ne by exact Hq. repeat split; assumption.
Qed.

Lemma orphaned_reject_promise q e s :
  q <> p -> orphaned s -> orphaned (reject_promise q e s).
Proof.
  intros Hq H. unfold reject_promise.
  destruct (promises (loop s) !! q) as [[]|]; try exact H.
  destruct H as (Hp & Hn & Hr & Ht). unfold orphaned.
  cbn [set_promises with_loop loop promises next_promise refs timers].
  rewrite lookup_insert_ne by exact Hq. repeat split; assumption.
Qed.

Lemma orphaned_call_resolver s : orphaned s -> orphaned (call_resolver s).
Proof.
  intros H. unfold call_resolver.
  destruct (walletReadyResolveRef (refs s)) as [q|] eqn:E; [|exact H].
  apply orphaned_resolve_promise; [|exact H].
  destruct H as (_ & _ & Hr & _). congruence.
Qed.

Lemma orphaned_timeout_callback q s :
  q <> p -> orphaned s -> orphaned (timeout_callback q s).
Proof.
  intros Hq H. unfold timeout_callback. apply orphaned_clear.
  apply orphaned_reject_promise; [exact Hq|].
  apply (orphaned_core s); [|exact H].
  now rewrite core_setError, core_setSmartAccountStatus.
Qed.

Lemma orphaned_clearTimeout id s : orphaned s -> orphaned (clearTimeout id s).
Proof.
  intros (Hp & Hn & Hr & Ht). unfold orphaned, clearTimeout.
  cbn [set_timers with_loop loop promises next_promise refs timers].
  repeat split; try assumption.
  intros t Hin. apply Ht. now apply in_filter_timers in Hin.
Qed.

Lemma orphaned_fire_due fuel s : orphaned s -> orphaned (fire_due fuel s).
Proof.
  revert s. induction fuel as [|fuel IH]; intros s H; [exact H|].
  cbn [fire_due]. destruct (List.find _ _) as [t|] eqn:E; [|exact H].
  apply IH. apply find_some in E. destruct E as [Hin _].
  apply orphaned_timeout_callback.
  - destruct H as (_ & _ & _ & Ht). now apply Ht.
  - now apply orphaned_clearTimeout.
Qed.

Lemma orphaned_set_clock v s : orphaned s -> orphaned (set_clock v s).
Proof. intros H. exact H. Qed.

Lemma orphaned_bootstrapCleanup s : orphaned s -> orphaned (bootstrapCleanup s).
Proof.
  intros H. unfold bootstrapCleanup.
  destruct (bootstrap_cleanup (loop s)); [now apply orphaned_clear|exact H].
Qed.

Lemma orphaned_bootstrapEffect s : orphaned s -> orphaned (bootstrapEffect s).
Proof.
  intros H. unfold bootstrapEffect.
  destruct (negb (ready (auth s)) || negb (authenticated (auth s))).
  - apply (orphaned_core (clearWalletReadinessWatcher s));
      [now rewrite core_set_bootstrap_cleanup, core_setSmartAccountStatus|].
    now apply orphaned_clear.
  - destruct (hasPrivyWallet (wallets (auth s))).
    + apply (orphaned_core (clearWalletReadinessWatcher (call_resolver s)));
        [now rewrite core_set_bootstrap_cleanup|].
      now apply orphaned_clear, orphaned_call_resolver.
    + destruct (walletReadyPromiseRef (refs s)).
      * apply (orphaned_core s); [now rewrite core_set_bootstrap_cleanup|exact H].
      * apply (orphaned_core (createWalletReadinessWatcher s));
          [now rewrite core_set_bootstrap_cleanup|].
        now apply orphaned_create.
Qed.

Lemma orphaned_retry s : orphaned s -> orphaned (retryWalletCreation s).
Proof.
  intros H. unfold retryWalletCreation.
  assert (H1 : orphaned (clearWalletReadinessWatcher (setError None s))).
  { apply orphaned_clear. apply (orphaned_core s); [apply core_setError|exact H]. }
  destruct (hasPrivyWallet (wallets (auth s))).
  - eapply orphaned_core; [apply core_initSmartAccount|].
    now apply orphaned_clear, orphaned_call_resolver.
  - eapply orphaned_core; [apply core_initSmartAccount|].
    now apply orphaned_create.
Qed.

Lemma orphaned_init_construct o s :
  orphaned s -> orphaned (snd (init_construct o s)).
Proof.
  intros H. unfold init_construct.
  destruct o as [e|[[|a l]|] [e|[c a']]]; try exact H.
  cbn [snd].
  apply (orphaned_core (clearWalletReadinessWatcher s)); [|now apply orphaned_clear].
  unfold setSmartAccountClient, setSmartAccountAddress.
  now rewrite core_setSmartAccountStatus, !core_with_hooks.
Qed.

Lemma orphaned_init_resume_delegate id o s :
  orphaned s -> orphaned (init_resume_delegate id o s).
Proof.
  intros H. pose proof (orphaned_init_construct o s H) as H1.
  unfold init_resume_delegate, try_catch_finally.
  destruct (init_construct o s) as [[v|e] s1]; cbn [snd] in H1.
  - apply (orphaned_core s1); [|exact H1].
    unfold init_finally, setIsLoading. now rewrite core_finish, core_with_hooks.
  - apply (orphaned_core s1); [|exact H1].
    unfold init_catch, init_finally, setIsLoading.
    now rewrite core_finish, core_with_hooks, core_setSmartAccountStatus, core_setError.
Qed.

Lemma orphaned_handle e s : orphaned s -> orphaned (handle e s).
Proof.
  revert s. induction e as [r a u ws| | |ms|id o|u|e IH]; intros s H; cbn [handle].
  - eapply orphaned_core; [apply core_autoInitEffect|].
    apply orphaned_bootstrapEffect, orphaned_bootstrapCleanup.
    apply (orphaned_core s); [apply core_with_auth|exact H].
  - eapply orphaned_core; [apply core_initSmartAccount|exact H].
  - now apply orphaned_retry.
  - apply orphaned_fire_due. exact H.
  - destruct (existsb _ _); [|exact H].
    apply orphaned_init_resume_delegate. exact H.
  - eapply orphaned_core; [apply core_autoInitEffect|].
    apply (orphaned_core s); [apply core_with_auth|exact H].
  - now apply IH.
Qed.


End Orphan.




Section Stuck.

(** A call [id] of [initSmartAccount] parked on the promise [p]. *)
Variables (id : nat) (p : positive) (ws : list Wallet).

Let A : Task := {| call_id := id; awaiting := AwaitWatcher p ws |}.

(** The call [id] is parked on [p], no other parked call has its number, its
    number has been handed out, and no outcome is recorded for it. *)
Definition held (s : State) : Prop :=
  In A (tasks (loop s))
  /\ (forall t, In t (tasks (loop s)) -> call_id t = id -> t = A)
  /\ id < next_call (loop s)
  /\ forall r, ~ In (id, r) (returned (loop s)).

Lemma held_calls s s' : calls s' = calls s -> held s -> held s'.
Proof.
  intros E. destruct (calls_inv _ _ E) as (Ht & Hn & Hr & _).
  unfold held. now rewrite Ht, Hn, Hr.
Qed.

(** [s'] is [s] with more calls made, all numbered [id'] or later: parked
    calls stay, new parked calls and new outcomes carry another number. *)
Definition grows (id' : nat) (s s' : State) : Prop :=
  next_call (loop s) <= next_call (loop s')
  /\ (forall t, In t (tasks (loop s)) -> In t (tasks (loop s')))
  /\ (forall t, In t (tasks (loop s')) -> In t (tasks (loop s)) \/ call_id t = id')
  /\ (forall i r, In (i, r) (returned (loop s')) ->
        In (i, r) (returned (loop s)) \/ i = id').

Lemma held_grows id' s s' : id' <> id -> grows id' s s' -> held s -> held s'.
Proof.
  intros Hne (Hn & Hkeep & Ht & Hr) (H1 & H2 & H3 & H4).
  split; [now apply Hkeep|]. split; [|split; [lia|]].
  - intros t Hin Hid. destruct (Ht t Hin) as [Hold|Hnew]; [now apply H2|congruence].
  - intros r Hin. destruct (Hr id r Hin) as [Hold|Hnew]; [exact (H4 r Hold)|congruence].
Qed.

Lemma grows_calls id' s s' : calls s' = calls s -> grows id' s s'.
Proof.
  intros E. destruct (calls_inv _ _ E) as (Ht & Hn & Hr & _).
  unfold grows. rewrite Ht, Hn, Hr. repeat split; auto.
Qed.

Lemma grows_finish id' r s : grows id' s (finish id' r s).
Proof.
  unfold grows, finish. cbn [set_returned with_loop loop next_call tasks returned].
  repeat split; auto.
  intros i r' Hin. apply in_app_or in Hin.
  destruct Hin as [Hin|[[= <- <-]|[]]]; auto.
Qed.

Lemma grows_suspend id' k s : grows id' s (suspend id' k s).
Proof.
  unfold grows, suspend. cbn [set_tasks with_loop loop next_call tasks returned].
  repeat split; auto.
  - intros t Hin. apply in_or_app. now left.
  - intros t Hin. apply in_app_or in Hin. destruct Hin as [Hin|[<-|[]]]; auto.
Qed.

Lemma grows_from id' s0 s s' :
  tasks (loop s0) = tasks (loop s) -> next_call (loop s0) = next_call (loop s) ->
  returned (loop s0) = returned (loop s) ->
  grows id' s0 s' -> grows id' s s'.
Proof. unfold grows. now intros -> -> ->. Qed.

Lemma grows_init_begin id' ws' s : grows id' s (init_begin id' ws' s).
Proof.
  unfold init_begin. destruct (embeddedWallet ws').
  - eapply grows_from; [..|apply grows_suspend]; reflexivity.
  - unfold try_catch_finally, init_no_wallet, init_finally.
    eapply grows_from; [..|apply grows_finish]; reflexivity.
Qed.

Lemma grows_init_wait_rejected id' e s : grows id' s (init_wait_rejected id' e s).
Proof.
  unfold init_wait_rejected.
  eapply grows_from; [..|apply grows_finish]; reflexivity.
Qed.

Lemma grows_resume_watcher t s : grows (call_id t) s (resume_watcher t s).
Proof.
  unfold resume_watcher. destruct (awaiting t) as [q ws'|w].
  - destruct (promises (loop s) !! q) as [[| |e]|].
    + apply grows_suspend.
    + apply grows_init_begin.
    + apply grows_init_wait_rejected.
    + apply grows_suspend.
  - apply grows_suspend.
Qed.

Lemma grows_initSmartAccount s :
  grows (next_call (loop s)) s (initSmartAccount s)
  /\ next_call (loop s) < next_call (loop (initSmartAccount s)).
Proof.
  destruct (initSmartAccount_bookkeeping s) as [Hn _]. split; [|lia].
  unfold initSmartAccount.
  assert (G0 : forall r, grows (next_call (loop s)) s
                 (finish (next_call (loop s)) r
                    (set_next_call (S (next_call (loop s))) s))).
  { intros r. unfold grows, finish.
    cbn [set_returned set_next_call with_loop loop next_call tasks returned].
    repeat split; auto.
    intros i r' Hin. apply in_app_or in Hin.
    destruct Hin as [Hin|[[= <- <-]|[]]]; auto. }
  destruct (negb (authenticated (auth s)) || negb (user (auth s))); [apply G0|].
  assert (G1 : grows (next_call (loop s)) s
    match walletReadyPromiseRef (refs (set_next_call (S (next_call (loop s))) s)) with
    | Some q =>
        suspend (next_call (loop s)) (AwaitWatcher q (wallets (auth s)))
          (setSmartAccountStatus S_waiting_for_wallet
             (set_next_call (S (next_call (loop s))) s))
    | None => init_begin (next_call (loop s)) (wallets (auth s))
                (set_next_call (S (next_call (loop s))) s)
    end).
  { destruct (walletReadyPromiseRef _).
    - unfold grows, suspend.
      cbn [set_tasks set_next_call setSmartAccountStatus with_hooks with_loop loop
           next_call tasks returned].
      repeat split; auto.
      + intros t Hin. apply in_or_app. now left.
      + intros t Hin. apply in_app_or in Hin. destruct Hin as [Hin|[<-|[]]]; auto.
    - destruct (grows_init_begin (next_call (loop s)) (wallets (auth s))
                  (set_next_call (S (next_call (loop s))) s)) as (G1 & G2 & G3 & G4).
      repeat split; auto.
      cbn [set_next_call with_loop loop next_call] in G1. lia. }
  destruct (smartAccountClient (hooks s)), (smartAccountAddress (hooks s));
    try exact G1; apply G0.
Qed.

Lemma held_initSmartAccount s : held s -> held (initSmartAccount s).
Proof.
  intros H. destruct (grows_initSmartAccount s) as [G _].
  apply (held_grows (next_call (loop s)) s); [|exact G|exact H].
  destruct H as (_ & _ & Hlt & _). lia.
Qed.

Lemma held_autoInitEffect s : held s -> held (autoInitEffect s).
Proof.
  intros H. unfold autoInitEffect.
  destruct (_ && _); [now apply held_initSmartAccount|exact H].
Qed.

(** *** The microtasks leave the call parked *)

Lemma resume_all_held ts s :
  orphaned p s ->
  (forall t, In t ts \/ In t (tasks (loop s)) -> call_id t = id -> t = A) ->
  id < next_call (loop s) ->
  (forall r, ~ In (id, r) (returned (loop s))) ->
  let s' := fold_left (fun acc t => resume_watcher t acc) ts s in
  (forall t, In t (tasks (loop s')) -> call_id t = id -> t = A)
  /\ id < next_call (loop s')
  /\ (forall r, ~ In (id, r) (returned (loop s')))
  /\ (In A ts \/ In A (tasks (loop s)) -> In A (tasks (loop s'))).
Proof.
  revert s. induction ts as [|t ts IH]; intros s Ho Hu Hn Hr.
  - cbn [fold_left]. split; [intros t Hin; apply Hu; now right|].
    split; [exact Hn|]. split; [exact Hr|]. intros [[]|H]; exact H.
  - cbn [fold_left].
    assert (Ho' : orphaned p (resume_watcher t s))
      by (apply (orphaned_core p s); [apply core_resume_watcher|exact Ho]).
    destruct (Nat.eq_dec (call_id t) id) as [Hid|Hne].
    + assert (Et : t = A) by (apply Hu; [left; now left|exact Hid]).
      assert (Er : resume_watcher t s = suspend id (AwaitWatcher p ws) s).
      { rewrite resume_watcher_parked; [now rewrite Et|].
        intros q ws' Ha. rewrite Et in Ha. cbn in Ha. injection Ha as <- <-.
        unfold settled. destruct Ho as (Hp & _). now rewrite Hp. }
      destruct (IH (resume_watcher t s) Ho') as (G1 & G2 & G3 & G4).
      * rewrite Er, tasks_suspend. intros t' [Hin|Hin] Hid'.
        -- apply Hu; [left; now right|exact Hid'].
        -- apply in_app_or in Hin. destruct Hin as [Hin|[<-|[]]]; [|reflexivity].
           apply Hu; [now right|exact Hid'].
      * now rewrite Er.
      * now rewrite Er.
      * split; [exact G1|]. split; [exact G2|]. split; [exact G3|].
        intros _. apply G4. right. rewrite Er, tasks_suspend.
        apply in_or_app. right. now left.
    + destruct (grows_resume_watcher t s) as (Gn & Gkeep & Gt & Gr).
      destruct (IH (resume_watcher t s) Ho') as (G1 & G2 & G3 & G4).
      * intros t' [Hin|Hin] Hid'; [apply Hu; [left; now right|exact Hid']|].
        destruct (Gt t' Hin) as [Hold|Hnew]; [|congruence].
        apply Hu; [now right|exact Hid'].
      * lia.
      * intros r Hin. destruct (Gr id r Hin) as [Hold|Hnew];
          [exact (Hr r Hold)|congruence].
      * split; [exact G1|]. split; [exact G2|]. split; [exact G3|].
        intros [[Ht|Hin]|Hin].
        -- exfalso. apply Hne. now rewrite Ht.
        -- apply G4. now left.
        -- apply G4. right. now apply Gkeep.
Qed.

Lemma held_run_microtasks s : orphaned p s -> held s -> held (run_microtasks s).
Proof.
  intros Ho (H1 & H2 & H3 & H4). unfold run_microtasks.
  destruct (resume_all_held (tasks (loop s)) (set_tasks [] s)) as (G1 & G2 & G3 & G4).
  - exact Ho.
  - intros t [Hin|[]]. now apply H2.
  - exact H3.
  - exact H4.
  - split; [apply G4; now left|]. split; [exact G1|]. split; [exact G2|exact G3].
Qed.

(** *** The handlers leave the call parked *)

Lemma calls_init_construct o s : calls (snd (init_construct o s)) = calls s.
Proof.
  unfold init_construct.
  destruct o as [e|[[|a l]|] [e|[c a']]]; try reflexivity.
  cbn [snd]. unfold setSmartAccountClient, setSmartAccountAddress.
  rewrite calls_setSmartAccountStatus.
  change (calls (clearWalletReadinessWatcher s) = calls s). apply calls_clear.
Qed.

Lemma grows_init_resume_delegate id' o s :
  grows id' s (init_resume_delegate id' o s).
Proof.
  pose proof (calls_init_construct o s) as E.
  destruct (calls_inv _ _ E) as (Ht & Hn & Hr & _).
  unfold init_resume_delegate, try_catch_finally.
  destruct (init_construct o s) as [[v|e] s1]; cbn [snd] in Ht, Hn, Hr.
  - eapply grows_from; [..|apply grows_finish]; [exact Ht|exact Hn|exact Hr].
  - eapply grows_from; [..|apply grows_finish]; [exact Ht|exact Hn|exact Hr].
Qed.

Lemma is_delegate_task_true id' t :
  is_delegate_task id' t = true ->
  call_id t = id' /\ exists w, awaiting t = AwaitDelegate w.
Proof.
  unfold is_delegate_task. destruct (awaiting t) as [q ws'|w]; [discriminate|].
  intros H. apply Nat.eqb_eq in H. split; [exact H|now exists w].
Qed.

Lemma held_delegate_settles id' o s :
  held s -> held (handle (DelegateSettles id' o) s).
Proof.
  intros (H1 & H2 & H3 & H4). cbn [handle].
  destruct (existsb (is_delegate_task id') (tasks (loop s))) eqn:Ex;
    [|repeat split; assumption].
  apply existsb_exists in Ex. destruct Ex as (t & Hin & Hd).
  apply is_delegate_task_true in Hd. destruct Hd as (Hid & w & Hw).
  assert (Hne : id' <> id).
  { intros ->. pose proof (H2 t Hin Hid) as Et. rewrite Et in Hw. discriminate. }
  apply (held_grows id' _ _ Hne (grows_init_resume_delegate id' o _)).
  unfold held. cbn [set_tasks with_loop loop tasks next_call returned].
  split; [|split; [|split; assumption]].
  - apply filter_In. split; [exact H1|reflexivity].
  - intros t' Hin' Hid'. apply filter_In in Hin'. apply H2; [apply Hin'|exact Hid'].
Qed.

Lemma calls_set_clock v s : calls (set_clock v s) = calls s.
Proof. reflexivity. Qed.

Lemma held_handle e s : held s -> held (handle e s).
Proof.
  revert s. induction e as [r a u ws'| | |ms|id' o|u|e IH]; intros s H.
  - cbn [handle]. apply held_autoInitEffect. apply (held_calls s); [|exact H].
    now rewrite calls_bootstrapEffect, calls_bootstrapCleanup, calls_with_auth.
  - cbn [handle]. now apply held_initSmartAccount.
  - cbn [handle]. unfold retryWalletCreation.
    destruct (hasPrivyWallet _); apply held_initSmartAccount;
      apply (held_calls s); try exact H.
    + now rewrite calls_clear, calls_call_resolver, calls_clear, calls_setError.
    + now rewrite calls_create, calls_clear, calls_setError.
  - cbn [handle]. apply (held_calls s); [|exact H].
    now rewrite calls_fire_due, calls_set_clock.
  - now apply held_delegate_settles.
  - cbn [handle]. apply held_autoInitEffect. apply (held_calls s); [|exact H].
    now rewrite calls_with_auth.
  - cbn [handle]. now apply IH.
Qed.

(** The call is parked for good: on a promise that nothing can settle. *)
Definition stuck (s : State) : Prop := orphaned p s /\ held s.

Lemma stuck_step e s : stuck s -> stuck (step e s).
Proof.
  intros [Ho Hh]. apply (step_preserves stuck).
  - split; [now apply orphaned_handle|now apply held_handle].
  - intros x [Hox Hhx]. split.
    + eapply orphaned_core; [apply core_run_microtasks|exact Hox].
    + now apply held_run_microtasks.
  - intros x [Hox Hhx]. split.
    + eapply orphaned_core; [apply core_autoInitEffect|exact Hox].
    + now apply held_autoInitEffect.
Qed.

Lemma stuck_run es s : stuck s -> stuck (run es s).
Proof.
  revert s. induction es as [|e es IH]; intros s H; [exact H|].
  rewrite run_cons. now apply IH, stuck_step.
Qed.

End Stuck.

Lemma run_app es1 es2 s : run (es1 ++ es2)%list s = run es2 (run es1 s).
Proof. unfold run. apply fold_left_app. Qed.

(** The user is authenticated with no wallet yet (a watcher is created), a
    caller calls [initSmartAccount] (the call is parked on the watcher), and
    authentication is lost. *)
Definition session_abandoned : list Event :=
  [AuthChanged true true true []; CallInitSmartAccount;
   AuthChanged true false false []].

Lemma session_abandoned_state :
  let s := run session_abandoned initial in
  refs s = refs_none /\ timers (loop s) = []
  /\ tasks (loop s) = [{| call_id := 0; awaiting := AwaitWatcher 1 [] |}]
  /\ returned (loop s) = [] /\ next_call (loop s) = 1
  /\ next_promise (loop s) = 2%positive
  /\ promises (loop s) !! 1%positive = Some Pending.
Proof. vm_compute. repeat split. Qed.

(** C9.  In the session above the watcher has been cleared by the loss of
    authentication (no refs, no armed timer) while call 0 of
    [initSmartAccount] is parked on its promise.  Whatever happens afterwards,
    the promise stays pending, the call stays parked and no outcome is ever
    recorded for it. *)
Theorem parked_call_is_never_resumed :
  refs (run session_abandoned initial) = refs_none
  /\ timers (loop (run session_abandoned initial)) = []
  /\ forall es,
       let s := run (session_abandoned ++ es)%list initial in
       In {| call_id := 0; awaiting := AwaitWatcher 1 [] |} (tasks (loop s))
       /\ promises (loop s) !! 1%positive = Some Pending
       /\ forall r, ~ In (0, r) (returned (loop s)).
Proof.
  destruct session_abandoned_state as (Er & Et & Ek & Ert & En & Enp & Ep).
  split; [exact Er|]. split; [exact Et|].
  intros es s. subst s. rewrite run_app.
  assert (H0 : stuck 0 1 [] (run session_abandoned initial)).
  { split.
    - unfold orphaned. rewrite Ep, Enp, Er, Et.
      split; [reflexivity|]. split; [reflexivity|]. split; [discriminate|].
      intros t [].
    - unfold held. rewrite Ek, Ert, En.
      split; [left; reflexivity|]. split; [|split; [lia|intros r []]].
      intros t [<-|[]] _. reflexivity. }
  destruct (stuck_run 0 1 [] es _ H0) as [(Hp & _) (H1 & _ & _ & H4)].
  split; [exact H1|]. split; [exact Hp|exact H4].
Qed.


(** * Further properties of the coordinator *)

(** ** The cached handle *)

(** The client and the address are cached together, and the status [ready]
    is only shown with a handle. *)
Definition handle_ok (h : Hooks) : Prop :=
  (is_Some (smartAccountClient h) <-> is_Some (smartAccountAddress h))
  /\ (smartAccountStatus h = S_ready -> is_Some (smartAccountClient h)).

(** A cached client and a cached address are never dropped. *)
Definition handle_kept (h h' : Hooks) : Prop :=
  (is_Some (smartAccountClient h) -> is_Some (smartAccountClient h'))
  /\ (is_Some (smartAccountAddress h) -> is_Some (smartAccountAddress h')).

Definition evolves (s s' : State) : Prop :=
  handle_kept (hooks s) (hooks s')
  /\ (handle_ok (hooks s) -> handle_ok (hooks s')).

Lemma evolves_refl s : evolves s s.
Proof. split; [split; auto|auto]. Qed.

Lemma evolves_trans s1 s2 s3 : evolves s1 s2 -> evolves s2 s3 -> evolves s1 s3.
Proof.
  intros [[K1 K2] O1] [[K3 K4] O2]. split; [split; auto|auto].
Qed.

Lemma evolves_hooks s s' : hooks s' = hooks s -> evolves s s'.
Proof. intros E. unfold evolves. rewrite E. split; [split; auto|auto]. Qed.

Lemma evolves_status v s :
  v <> S_ready -> evolves s (setSmartAccountStatus v s).
Proof.
  intros Hv. unfold evolves, handle_kept, handle_ok.
  cbn [setSmartAccountStatus with_hooks hooks smartAccountClient
       smartAccountAddress smartAccountStatus].
  split; [tauto|]. intros [Hp _]. split; [exact Hp|congruence].
Qed.

Lemma evolves_error v s : evolves s (setError v s).
Proof. unfold evolves, handle_kept, handle_ok. cbn. tauto. Qed.

Lemma evolves_loading v s : evolves s (setIsLoading v s).
Proof. unfold evolves, handle_kept, handle_ok. cbn. tauto. Qed.

Lemma evolves_success c a s :
  evolves s (setSmartAccountStatus S_ready
               (setSmartAccountAddress (Some a) (setSmartAccountClient (Some c) s))).
Proof.
  unfold evolves, handle_kept, handle_ok.
  cbn [setSmartAccountStatus setSmartAccountAddress setSmartAccountClient
       with_hooks hooks smartAccountClient smartAccountAddress smartAccountStatus].
  split; [split; eauto|]. intros _. split; [split; eauto|eauto].
Qed.

Lemma evolves_clear s : evolves s (clearWalletReadinessWatcher s).
Proof. apply evolves_hooks, clear_hooks. Qed.

Lemma evolves_create s : evolves s (createWalletReadinessWatcher s).
Proof.
  destruct (create_frame s) as [_ E].
  eapply evolves_trans; [apply (evolves_status S_waiting_for_wallet); discriminate|].
  now apply evolves_hooks.
Qed.

Lemma evolves_call_resolver s : evolves s (call_resolver s).
Proof. apply evolves_hooks. apply call_resolver_frame. Qed.

Lemma evolves_timeout_callback p s : evolves s (timeout_callback p s).
Proof.
  eapply evolves_trans; [apply (evolves_status S_error); discriminate|].
  eapply evolves_trans; [apply (evolves_error (Some TIMEOUT_MESSAGE))|].
  apply evolves_hooks. apply timeout_callback_hooks.
Qed.

Lemma evolves_fire_due fuel s : evolves s (fire_due fuel s).
Proof.
  revert s. induction fuel as [|fuel IH]; intros s; [apply evolves_refl|].
  cbn [fire_due]. destruct (List.find _ _) as [t|]; [|apply evolves_refl].
  eapply evolves_trans; [|apply IH].
  eapply evolves_trans; [|apply evolves_timeout_callback].
  now apply evolves_hooks.
Qed.

Lemma evolves_finish id r s : evolves s (finish id r s).
Proof. now apply evolves_hooks. Qed.

Lemma evolves_suspend id k s : evolves s (suspend id k s).
Proof. now apply evolves_hooks. Qed.

Lemma evolves_init_begin id ws s : evolves s (init_begin id ws s).
Proof.
  unfold init_begin.
  assert (E3 : evolves s (setError None
                 (setSmartAccountStatus S_initializing (setIsLoading true s)))).
  { eapply evolves_trans; [apply (evolves_loading true)|].
    eapply evolves_trans; [apply (evolves_status S_initializing); discriminate|].
    apply evolves_error. }
  destruct (embeddedWallet ws).
  - eapply evolves_trans; [exact E3|]. now apply evolves_hooks.
  - eapply evolves_trans; [exact E3|].
    unfold try_catch_finally, init_no_wallet, init_finally.
    eapply evolves_trans; [apply (evolves_loading false)|].
    eapply evolves_trans; [apply (evolves_status S_waiting_for_wallet); discriminate|].
    eapply evolves_trans; [apply (evolves_loading false)|].
    apply evolves_finish.
Qed.

Lemma evolves_init_wait_rejected id e s : evolves s (init_wait_rejected id e s).
Proof.
  unfold init_wait_rejected.
  eapply evolves_trans; [apply evolves_error|].
  eapply evolves_trans; [apply (evolves_status S_error); discriminate|].
  apply evolves_finish.
Qed.

Lemma evolves_init_construct o s : evolves s (snd (init_construct o s)).
Proof.
  unfold init_construct.
  destruct o as [e|[[|a l]|] [e|[c a']]]; try apply evolves_refl.
  cbn [snd]. eapply evolves_trans; [apply evolves_clear|apply evolves_success].
Qed.

Lemma evolves_init_resume_delegate id o s :
  evolves s (init_resume_delegate id o s).
Proof.
  pose proof (evolves_init_construct o s) as H.
  unfold init_resume_delegate, try_catch_finally.
  destruct (init_construct o s) as [[v|e] s1]; cbn [snd] in H.
  - eapply evolves_trans; [exact H|].
    eapply evolves_trans; [apply (evolves_loading false)|apply evolves_finish].
  - eapply evolves_trans; [exact H|]. unfold init_catch.
    eapply evolves_trans; [apply evolves_error|].
    eapply evolves_trans; [apply (evolves_status S_error); discriminate|].
    eapply evolves_trans; [apply (evolves_loading false)|apply evolves_finish].
Qed.

Lemma evolves_initSmartAccount s : evolves s (initSmartAccount s).
Proof.
  unfold initSmartAccount.
  destruct (negb (authenticated (auth s)) || negb (user (auth s)));
    [now apply evolves_hooks|].
  assert (G : evolves s
    match walletReadyPromiseRef (refs (set_next_call (S (next_call (loop s))) s)) with
    | Some p =>
        suspend (next_call (loop s)) (AwaitWatcher p (wallets (auth s)))
          (setSmartAccountStatus S_waiting_for_wallet
             (set_next_call (S (next_call (loop s))) s))
    | None => init_begin (next_call (loop s)) (wallets (auth s))
                (set_next_call (S (next_call (loop s))) s)
    end).
  { destruct (walletReadyPromiseRef _).
    - eapply evolves_trans;
        [apply (evolves_status S_waiting_for_wallet); discriminate|].
      now apply evolves_hooks.
    - eapply evolves_trans; [|apply evolves_init_begin]. now apply evolves_hooks. }
  destruct (smartAccountClient (hooks s)), (smartAccountAddress (hooks s));
    try exact G; now apply evolves_hooks.
Qed.

Lemma evolves_autoInitEffect s : evolves s (autoInitEffect s).
Proof.
  unfold autoInitEffect.
  destruct (_ && _); [apply evolves_initSmartAccount|apply evolves_refl].
Qed.

Lemma evolves_resume_watcher t s : evolves s (resume_watcher t s).
Proof.
  unfold resume_watcher. destruct (awaiting t); [|apply evolves_suspend].
  destruct (promises (loop s) !! p) as [[]|]; try apply evolves_suspend.
  - apply evolves_init_begin.
  - apply evolves_init_wait_rejected.
Qed.

Lemma evolves_run_microtasks s : evolves s (run_microtasks s).
Proof.
  unfold run_microtasks.
  assert (G : forall ts s0, evolves s0
                (fold_left (fun acc t => resume_watcher t acc) ts s0)).
  { intros ts. induction ts as [|t ts IH]; intros s0; [apply evolves_refl|].
    cbn [fold_left]. eapply evolves_trans; [apply evolves_resume_watcher|apply IH]. }
  eapply evolves_trans; [|apply G]. now apply evolves_hooks.
Qed.

Lemma evolves_set_bootstrap_cleanup b s : evolves s (set_bootstrap_cleanup b s).
Proof. now apply evolves_hooks. Qed.

Lemma evolves_bootstrapEffect s : evolves s (bootstrapEffect s).
Proof.
  unfold bootstrapEffect.
  destruct (negb (ready (auth s)) || negb (authenticated (auth s))).
  - eapply evolves_trans; [apply evolves_clear|].
    eapply evolves_trans; [apply (evolves_status S_idle); discriminate|].
    apply evolves_set_bootstrap_cleanup.
  - destruct (hasPrivyWallet (wallets (auth s))).
    + eapply evolves_trans; [apply evolves_call_resolver|].
      eapply evolves_trans; [apply evolves_clear|].
      apply evolves_set_bootstrap_cleanup.
    + destruct (walletReadyPromiseRef (refs s));
        [apply evolves_set_bootstrap_cleanup|].
      eapply evolves_trans; [apply evolves_create|].
      apply evolves_set_bootstrap_cleanup.
Qed.

Lemma evolves_retry s : evolves s (retryWalletCreation s).
Proof.
  unfold retryWalletCreation.
  eapply evolves_trans; [apply (evolves_error None)|].
  eapply evolves_trans; [apply evolves_clear|].
  destruct (hasPrivyWallet (wallets (auth s))).
  - eapply evolves_trans; [apply evolves_call_resolver|].
    eapply evolves_trans; [apply evolves_clear|apply evolves_initSmartAccount].
  - eapply evolves_trans; [apply evolves_create|apply evolves_initSmartAccount].
Qed.

Lemma evolves_handle e s : evolves s (handle e s).
Proof.
  revert s. induction e as [r a u ws| | |ms|id o|u|e IH]; intros s; cbn [handle].
  - eapply evolves_trans; [|apply evolves_autoInitEffect].
    eapply evolves_trans; [|apply evolves_bootstrapEffect].
    unfold bootstrapCleanup.
    destruct (bootstrap_cleanup _); [|now apply evolves_hooks].
    eapply evolves_trans; [|apply evolves_clear]. now apply evolves_hooks.
  - apply evolves_initSmartAccount.
  - apply evolves_retry.
  - eapply evolves_trans; [|apply evolves_fire_due]. now apply evolves_hooks.
  - destruct (existsb _ _); [|apply evolves_refl].
    eapply evolves_trans; [|apply evolves_init_resume_delegate].
    now apply evolves_hooks.
  - eapply evolves_trans; [|apply evolves_autoInitEffect]. now apply evolves_hooks.
  - apply IH.
Qed.

Lemma evolves_step e s : evolves s (step e s).
Proof.
  apply (step_preserves (evolves s)).
  - apply evolves_handle.
  - intros x Hx. eapply evolves_trans; [exact Hx|apply evolves_run_microtasks].
  - intros x Hx. eapply evolves_trans; [exact Hx|apply evolves_autoInitEffect].
Qed.

Lemma evolves_run es s : evolves s (run es s).
Proof.
  revert s. induction es as [|e es IH]; intros s; [apply evolves_refl|].
  rewrite run_cons. eapply evolves_trans; [apply evolves_step|apply IH].
Qed.

(** X1.  In every reachable state the client and the address are cached
    together (both or neither), and the status [ready] (what the context
    exposes as [smartAccountReady]) is only shown while a handle is cached. *)
Theorem ready_implies_cached_handle (es : list Event) :
  let h := hooks (run es initial) in
  (is_Some (smartAccountClient h) <-> is_Some (smartAccountAddress h))
  /\ (smartAccountStatus h = S_ready ->
      exists c a, smartAccountClient h = Some c /\ smartAccountAddress h = Some a).
Proof.
  intros h. destruct (evolves_run es initial) as [_ H].
  assert (H0 : handle_ok (hooks initial)).
  { split; cbn; [split; intros [x Hx]; discriminate|discriminate]. }
  destruct (H H0) as [Hpair Hready]. fold h in Hpair, Hready.
  split; [exact Hpair|]. intros Hst.
  destruct (Hready Hst) as [c Hc]. destruct (proj1 Hpair (ex_intro _ c Hc)) as [a Ha].
  now exists c, a.
Qed.

Lemma ready_implies_cached_handle_witness :
  let h := hooks (run session_ready initial) in
  smartAccountStatus h = S_ready
  /\ exists c a, smartAccountClient h = Some c /\ smartAccountAddress h = Some a.
Proof.
  intros h.
  assert (H : smartAccountStatus h = S_ready) by reflexivity.
  split; [exact H|].
  exact (proj2 (ready_implies_cached_handle session_ready) H).
Defined.

(** X2.  No event ever drops a cached handle: from any state whatever, if a
    client (an address) is cached before a run of events, one is cached
    after it.  In particular neither a logout nor a retry clears it. *)
Theorem cached_handle_is_never_dropped (es : list Event) (s : State) :
  (is_Some (smartAccountClient (hooks s)) ->
   is_Some (smartAccountClient (hooks (run es s))))
  /\ (is_Some (smartAccountAddress (hooks s)) ->
      is_Some (smartAccountAddress (hooks (run es s)))).
Proof. destruct (evolves_run es s) as [H _]. exact H. Qed.

Lemma cached_handle_is_never_dropped_witness :
  let s := run session_ready initial in
  let s' := run [AuthChanged true false false []; CallRetryWalletCreation] s in
  is_Some (smartAccountClient (hooks s))
  /\ is_Some (smartAccountClient (hooks s')).
Proof.
  intros s s'.
  assert (H : is_Some (smartAccountClient (hooks s))) by (exists 7; reflexivity).
  split; [exact H|].
  exact (proj1 (cached_handle_is_never_dropped
                  [AuthChanged true false false []; CallRetryWalletCreation] s) H).
Defined.


(** ** Calls parked on a watcher hold a stale wallet list *)

Lemma auth_init_begin id ws s : auth (init_begin id ws s) = auth s.
Proof. unfold init_begin. destruct (embeddedWallet ws); reflexivity. Qed.

Lemma auth_initSmartAccount s : auth (initSmartAccount s) = auth s.
Proof.
  unfold initSmartAccount.
  destruct (negb (authenticated (auth s)) || negb (user (auth s))); [reflexivity|].
  destruct (smartAccountClient (hooks s)), (smartAccountAddress (hooks s));
    try reflexivity; cbn [refs set_next_call with_loop];
    destruct (walletReadyPromiseRef (refs s));
    rewrite ?auth_init_begin; reflexivity.
Qed.

Lemma auth_autoInitEffect s : auth (autoInitEffect s) = auth s.
Proof.
  unfold autoInitEffect. destruct (_ && _); [apply auth_initSmartAccount|reflexivity].
Qed.

Lemma auth_resume_watcher t s : auth (resume_watcher t s) = auth s.
Proof.
  unfold resume_watcher. destruct (awaiting t); [|reflexivity].
  destruct (promises (loop s) !! p) as [[]|]; rewrite ?auth_init_begin; reflexivity.
Qed.

Lemma auth_run_microtasks s : auth (run_microtasks s) = auth s.
Proof.
  unfold run_microtasks.
  assert (G : forall ts s0,
            auth (fold_left (fun acc t => resume_watcher t acc) ts s0) = auth s0).
  { intros ts. induction ts as [|t ts IH]; intros s0; [reflexivity|].
    cbn [fold_left]. now rewrite IH, auth_resume_watcher. }
  now rewrite G.
Qed.

Lemma auth_resolve_promise p s : auth (resolve_promise p s) = auth s.
Proof. unfold resolve_promise. destruct (_ !! _) as [[]|]; reflexivity. Qed.

Lemma auth_reject_promise p e s : auth (reject_promise p e s) = auth s.
Proof. unfold reject_promise. destruct (_ !! _) as [[]|]; reflexivity. Qed.

Lemma auth_call_resolver s : auth (call_resolver s) = auth s.
Proof.
  unfold call_resolver. destruct (walletReadyResolveRef (refs s));
    [apply auth_resolve_promise|reflexivity].
Qed.

Lemma auth_timeout_callback p s : auth (timeout_callback p s) = auth s.
Proof. unfold timeout_callback. now rewrite clear_auth, auth_reject_promise. Qed.

Lemma auth_fire_due fuel s : auth (fire_due fuel s) = auth s.
Proof.
  revert s. induction fuel as [|fuel IH]; intros s; [reflexivity|].
  cbn [fire_due]. destruct (List.find _ _); [|reflexivity].
  now rewrite IH, auth_timeout_callback.
Qed.

Lemma auth_init_resume_delegate id o s : auth (init_resume_delegate id o s) = auth s.
Proof.
  assert (E : auth (snd (init_construct o s)) = auth s).
  { unfold init_construct.
    destruct o as [e|[[|a l]|] [e|[c a']]]; try reflexivity.
    cbn [snd]. unfold setSmartAccountStatus, setSmartAccountAddress,
      setSmartAccountClient, with_hooks. cbn [auth]. apply clear_auth. }
  unfold init_resume_delegate, try_catch_finally.
  destruct (init_construct o s) as [[v|e] s1]; cbn [snd] in E; exact E.
Qed.

(** While a watcher exists the current wallet list has no privy wallet. *)
Definition watcher_without_wallet (s : State) : Prop :=
  walletReadyPromiseRef (refs s) = None
  \/ hasPrivyWallet (wallets (auth s)) = false.

(** A call parked on a watcher has captured a list with no privy wallet. *)
Definition stale (t : Task) : Prop :=
  forall p ws, awaiting t = AwaitWatcher p ws -> hasPrivyWallet ws = false.

Definition parked_stale (s : State) : Prop :=
  forall t, In t (tasks (loop s)) -> stale t.

Lemma www_eq s s' :
  refs s' = refs s -> auth s' = auth s ->
  watcher_without_wallet s -> watcher_without_wallet s'.
Proof. unfold watcher_without_wallet. now intros -> ->. Qed.

Lemma www_clear s : watcher_without_wallet (clearWalletReadinessWatcher s).
Proof. left. now rewrite clear_refs. Qed.

Lemma refs_setSmartAccountStatus v s : refs (setSmartAccountStatus v s) = refs s.
Proof. reflexivity. Qed.

Lemma auth_set_bootstrap_cleanup b s : auth (set_bootstrap_cleanup b s) = auth s.
Proof. reflexivity. Qed.

Lemma www_bootstrapEffect s : watcher_without_wallet (bootstrapEffect s).
Proof.
  unfold bootstrapEffect.
  destruct (negb (ready (auth s)) || negb (authenticated (auth s))).
  - left. now rewrite refs_set_bootstrap_cleanup, refs_setSmartAccountStatus, clear_refs.
  - destruct (hasPrivyWallet (wallets (auth s))) eqn:E.
    + left. now rewrite refs_set_bootstrap_cleanup, clear_refs.
    + right. destruct (walletReadyPromiseRef (refs s)); [exact E|].
      destruct (create_frame s) as [Ea _].
      now rewrite auth_set_bootstrap_cleanup, Ea.
Qed.

Lemma fire_due_no_watcher fuel s :
  walletReadyPromiseRef (refs s) = None ->
  walletReadyPromiseRef (refs (fire_due fuel s)) = None.
Proof.
  revert s. induction fuel as [|fuel IH]; intros s H; [exact H|].
  cbn [fire_due]. destruct (List.find _ _); [|exact H].
  apply IH. unfold timeout_callback. now rewrite clear_refs.
Qed.

Lemma www_retry s : watcher_without_wallet (retryWalletCreation s).
Proof.
  unfold retryWalletCreation.
  destruct (hasPrivyWallet (wallets (auth s))) eqn:E.
  - left.
    destruct (core_eq _ _ (core_initSmartAccount
      (clearWalletReadinessWatcher (call_resolver
         (clearWalletReadinessWatcher (setError None s)))))) as [Er _].
    now rewrite Er, clear_refs.
  - right. rewrite auth_initSmartAccount.
    destruct (create_frame (clearWalletReadinessWatcher (setError None s))) as [Ea _].
    now rewrite Ea, clear_auth.
Qed.

Lemma www_handle e s :
  watcher_without_wallet s -> watcher_without_wallet (handle e s).
Proof.
  revert s. induction e as [r a u ws| | |ms|id o|u|e IH]; intros s H; cbn [handle].
  - apply (www_eq (bootstrapEffect (bootstrapCleanup
      (with_auth {| ready := r; authenticated := a; user := u; wallets := ws |} s)))).
    + apply core_eq, core_autoInitEffect.
    + apply auth_autoInitEffect.
    + apply www_bootstrapEffect.
  - apply (www_eq s); [apply core_eq, core_initSmartAccount
                      |apply auth_initSmartAccount|exact H].
  - apply www_retry.
  - destruct H as [H|H].
    + left. apply fire_due_no_watcher. exact H.
    + right. now rewrite auth_fire_due.
  - destruct (existsb _ _); [|exact H].
    destruct H as [H|H].
    + left.
      assert (G : forall s0, walletReadyPromiseRef (refs s0) = None ->
                  walletReadyPromiseRef (refs (init_resume_delegate id o s0)) = None).
      { intros s0 H0. unfold init_resume_delegate, try_catch_finally, init_construct.
        destruct o as [e|[[|a l]|] [e|[c a']]]; try exact H0.
        cbn [fst snd refs finish set_returned with_loop init_finally setIsLoading
             setSmartAccountStatus setSmartAccountAddress setSmartAccountClient
             with_hooks].
        now rewrite clear_refs. }
      apply G. exact H.
    + right. now rewrite auth_init_resume_delegate.
  - apply (www_eq (with_auth {| ready := ready (auth s); authenticated := authenticated (auth s);
                 user := u; wallets := wallets (auth s) |} s)).
    + apply core_eq, core_autoInitEffect.
    + apply auth_autoInitEffect.
    + exact H.
  - now apply IH.
Qed.

Lemma www_step e s : watcher_without_wallet s -> watcher_without_wallet (step e s).
Proof.
  intros H. apply (step_preserves watcher_without_wallet).
  - now apply www_handle.
  - intros x Hx. apply (www_eq x);
      [apply core_eq, core_run_microtasks|apply auth_run_microtasks|exact Hx].
  - intros x Hx. apply (www_eq x);
      [apply core_eq, core_autoInitEffect|apply auth_autoInitEffect|exact Hx].
Qed.


Lemma parked_stale_tasks s s' :
  tasks (loop s') = tasks (loop s) -> parked_stale s -> parked_stale s'.
Proof. unfold parked_stale. now intros ->. Qed.

Lemma parked_stale_suspend id k s :
  stale {| call_id := id; awaiting := k |} ->
  parked_stale s -> parked_stale (suspend id k s).
Proof.
  intros Hk H t Hin. rewrite tasks_suspend in Hin. apply in_app_or in Hin.
  destruct Hin as [Hin|[<-|[]]]; [now apply H|exact Hk].
Qed.

Lemma stale_delegate id w : stale {| call_id := id; awaiting := AwaitDelegate w |}.
Proof. intros p ws. discriminate. Qed.

Lemma parked_stale_init_begin id ws s :
  parked_stale s -> parked_stale (init_begin id ws s).
Proof.
  intros H t Hin. destruct (tasks_init_begin id ws s) as [E|(w & E)];
    rewrite E in Hin; [now apply H|].
  apply in_app_or in Hin. destruct Hin as [Hin|[<-|[]]];
    [now apply H|apply stale_delegate].
Qed.

Lemma tasks_init_resume_delegate id o s :
  tasks (loop (init_resume_delegate id o s)) = tasks (loop s).
Proof.
  destruct (calls_inv _ _ (calls_init_construct o s)) as (E & _).
  unfold init_resume_delegate, try_catch_finally.
  destruct (init_construct o s) as [[v|e] s1]; cbn [snd] in E; exact E.
Qed.

Lemma parked_stale_initSmartAccount s :
  watcher_without_wallet s -> parked_stale s -> parked_stale (initSmartAccount s).
Proof.
  intros Hw H. unfold initSmartAccount.
  destruct (negb (authenticated (auth s)) || negb (user (auth s))); [exact H|].
  assert (G : parked_stale
    match walletReadyPromiseRef (refs (set_next_call (S (next_call (loop s))) s)) with
    | Some p =>
        suspend (next_call (loop s)) (AwaitWatcher p (wallets (auth s)))
          (setSmartAccountStatus S_waiting_for_wallet
             (set_next_call (S (next_call (loop s))) s))
    | None => init_begin (next_call (loop s)) (wallets (auth s))
                (set_next_call (S (next_call (loop s))) s)
    end).
  { cbn [refs set_next_call with_loop].
    destruct (walletReadyPromiseRef (refs s)) as [p|] eqn:E.
    - apply parked_stale_suspend; [|exact H].
      intros q ws [= _ <-]. destruct Hw as [Hw|Hw]; [congruence|exact Hw].
    - apply parked_stale_init_begin. exact H. }
  destruct (smartAccountClient (hooks s)), (smartAccountAddress (hooks s));
    try exact G; exact H.
Qed.

Lemma parked_stale_autoInitEffect s :
  watcher_without_wallet s -> parked_stale s -> parked_stale (autoInitEffect s).
Proof.
  intros Hw H. unfold autoInitEffect.
  destruct (_ && _); [now apply parked_stale_initSmartAccount|exact H].
Qed.

Lemma parked_stale_resume_watcher t s :
  stale t -> parked_stale s -> parked_stale (resume_watcher t s).
Proof.
  intros Ht H. unfold resume_watcher.
  assert (Hre : parked_stale (suspend (call_id t) (awaiting t) s)).
  { apply parked_stale_suspend; [|exact H]. intros p ws Ha. exact (Ht p ws Ha). }
  destruct (awaiting t) as [p ws|w]; [|exact Hre].
  destruct (promises (loop s) !! p) as [[]|]; try exact Hre.
  - now apply parked_stale_init_begin.
  - exact H.
Qed.

Lemma parked_stale_run_microtasks s :
  parked_stale s -> parked_stale (run_microtasks s).
Proof.
  intros H. unfold run_microtasks.
  assert (G : forall ts s0, (forall t, In t ts -> stale t) -> parked_stale s0 ->
            parked_stale (fold_left (fun acc t => resume_watcher t acc) ts s0)).
  { intros ts. induction ts as [|t ts IH]; intros s0 Hts H0; [exact H0|].
    cbn [fold_left]. apply IH; [intros t' Ht'; apply Hts; now right|].
    apply parked_stale_resume_watcher; [apply Hts; now left|exact H0]. }
  apply G; [exact H|]. intros t [].
Qed.

Lemma parked_stale_handle e s :
  watcher_without_wallet s -> parked_stale s -> parked_stale (handle e s).
Proof.
  revert s. induction e as [r a u ws| | |ms|id o|u|e IH]; intros s Hw H; cbn [handle].
  - apply parked_stale_autoInitEffect; [apply www_bootstrapEffect|].
    apply (parked_stale_tasks s); [|exact H]. apply tasks_of_calls.
    now rewrite calls_bootstrapEffect, calls_bootstrapCleanup, calls_with_auth.
  - now apply parked_stale_initSmartAccount.
  - unfold retryWalletCreation.
    destruct (hasPrivyWallet (wallets (auth s))) eqn:E.
    + apply parked_stale_initSmartAccount; [apply www_clear|].
      apply (parked_stale_tasks s); [|exact H]. apply tasks_of_calls.
      now rewrite calls_clear, calls_call_resolver, calls_clear, calls_setError.
    + apply parked_stale_initSmartAccount.
      * right.
        destruct (create_frame (clearWalletReadinessWatcher (setError None s)))
          as [Ea _].
        now rewrite Ea, clear_auth.
      * apply (parked_stale_tasks s); [|exact H]. apply tasks_of_calls.
        now rewrite calls_create, calls_clear, calls_setError.
  - apply (parked_stale_tasks s); [|exact H]. apply tasks_of_calls.
    now rewrite calls_fire_due, calls_set_clock.
  - destruct (existsb _ _); [|exact H].
    intros t Hin. rewrite tasks_init_resume_delegate in Hin.
    cbn [set_tasks with_loop loop tasks] in Hin.
    apply filter_In in Hin. apply H, Hin.
  - apply parked_stale_autoInitEffect; [exact Hw|].
    apply (parked_stale_tasks s); [reflexivity|exact H].
  - now apply IH.
Qed.

Lemma parked_stale_step e s :
  watcher_without_wallet s -> parked_stale s -> parked_stale (step e s).
Proof.
  intros Hw H.
  apply (step_preserves (fun x => watcher_without_wallet x /\ parked_stale x)).
  - split; [now apply www_handle|now apply parked_stale_handle].
  - intros x [Hwx Hx]. split; [|now apply parked_stale_run_microtasks].
    apply (www_eq x);
      [apply core_eq, core_run_microtasks|apply auth_run_microtasks|exact Hwx].
  - intros x [Hwx Hx]. split; [|now apply parked_stale_autoInitEffect].
    apply (www_eq x);
      [apply core_eq, core_autoInitEffect|apply auth_autoInitEffect|exact Hwx].
Qed.

Lemma stale_invariant es :
  watcher_without_wallet (run es initial) /\ parked_stale (run es initial).
Proof.
  assert (G : forall es s, watcher_without_wallet s /\ parked_stale s ->
            watcher_without_wallet (run es s) /\ parked_stale (run es s)).
  { clear es. intros es. induction es as [|e es IH]; intros s H; [exact H|].
    rewrite run_cons. apply IH. destruct H as [Hw Hp].
    split; [now apply www_step|now apply parked_stale_step]. }
  apply G. split; [now left|intros t []].
Qed.




(** ** Constructions *)

Lemma init_begin_starts id ws s w :
  embeddedWallet ws = Some w ->
  let s' := init_begin id ws s in
  smartAccountStatus (hooks s') = S_initializing
  /\ isLoading (hooks s') = true /\ error (hooks s') = None
  /\ delegate_calls (loop s') = S (delegate_calls (loop s))
  /\ returned (loop s') = returned (loop s)
  /\ next_call (loop s') = next_call (loop s)
  /\ tasks (loop s')
     = (tasks (loop s) ++ [{| call_id := id; awaiting := AwaitDelegate w |}])%list.
Proof. intros E. unfold init_begin. rewrite E. repeat split. Qed.

(** X4.  [initSmartAccount] does not serialise first-time calls: in a state
    with an authenticated session, a privy wallet, no cached handle and no
    watcher, a call starts a construction whatever [isLoading] says and
    however many constructions are already in flight, and a second call made
    before the first construction settles starts another one. *)
Theorem concurrent_calls_both_construct (s : State) (w : Wallet) :
  authenticated (auth s) = true -> user (auth s) = true -> no_handle s ->
  walletReadyPromiseRef (refs s) = None ->
  embeddedWallet (wallets (auth s)) = Some w ->
  let n := next_call (loop s) in
  let s2 := initSmartAccount (initSmartAccount s) in
  delegate_calls (loop s2) = S (S (delegate_calls (loop s)))
  /\ tasks (loop s2)
     = (tasks (loop s)
        ++ [{| call_id := n; awaiting := AwaitDelegate w |};
            {| call_id := S n; awaiting := AwaitDelegate w |}])%list
  /\ returned (loop s2) = returned (loop s)
  /\ smartAccountStatus (hooks s2) = S_initializing.
Proof.
  intros Ha Hu Hn Hp Hw n s2. subst n s2.
  pose proof (initSmartAccount_no_watcher s Ha Hu Hn Hp) as E1.
  destruct (init_begin_starts (next_call (loop s)) (wallets (auth s))
              (set_next_call (S (next_call (loop s))) s) w Hw)
    as (A1 & A2 & A3 & A4 & A5 & A6 & A7).
  rewrite <- E1 in A1, A2, A3, A4, A5, A6, A7.
  set (s1 := initSmartAccount s) in *.
  assert (Ha1 : auth s1 = auth s) by apply auth_initSmartAccount.
  assert (Hh1 : smartAccountClient (hooks s1) = smartAccountClient (hooks s)
                /\ smartAccountAddress (hooks s1) = smartAccountAddress (hooks s)).
  { subst s1. rewrite E1. unfold init_begin. rewrite Hw. split; reflexivity. }
  assert (Hn1 : no_handle s1)
    by (unfold no_handle; destruct Hh1 as [-> ->]; exact Hn).
  assert (Hp1 : walletReadyPromiseRef (refs s1) = None).
  { destruct (core_eq _ _ (core_initSmartAccount s)) as [Er _].
    subst s1. now rewrite Er. }
  pose proof (initSmartAccount_no_watcher s1) as E2.
  rewrite Ha1 in E2. specialize (E2 Ha Hu Hn1 Hp1).
  destruct (init_begin_starts (next_call (loop s1)) (wallets (auth s))
              (set_next_call (S (next_call (loop s1))) s1) w Hw)
    as (B1 & B2 & B3 & B4 & B5 & B6 & B7).
  rewrite <- E2 in B1, B2, B3, B4, B5, B6, B7.
  cbn [set_next_call with_loop loop delegate_calls returned tasks next_call]
    in A4, A5, A6, A7, B4, B5, B7.
  rewrite B4, B7, B5, A4, A5, A7, A6, <- app_assoc. repeat split; assumption.
Qed.

Lemma concurrent_calls_both_construct_witness :
  let s := with_auth {| ready := true; authenticated := true; user := true;
                        wallets := [privy_wallet] |} initial in
  authenticated (auth s) = true /\ user (auth s) = true /\ no_handle s
  /\ walletReadyPromiseRef (refs s) = None
  /\ embeddedWallet (wallets (auth s)) = Some privy_wallet
  /\ delegate_calls (loop (initSmartAccount (initSmartAccount s))) = 2.
Proof.
  intros s.
  assert (Ha : authenticated (auth s) = true) by reflexivity.
  assert (Hu : user (auth s) = true) by reflexivity.
  assert (Hn : no_handle s) by (left; reflexivity).
  assert (Hp : walletReadyPromiseRef (refs s) = None) by reflexivity.
  assert (Hw : embeddedWallet (wallets (auth s)) = Some privy_wallet) by reflexivity.
  destruct (concurrent_calls_both_construct s privy_wallet Ha Hu Hn Hp Hw)
    as (H1 & _).
  split; [exact Ha|]. split; [exact Hu|]. split; [exact Hn|]. split; [exact Hp|].
  split; [exact Hw|exact H1].
Defined.


Lemma handle_delegate_settles id o s w :
  In {| call_id := id; awaiting := AwaitDelegate w |} (tasks (loop s)) ->
  handle (DelegateSettles id o) s
  = init_resume_delegate id o
      (set_tasks (List.filter (fun t => negb (is_delegate_task id t))
                    (tasks (loop s))) s).
Proof.
  intros Hin. cbn [handle].
  assert (E : existsb (is_delegate_task id) (tasks (loop s)) = true).
  { apply existsb_exists. eexists. split; [exact Hin|].
    unfold is_delegate_task. cbn. apply Nat.eqb_refl. }
  now rewrite E.
Qed.

Lemma tasks_unsettled_filter f s :
  tasks_unsettled s -> tasks_unsettled (set_tasks (List.filter f (tasks (loop s))) s).
Proof.
  intros H t p ws Hin Ha. cbn [set_tasks with_loop loop tasks] in Hin.
  apply filter_In in Hin. exact (H t p ws (proj1 Hin) Ha).
Qed.

Lemma init_resume_delegate_success id a0 l c a s :
  let s' := init_resume_delegate id (AccountsThen (Some (a0 :: l)) (inr (c, a))) s in
  hooks s' = {| smartAccountClient := Some c; smartAccountAddress := Some a;
                isLoading := false; error := error (hooks s);
                smartAccountStatus := S_ready |}
  /\ refs s' = refs_none
  /\ timers (loop s') = timers (loop (clearWalletReadinessWatcher s))
  /\ promises (loop s') = promises (loop s)
  /\ tasks (loop s') = tasks (loop s)
  /\ returned (loop s')
     = (returned (loop s) ++ [(id, Normal (Some (c, a)))])%list
  /\ delegate_calls (loop s') = delegate_calls (loop s).
Proof.
  unfold init_resume_delegate, try_catch_finally, init_construct, init_finally.
  cbn [fst snd finish set_returned with_loop setIsLoading setSmartAccountStatus
       setSmartAccountAddress setSmartAccountClient with_hooks hooks refs loop
       smartAccountClient smartAccountAddress isLoading error smartAccountStatus
       timers promises tasks returned delegate_calls].
  rewrite clear_hooks, clear_refs, clear_promises.
  destruct (calls_inv _ _ (calls_clear s)) as (E1 & _ & E3 & E4).
  rewrite E1, E3, E4. repeat split.
Qed.

Lemma init_resume_delegate_failure id o e s :
  construction_error o = Some e ->
  init_resume_delegate id o s
  = finish id (Normal None)
      (setIsLoading false
         (setSmartAccountStatus S_error
            (setError (Some (message_or e "Failed to initialize smart account")) s))).
Proof.
  intros Ho. unfold init_resume_delegate, try_catch_finally.
  now rewrite (init_construct_error o e s Ho).
Qed.

Lemma autoInitEffect_cached s :
  is_Some (smartAccountClient (hooks s)) -> autoInitEffect s = s.
Proof.
  intros H. unfold autoInitEffect.
  rewrite (bool_decide_eq_true_2 _ H). cbn [negb].
  now rewrite andb_false_r, andb_false_l.
Qed.

(** X5.  When the construction that a parked call waits for succeeds, by the
    end of that turn the client and the address are cached, the status is
    [ready], [isLoading] is false, any watcher is cleared (no refs, no armed
    timer), the call returns the new handle, and no further construction is
    started. *)
Theorem successful_construction_is_cached
    (s : State) (id : nat) (w : Wallet) (a0 : Address) (l : list Address)
    (c : SmartAccountClient) (a : Address) :
  Inv s ->
  In {| call_id := id; awaiting := AwaitDelegate w |} (tasks (loop s)) ->
  let s' := step (DelegateSettles id (AccountsThen (Some (a0 :: l)) (inr (c, a)))) s in
  smartAccountClient (hooks s') = Some c
  /\ smartAccountAddress (hooks s') = Some a
  /\ smartAccountStatus (hooks s') = S_ready
  /\ isLoading (hooks s') = false
  /\ refs s' = refs_none /\ timers (loop s') = []
  /\ In (id, Normal (Some (c, a))) (returned (loop s'))
  /\ delegate_calls (loop s') = delegate_calls (loop s).
Proof.
  intros [Hs Hu] Hin s'. subst s'. unfold step, step_batched.
  rewrite (handle_delegate_settles id _ s w Hin).
  set (s1 := set_tasks _ s).
  destruct (init_resume_delegate_success id a0 l c a s1)
    as (Hh & Hr & Ht & Hp & Hk & Hret & Hd).
  set (h := init_resume_delegate id _ s1) in *.
  assert (Hin1 : timers_in_ref s1)
    by (apply (timers_in_ref_eq s); [reflexivity..|now apply shape_timers_in_ref]).
  rewrite (clear_timers_in_ref s1 Hin1) in Ht.
  assert (Hu1 : tasks_unsettled h).
  { apply (tasks_unsettled_same s1); [exact Hk|exact Hp|].
    subst s1. now apply tasks_unsettled_filter. }
  destruct (run_microtasks_parked h Hu1) as (M1 & M2 & M3).
  destruct (core_eq _ _ (core_run_microtasks h)) as (C1 & C2 & _).
  set (m := run_microtasks h) in *.
  assert (Hc : is_Some (smartAccountClient (hooks m)))
    by (rewrite M1, Hh; cbn; eauto).
  assert (E : (if autoInit_deps_changed s m then autoInitEffect m else m) = m)
    by (destruct (autoInit_deps_changed s m); [now apply autoInitEffect_cached|reflexivity]).
  rewrite E, M1, Hh, C1, C2, Hr, Ht, M2, M3, Hret, Hd.
  cbn [smartAccountClient smartAccountAddress smartAccountStatus isLoading].
  repeat split. apply in_or_app. right. now left.
Qed.

Lemma successful_construction_is_cached_witness :
  let s := run [AuthChanged true true true [privy_wallet]] initial in
  let s' := step (DelegateSettles 0 construction_ok) s in
  Inv s
  /\ In {| call_id := 0; awaiting := AwaitDelegate privy_wallet |} (tasks (loop s))
  /\ smartAccountStatus (hooks s') = S_ready
  /\ smartAccountClient (hooks s') = Some 7.
Proof.
  intros s s'.
  assert (HI : Inv s) by apply Inv_run, Inv_initial.
  assert (Hin : In {| call_id := 0; awaiting := AwaitDelegate privy_wallet |}
                  (tasks (loop s))) by (vm_compute; left; reflexivity).
  destruct (successful_construction_is_cached s 0 privy_wallet "0x1111" [] 7 "0xbeef"
              HI Hin) as (H1 & _ & H3 & _).
  split; [exact HI|]. split; [exact Hin|]. split; [exact H3|exact H1].
Defined.

(** X6.  A failed construction is retried in the same turn.  In a ready,
    authenticated session with a privy wallet and no cached client, when the
    construction of a call fails while [isLoading] is true, the call returns
    null, and the re-render that follows (the auto-initialisation effect
    depends on [isLoading]) calls [initSmartAccount] again: at the end of the
    turn one more construction has been started, the status is
    [initializing] and the stored error is cleared again. *)
Theorem failed_construction_is_retried_at_once
    (s : State) (id : nat) (w w' : Wallet) (o : DelegateOutcome) (e : Thrown) :
  Inv s -> watcher_without_wallet s ->
  ready (auth s) = true -> authenticated (auth s) = true -> user (auth s) = true ->
  embeddedWallet (wallets (auth s)) = Some w ->
  smartAccountClient (hooks s) = None -> isLoading (hooks s) = true ->
  In {| call_id := id; awaiting := AwaitDelegate w' |} (tasks (loop s)) ->
  construction_error o = Some e ->
  let s' := step (DelegateSettles id o) s in
  In (id, Normal None) (returned (loop s'))
  /\ delegate_calls (loop s') = S (delegate_calls (loop s))
  /\ smartAccountStatus (hooks s') = S_initializing
  /\ error (hooks s') = None
  /\ isLoading (hooks s') = true.
Proof.
  intros [Hs Hu] Hww Hr Ha Hus Hw Hc Hl Hin Ho s'. subst s'. unfold step, step_batched.
  rewrite (handle_delegate_settles id o s w' Hin).
  set (s1 := set_tasks _ s).
  rewrite (init_resume_delegate_failure id o e s1 Ho).
  set (h := finish id _ _).
  assert (Hu1 : tasks_unsettled h)
    by (apply (tasks_unsettled_same s1); [reflexivity..|];
        subst s1; now apply tasks_unsettled_filter).
  destruct (run_microtasks_parked h Hu1) as (M1 & M2 & M3).
  destruct (core_eq _ _ (core_run_microtasks h)) as (C1 & _).
  pose proof (auth_run_microtasks h) as A1.
  set (m := run_microtasks h) in *.
  assert (Hdeps : autoInit_deps_changed s m = true).
  { unfold autoInit_deps_changed. rewrite M1. subst h. cbn [hooks finish set_returned
      with_loop setIsLoading setSmartAccountStatus setError with_hooks isLoading].
    rewrite Hl. rewrite (bool_decide_eq_false_2 (true = false)) by discriminate.
    now rewrite andb_false_r. }
  rewrite Hdeps.
  assert (Hwallets : negb (Nat.eqb (length (wallets (auth s))) 0) = true).
  { destruct (wallets (auth s)); [discriminate|reflexivity]. }
  assert (Hcm : smartAccountClient (hooks m) = None) by (rewrite M1; exact Hc).
  assert (Hlm : isLoading (hooks m) = false) by (rewrite M1; reflexivity).
  assert (Eauto : autoInitEffect m = initSmartAccount m).
  { unfold autoInitEffect.
    assert (Ea : auth m = auth s) by (rewrite A1; reflexivity).
    rewrite Ea, Hr, Ha, Hwallets, Hcm, Hlm.
    rewrite bool_decide_eq_false_2 by (intros [x Hx]; discriminate).
    reflexivity. }
  rewrite Eauto.
  assert (Ea : auth m = auth s) by (rewrite A1; reflexivity).
  assert (Hpm : walletReadyPromiseRef (refs m) = None).
  { rewrite C1. change (walletReadyPromiseRef (refs s) = None).
    destruct Hww as [Hww|Hww]; [exact Hww|].
    apply embeddedWallet_Some in Hw.
    assert (hasPrivyWallet (wallets (auth s)) = true)
      by (apply hasPrivyWallet_spec; now exists w).
    congruence. }
  rewrite initSmartAccount_no_watcher;
    [|now rewrite Ea|now rewrite Ea|left; exact Hcm|exact Hpm].
  rewrite Ea.
  destruct (init_begin_starts (next_call (loop m)) (wallets (auth s))
              (set_next_call (S (next_call (loop m))) m) w Hw)
    as (B1 & B2 & B3 & B4 & B5 & _).
  rewrite B1, B2, B3, B4, B5.
  cbn [set_next_call with_loop loop delegate_calls returned].
  rewrite M2, M3. subst h. cbn [finish set_returned with_loop loop returned
    delegate_calls setIsLoading setSmartAccountStatus setError with_hooks].
  repeat split. apply in_or_app. right. now left.
Qed.


Lemma failed_construction_is_retried_at_once_witness :
  let s := run [AuthChanged true true true [privy_wallet]] initial in
  let s' := step (DelegateSettles 0 (ProviderThrows NonError)) s in
  Inv s /\ watcher_without_wallet s
  /\ isLoading (hooks s) = true
  /\ construction_error (ProviderThrows NonError) = Some NonError
  /\ delegate_calls (loop s') = 2
  /\ smartAccountStatus (hooks s') = S_initializing
  /\ error (hooks s') = None.
Proof.
  intros s s'.
  assert (HI : Inv s) by apply Inv_run, Inv_initial.
  assert (Hww : watcher_without_wallet s) by apply stale_invariant.
  assert (Hr : ready (auth s) = true) by reflexivity.
  assert (Ha : authenticated (auth s) = true) by reflexivity.
  assert (Hu : user (auth s) = true) by reflexivity.
  assert (Hw : embeddedWallet (wallets (auth s)) = Some privy_wallet) by reflexivity.
  assert (Hc : smartAccountClient (hooks s) = None) by reflexivity.
  assert (Hl : isLoading (hooks s) = true) by reflexivity.
  assert (Hin : In {| call_id := 0; awaiting := AwaitDelegate privy_wallet |}
                  (tasks (loop s))) by (vm_compute; left; reflexivity).
  assert (Ho : construction_error (ProviderThrows NonError) = Some NonError)
    by reflexivity.
  destruct (failed_construction_is_retried_at_once s 0 privy_wallet privy_wallet
              (ProviderThrows NonError) NonError HI Hww Hr Ha Hu Hw Hc Hl Hin Ho)
    as (_ & H2 & H3 & H4 & _).
  split; [exact HI|]. split; [exact Hww|]. split; [exact Hl|]. split; [exact Ho|].
  split; [exact H2|]. split; [exact H3|exact H4].
Defined.


(** ** [isLoading] and [initializing] *)

(** A construction is awaited by one of the parked calls. *)
Definition in_flight (ts : list Task) : Prop :=
  exists t w, In t ts /\ awaiting t = AwaitDelegate w.

Definition busy (h : Hooks) : Prop :=
  isLoading h = true \/ smartAccountStatus h = S_initializing.

Definition busy_in_flight (s : State) : Prop :=
  busy (hooks s) -> in_flight (tasks (loop s)).

(** [s'] is no busier than [s] and awaits at least the constructions of [s]. *)
Definition calm (s s' : State) : Prop :=
  (busy (hooks s') -> busy (hooks s))
  /\ (in_flight (tasks (loop s)) -> in_flight (tasks (loop s'))).

Lemma calm_refl s : calm s s.
Proof. split; auto. Qed.

Lemma calm_trans s1 s2 s3 : calm s1 s2 -> calm s2 s3 -> calm s1 s3.
Proof. intros [A1 A2] [B1 B2]. split; auto. Qed.

Lemma calm_keeps s s' : calm s s' -> busy_in_flight s -> busy_in_flight s'.
Proof. intros [A1 A2] H Hb. apply A2, H, A1, Hb. Qed.

Lemma calm_same s s' :
  hooks s' = hooks s -> tasks (loop s') = tasks (loop s) -> calm s s'.
Proof. intros Eh Et. unfold calm. rewrite Eh, Et. split; auto. Qed.

Lemma calm_status v s : v <> S_initializing -> calm s (setSmartAccountStatus v s).
Proof.
  intros Hv. split; [|auto]. unfold busy.
  cbn [setSmartAccountStatus with_hooks hooks isLoading smartAccountStatus].
  intros [H|H]; [now left|congruence].
Qed.

Lemma calm_error v s : calm s (setError v s).
Proof. split; auto. Qed.

Lemma calm_not_loading s : calm s (setIsLoading false s).
Proof.
  split; [|auto]. unfold busy.
  cbn [setIsLoading with_hooks hooks isLoading smartAccountStatus].
  intros [H|H]; [discriminate|now right].
Qed.

Lemma calm_finish id r s : calm s (finish id r s).
Proof. now apply calm_same. Qed.

Lemma calm_suspend id k s : calm s (suspend id k s).
Proof.
  split; [auto|]. intros (t & w & Hin & Ha). exists t, w.
  split; [|exact Ha]. rewrite tasks_suspend. apply in_or_app. now left.
Qed.

Lemma calm_clear s : calm s (clearWalletReadinessWatcher s).
Proof. apply calm_same; [apply clear_hooks|apply clear_tasks]. Qed.

Lemma calm_create s : calm s (createWalletReadinessWatcher s).
Proof.
  destruct (create_frame s) as [_ Eh].
  eapply calm_trans; [apply (calm_status S_waiting_for_wallet); discriminate|].
  apply calm_same; [exact Eh|].
  rewrite tasks_setSmartAccountStatus. apply tasks_of_calls, calls_create.
Qed.

Lemma calm_call_resolver s : calm s (call_resolver s).
Proof.
  destruct (call_resolver_frame s) as (_ & _ & _ & Eh & Et). now apply calm_same.
Qed.

Lemma calm_timeout_callback p s : calm s (timeout_callback p s).
Proof.
  eapply calm_trans; [apply (calm_status S_error); discriminate|].
  eapply calm_trans; [apply (calm_error (Some TIMEOUT_MESSAGE))|].
  apply calm_same; [apply timeout_callback_hooks|].
  rewrite timeout_callback_tasks. reflexivity.
Qed.

Lemma calm_fire_due fuel s : calm s (fire_due fuel s).
Proof.
  revert s. induction fuel as [|fuel IH]; intros s; [apply calm_refl|].
  cbn [fire_due]. destruct (List.find _ _) as [t|]; [|apply calm_refl].
  eapply calm_trans; [|apply IH].
  eapply calm_trans; [|apply calm_timeout_callback].
  split; [auto|]. intros (t' & w & Hin & Ha).
  exists t', w. split; [exact Hin|exact Ha].
Qed.

Lemma calm_set_bootstrap_cleanup b s : calm s (set_bootstrap_cleanup b s).
Proof. now apply calm_same. Qed.

Lemma calm_bootstrapCleanup s : calm s (bootstrapCleanup s).
Proof.
  unfold bootstrapCleanup.
  destruct (bootstrap_cleanup (loop s)); [apply calm_clear|apply calm_refl].
Qed.

Lemma calm_bootstrapEffect s : calm s (bootstrapEffect s).
Proof.
  unfold bootstrapEffect.
  destruct (negb (ready (auth s)) || negb (authenticated (auth s))).
  - eapply calm_trans; [apply calm_clear|].
    eapply calm_trans; [apply (calm_status S_idle); discriminate|].
    apply calm_set_bootstrap_cleanup.
  - destruct (hasPrivyWallet (wallets (auth s))).
    + eapply calm_trans; [apply calm_call_resolver|].
      eapply calm_trans; [apply calm_clear|apply calm_set_bootstrap_cleanup].
    + destruct (walletReadyPromiseRef (refs s)); [apply calm_set_bootstrap_cleanup|].
      eapply calm_trans; [apply calm_create|apply calm_set_bootstrap_cleanup].
Qed.

Lemma init_begin_busy_in_flight id ws s :
  (in_flight (tasks (loop s)) -> in_flight (tasks (loop (init_begin id ws s))))
  /\ busy_in_flight (init_begin id ws s).
Proof.
  unfold init_begin. destruct (embeddedWallet ws) as [w|].
  - assert (G : in_flight (tasks (loop (suspend id (AwaitDelegate w)
                  (set_delegate_calls
                     (S (delegate_calls (loop (setError None
                        (setSmartAccountStatus S_initializing (setIsLoading true s))))))
                     (setError None
                        (setSmartAccountStatus S_initializing (setIsLoading true s)))))))).
    { exists {| call_id := id; awaiting := AwaitDelegate w |}, w.
      split; [|reflexivity]. rewrite tasks_suspend. apply in_or_app. right. now left. }
    split; [intros _; exact G|intros _; exact G].
  - split; [auto|]. intros [H|H]; discriminate.
Qed.

Lemma busy_in_flight_init_begin id ws s :
  busy_in_flight s -> busy_in_flight (init_begin id ws s).
Proof. intros _. apply init_begin_busy_in_flight. Qed.

Lemma calm_init_wait_rejected id e s : calm s (init_wait_rejected id e s).
Proof.
  unfold init_wait_rejected.
  eapply calm_trans; [apply calm_error|].
  eapply calm_trans; [apply (calm_status S_error); discriminate|apply calm_finish].
Qed.

Lemma busy_in_flight_init_resume_delegate id o s :
  busy_in_flight (init_resume_delegate id o s).
Proof.
  unfold init_resume_delegate, try_catch_finally, init_construct.
  destruct o as [e|[[|a l]|] [e|[c a']]]; intros [H|H]; discriminate.
Qed.

Lemma busy_in_flight_initSmartAccount s :
  busy_in_flight s -> busy_in_flight (initSmartAccount s).
Proof.
  intros H. unfold initSmartAccount.
  assert (H0 : forall r, busy_in_flight
                 (finish (next_call (loop s)) r
                    (set_next_call (S (next_call (loop s))) s))) by (intros r; exact H).
  destruct (negb (authenticated (auth s)) || negb (user (auth s))); [apply H0|].
  assert (G : busy_in_flight
    match walletReadyPromiseRef (refs (set_next_call (S (next_call (loop s))) s)) with
    | Some p =>
        suspend (next_call (loop s)) (AwaitWatcher p (wallets (auth s)))
          (setSmartAccountStatus S_waiting_for_wallet
             (set_next_call (S (next_call (loop s))) s))
    | None => init_begin (next_call (loop s)) (wallets (auth s))
                (set_next_call (S (next_call (loop s))) s)
    end).
  { destruct (walletReadyPromiseRef _).
    - apply (calm_keeps (set_next_call (S (next_call (loop s))) s)); [|exact H].
      eapply calm_trans;
        [apply (calm_status S_waiting_for_wallet); discriminate|apply calm_suspend].
    - apply init_begin_busy_in_flight. }
  destruct (smartAccountClient (hooks s)), (smartAccountAddress (hooks s));
    try exact G; apply H0.
Qed.

Lemma busy_in_flight_autoInitEffect s :
  busy_in_flight s -> busy_in_flight (autoInitEffect s).
Proof.
  intros H. unfold autoInitEffect.
  destruct (_ && _); [now apply busy_in_flight_initSmartAccount|exact H].
Qed.

Lemma busy_in_flight_run_microtasks s :
  busy_in_flight s -> busy_in_flight (run_microtasks s).
Proof.
  intros H. unfold run_microtasks.
  assert (G : forall ts acc,
            (busy (hooks acc) -> in_flight (ts ++ tasks (loop acc))%list) ->
            busy_in_flight (fold_left (fun a t => resume_watcher t a) ts acc)).
  { intros ts. induction ts as [|t ts IH]; intros acc Hacc; [exact Hacc|].
    cbn [fold_left]. apply IH.
    assert (Hsus : busy (hooks (suspend (call_id t) (awaiting t) acc)) ->
                   in_flight (ts ++ tasks (loop (suspend (call_id t) (awaiting t) acc)))%list).
    { intros Hb. destruct (Hacc Hb) as (t' & w & Hin & Ha).
      rewrite tasks_suspend. cbn [app] in Hin. destruct Hin as [<-|Hin].
      - exists {| call_id := call_id t; awaiting := awaiting t |}, w.
        split; [|exact Ha]. apply in_or_app. right. apply in_or_app. right. now left.
      - exists t', w. split; [|exact Ha]. apply in_app_or in Hin.
        apply in_or_app. destruct Hin as [Hin|Hin]; [now left|].
        right. apply in_or_app. now left. }
    unfold resume_watcher. revert Hsus.
    destruct (awaiting t) as [p ws|w] eqn:Eaw; intros Hsus; [|exact Hsus].
    destruct (promises (loop acc) !! p) as [[| |e]|]; try exact Hsus.
    - intros Hb. destruct (init_begin_busy_in_flight (call_id t) ws acc) as [_ Hbi].
      destruct (Hbi Hb) as (t' & w & Hin & Ha). exists t', w.
      split; [apply in_or_app; now right|exact Ha].
    - intros Hb. destruct (calm_init_wait_rejected (call_id t) e acc) as [Hc1 _].
      destruct (Hacc (Hc1 Hb)) as (t' & w & Hin & Ha).
      cbn [app] in Hin. destruct Hin as [<-|Hin]; [congruence|].
      exists t', w. split; [exact Hin|exact Ha]. }
  apply G. cbn [set_tasks with_loop loop tasks hooks]. rewrite app_nil_r. exact H.
Qed.

Lemma busy_in_flight_handle e s : busy_in_flight s -> busy_in_flight (handle e s).
Proof.
  revert s. induction e as [r a u ws| | |ms|id o|u|e IH]; intros s H; cbn [handle].
  - apply busy_in_flight_autoInitEffect.
    apply (calm_keeps s); [|exact H].
    eapply calm_trans; [|apply calm_bootstrapEffect].
    eapply calm_trans; [|apply calm_bootstrapCleanup]. now apply calm_same.
  - now apply busy_in_flight_initSmartAccount.
  - unfold retryWalletCreation.
    destruct (hasPrivyWallet (wallets (auth s)));
      apply busy_in_flight_initSmartAccount; (apply (calm_keeps s); [|exact H]).
    + eapply calm_trans; [apply (calm_error None)|].
      eapply calm_trans; [apply calm_clear|].
      eapply calm_trans; [apply calm_call_resolver|apply calm_clear].
    + eapply calm_trans; [apply (calm_error None)|].
      eapply calm_trans; [apply calm_clear|apply calm_create].
  - apply (calm_keeps s); [|exact H].
    eapply calm_trans; [|apply calm_fire_due]. now apply calm_same.
  - destruct (existsb _ _); [apply busy_in_flight_init_resume_delegate|exact H].
  - apply busy_in_flight_autoInitEffect.
    apply (calm_keeps s); [|exact H]. now apply calm_same.
  - now apply IH.
Qed.


Lemma busy_in_flight_step e s : busy_in_flight s -> busy_in_flight (step e s).
Proof.
  intros H. apply (step_preserves busy_in_flight).
  - now apply busy_in_flight_handle.
  - apply busy_in_flight_run_microtasks.
  - apply busy_in_flight_autoInitEffect.
Qed.

(** X10.  In every reachable state, [isLoading] is true or the status is
    [initializing] only while some call of [initSmartAccount] is parked
    inside a construction. *)
Theorem loading_only_while_constructing (es : list Event) :
  let s := run es initial in
  isLoading (hooks s) = true \/ smartAccountStatus (hooks s) = S_initializing ->
  exists t w, In t (tasks (loop s)) /\ awaiting t = AwaitDelegate w.
Proof.
  assert (G : forall es s, busy_in_flight s -> busy_in_flight (run es s)).
  { clear es. intros es. induction es as [|e es IH]; intros s H; [exact H|].
    rewrite run_cons. now apply IH, busy_in_flight_step. }
  apply (G es initial). intros [H|H]; discriminate.
Qed.

Lemma loading_only_while_constructing_witness :
  let s := run [AuthChanged true true true [privy_wallet]] initial in
  isLoading (hooks s) = true
  /\ exists t w, In t (tasks (loop s)) /\ awaiting t = AwaitDelegate w.
Proof.
  intros s.
  assert (Hl : isLoading (hooks s) = true) by reflexivity.
  split; [exact Hl|].
  exact (loading_only_while_constructing
           [AuthChanged true true true [privy_wallet]] (or_introl Hl)).
Defined.


(** ** A cancelled watcher *)

Lemma elapse_idle_run dts s :
  Inv s -> timers (loop s) = [] ->
  hooks (run (map Elapse dts) s) = hooks s
  /\ timers (loop (run (map Elapse dts) s)) = []
  /\ promises (loop (run (map Elapse dts) s)) = promises (loop s).
Proof.
  revert s. induction dts as [|dt dts IH]; intros s HI Ht; [repeat split; exact Ht|].
  cbn [map]. rewrite run_cons.
  destruct (elapse_idle dt s HI Ht) as (H1 & H2 & H3).
  destruct (IH (step (Elapse dt) s) (Inv_step _ _ HI) H2) as (G1 & G2 & G3).
  rewrite G1, G2, G3, H1, H3. repeat split.
Qed.

Lemma auth_lost_step (s : State) (r a u : bool) (ws : list Wallet) :
  Inv s -> negb r || negb a = true ->
  let s' := step (AuthChanged r a u ws) s in
  smartAccountStatus (hooks s') = S_idle
  /\ refs s' = refs_none /\ timers (loop s') = []
  /\ smartAccountClient (hooks s') = smartAccountClient (hooks s)
  /\ smartAccountAddress (hooks s') = smartAccountAddress (hooks s).
Proof.
  intros [Hs Hu] H s'. pose proof (handle_auth_lost r a u ws s H) as Hh.
  set (s0 := with_auth {| ready := r; authenticated := a; user := u; wallets := ws |} s)
    in *.
  destruct (bootstrapCleanup_frame s0) as (_ & Hhk & Hpr).
  assert (Hhooks : hooks (handle (AuthChanged r a u ws) s)
                   = hooks (setSmartAccountStatus S_idle s)).
  { rewrite Hh. cbn [set_bootstrap_cleanup setSmartAccountStatus with_loop with_hooks hooks].
    now rewrite clear_hooks, Hhk. }
  destruct (step_parked (AuthChanged r a u ws) s eq_refl) as (H1 & H2 & _).
  - apply (tasks_unsettled_same s); [| |exact Hu]; rewrite Hh.
    + apply tasks_of_calls.
      change (calls (clearWalletReadinessWatcher (bootstrapCleanup s0)) = calls s).
      now rewrite calls_clear, calls_bootstrapCleanup.
    + cbn [set_bootstrap_cleanup setSmartAccountStatus with_loop with_hooks loop promises].
      now rewrite clear_promises, Hpr.
  - apply autoInit_deps_same3; now rewrite Hhooks.
  - subst s'. rewrite H1, Hhooks.
    assert (Hshape : watcher_shape (core (bootstrapCleanup s0)))
      by (apply bootstrapCleanup_shape; exact Hs).
    pose proof (shape_timers_in_ref _ Hshape) as Hin.
    pose proof (f_equal (fun c : Core => c.1.1.1.1.1) H2) as E1.
    pose proof (f_equal (fun c : Core => c.1.1.1.1.2) H2) as E2.
    cbn [core fst snd] in E1, E2. rewrite E1, E2, Hh.
    change (refs (set_bootstrap_cleanup false (setSmartAccountStatus S_idle
              (clearWalletReadinessWatcher (bootstrapCleanup s0)))))
      with (refs (clearWalletReadinessWatcher (bootstrapCleanup s0))).
    change (timers (loop (set_bootstrap_cleanup false (setSmartAccountStatus S_idle
              (clearWalletReadinessWatcher (bootstrapCleanup s0))))))
      with (timers (loop (clearWalletReadinessWatcher (bootstrapCleanup s0)))).
    rewrite clear_refs, (clear_timers_in_ref _ Hin). repeat split.
Qed.

(** X11.  Once authentication (or readiness) is lost the cancelled watcher
    has no effect any more: however much time passes afterwards, the status
    stays [idle], the stored error stays what it was, no promise is settled
    and no timer is armed. *)
Theorem cancelled_watcher_never_fires
    (s : State) (r a u : bool) (ws : list Wallet) (dts : list N) :
  Inv s -> negb r || negb a = true ->
  let s1 := step (AuthChanged r a u ws) s in
  let s2 := run (map Elapse dts) s1 in
  smartAccountStatus (hooks s2) = S_idle
  /\ error (hooks s2) = error (hooks s1)
  /\ promises (loop s2) = promises (loop s1)
  /\ timers (loop s2) = [].
Proof.
  intros HI H s1 s2.
  destruct (auth_lost_step s r a u ws HI H) as (H1 & _ & H2 & _).
  destruct (elapse_idle_run dts s1 (Inv_step _ _ HI) H2) as (G1 & G2 & G3).
  subst s2. rewrite G1, G2, G3. repeat split. exact H1.
Qed.


Lemma cancelled_watcher_never_fires_witness :
  let s := run [AuthChanged true true true []] initial in
  let s2 := run (map Elapse [25000; 25000]%N) (step (AuthChanged true false false []) s) in
  Inv s /\ negb true || negb false = true
  /\ timers (loop s) = [new_timer initial]
  /\ smartAccountStatus (hooks s2) = S_idle /\ error (hooks s2) = None.
Proof.
  intros s s2.
  assert (HI : Inv s) by apply Inv_run, Inv_initial.
  assert (H : negb true || negb false = true) by reflexivity.
  destruct (cancelled_watcher_never_fires s true false false [] [25000; 25000]%N HI H)
    as (H1 & H2 & _).
  split; [exact HI|]. split; [exact H|]. split; [reflexivity|]. split; [exact H1|].
  fold s2 in H2. rewrite H2. vm_compute. reflexivity.
Defined.

(** ** Wallet-list notifications while waiting *)

Lemma core_step e s : core (step e s) = core (handle e s).
Proof.
  apply (step_preserves (fun x => core x = core (handle e s))).
  - reflexivity.
  - intros x Hx. now rewrite core_run_microtasks.
  - intros x Hx. now rewrite core_autoInitEffect.
Qed.

(** X12.  The bound restarts whenever the wallet list changes without
    bringing a privy wallet.  When the bootstrap effect created the current
    watcher (its cleanup is registered) and [useWallets] delivers another
    wallet list that still has no privy wallet (an external wallet connects,
    say), the cleanup discards the watcher unsettled, its timer is cancelled,
    and a new watcher is armed for a full 25000 ms from now.  A render in
    which only [user] is new does not re-run the bootstrap effect: the
    watcher, its timer, its deadline and the promises are what they were. *)
Theorem wallet_notification_rearms_watcher (s : State) (u : bool) (ws : list Wallet) :
  Inv s -> bootstrap_cleanup (loop s) = true -> hasPrivyWallet ws = false ->
  ws <> wallets (auth s) ->
  let s' := step (AuthChanged true true u ws) s in
  let s'' := step (UserChanged u) s in
  (timers (loop s') = [new_timer s] /\ refs s' = refs_of (new_timer s)
   /\ timer_deadline (new_timer s) = (clock (loop s) + 25000)%N
   /\ promises (loop s') !! next_promise (loop s) = Some Pending
   /\ forall t, In t (timers (loop s)) ->
        ~ In t (timers (loop s'))
        /\ promises (loop s') !! timer_promise t = Some Pending)
  /\ (timers (loop s'') = timers (loop s) /\ refs s'' = refs s
      /\ clock (loop s'') = clock (loop s)
      /\ promises (loop s'') = promises (loop s)).
Proof.
  intros [Hs _] Hflag Hw _ s' s''. split; cycle 1.
  { assert (Hc : core s'' = core s).
    { subst s''. rewrite core_step. cbn [handle].
      now rewrite core_autoInitEffect, core_with_auth. }
    destruct (core_eq _ _ Hc) as (Er & Et & Ec & Ep & _).
    split; [exact Et|]. split; [exact Er|]. split; [exact Ec|exact Ep]. }
  set (s0 := with_auth {| ready := true; authenticated := true; user := u;
                          wallets := ws |} s).
  assert (Hin0 : timers_in_ref s0)
    by (apply (timers_in_ref_eq s); [reflexivity..|now apply shape_timers_in_ref]).
  assert (E1 : bootstrapCleanup s0 = clearWalletReadinessWatcher s0)
    by (unfold bootstrapCleanup; change (bootstrap_cleanup (loop s0))
          with (bootstrap_cleanup (loop s)); now rewrite Hflag).
  set (x1 := clearWalletReadinessWatcher s0) in *.
  pose proof (core_clear s0 Hin0) as Hc1. fold x1 in Hc1.
  destruct (core_inv _ _ _ _ _ _ _ Hc1) as (Hr1 & Ht1 & Hcl1 & Hp1 & Hnt1 & Hnp1).
  assert (Ha1 : auth x1 = auth s0) by apply clear_auth.
  assert (E2 : bootstrapEffect x1
               = set_bootstrap_cleanup true (createWalletReadinessWatcher x1)).
  { unfold bootstrapEffect. rewrite Ha1, Hr1.
    change (ready (auth s0)) with true. change (authenticated (auth s0)) with true.
    change (wallets (auth s0)) with ws. rewrite Hw. reflexivity. }
  assert (Hin1 : timers_in_ref x1) by (intros t Ht; rewrite Ht1 in Ht; destruct Ht).
  assert (Hnew : new_timer x1 = new_timer s).
  { unfold new_timer. rewrite Hnt1, Hcl1, Hnp1. reflexivity. }
  assert (Hcore : core s'
                  = (refs_of (new_timer s), [new_timer s], clock (loop s),
                     <[next_promise (loop s) := Pending]> (promises (loop s)),
                     Pos.succ (next_timer (loop s)), Pos.succ (next_promise (loop s)))).
  { subst s'. rewrite core_step. cbn [handle]. fold s0.
    rewrite core_autoInitEffect, E1, E2, core_set_bootstrap_cleanup, create_core.
    rewrite Hnew, (clear_timers_in_ref x1 Hin1), Hcl1, Hp1, Hnt1, Hnp1. reflexivity. }
  destruct (core_inv _ _ _ _ _ _ _ Hcore) as (Hr & Ht & _ & Hp & _ & _).
  rewrite Hr, Ht, Hp. split; [reflexivity|]. split; [reflexivity|].
  split; [reflexivity|]. split; [apply lookup_insert_eq|].
  intros t Hin. unfold core, watcher_shape in Hs.
  destruct Hs as [[_ E]|(t' & E & _ & _ & _ & Hpend & Hid & Hpid)];
    rewrite E in Hin; [destruct Hin|].
  destruct Hin as [<-|[]]. split.
  - intros [Eq|[]]. apply (f_equal timer_id) in Eq.
    unfold new_timer in Eq. cbn [timer_id] in Eq. lia.
  - rewrite lookup_insert_ne by lia. exact Hpend.
Qed.

Lemma wallet_notification_rearms_watcher_witness :
  let s := run [AuthChanged true true false []; Elapse 20000] initial in
  let s' := step (AuthChanged true true true [external_wallet]) s in
  let s'' := step (UserChanged true) s in
  Inv s /\ bootstrap_cleanup (loop s) = true
  /\ hasPrivyWallet [external_wallet] = false
  /\ [external_wallet] <> wallets (auth s)
  /\ timers (loop s)
     = [{| timer_id := 1; timer_set_at := 0; timer_delay := 25000; timer_promise := 1 |}]
  /\ timers (loop s')
     = [{| timer_id := 2; timer_set_at := 20000; timer_delay := 25000;
           timer_promise := 2 |}]
  /\ timers (loop s'')
     = [{| timer_id := 1; timer_set_at := 0; timer_delay := 25000; timer_promise := 1 |}].
Proof.
  intros s s' s''.
  assert (HI : Inv s) by apply Inv_run, Inv_initial.
  assert (Hf : bootstrap_cleanup (loop s) = true) by reflexivity.
  assert (Hw : hasPrivyWallet [external_wallet] = false) by reflexivity.
  assert (Hne : [external_wallet] <> wallets (auth s)) by discriminate.
  assert (Ht : timers (loop s)
               = [{| timer_id := 1; timer_set_at := 0; timer_delay := 25000;
                     timer_promise := 1 |}])
    by (vm_compute; reflexivity).
  destruct (wallet_notification_rearms_watcher s true [external_wallet] HI Hf Hw Hne)
    as ((H1 & _) & (H2 & _)).
  split; [exact HI|]. split; [exact Hf|]. split; [exact Hw|]. split; [exact Hne|].
  split; [exact Ht|]. split.
  - fold s' in H1. rewrite H1. vm_compute. reflexivity.
  - unfold s''. rewrite H2. exact Ht.
Defined.


(** ** Automatic initialisation *)

Lemma resume_all_parked_tasks ts s :
  (forall t, In t ts -> parked s t) ->
  tasks (loop (fold_left (fun acc t => resume_watcher t acc) ts s))
  = (tasks (loop s) ++ ts)%list.
Proof.
  revert s. induction ts as [|t ts IH]; intros s H; [now rewrite app_nil_r|].
  cbn [fold_left]. rewrite resume_watcher_parked by (apply H; now left).
  rewrite IH.
  - rewrite tasks_suspend, <- app_assoc. destruct t; reflexivity.
  - intros t' Ht' p ws Ha. exact (H t' (or_intror Ht') p ws Ha).
Qed.

Lemma tasks_run_microtasks_parked s :
  tasks_unsettled s -> tasks (loop (run_microtasks s)) = tasks (loop s).
Proof.
  intros H. unfold run_microtasks. rewrite resume_all_parked_tasks; [reflexivity|].
  intros t Ht p ws Ha. exact (H t p ws Ht Ha).
Qed.

Lemma autoInitEffect_loading s : isLoading (hooks s) = true -> autoInitEffect s = s.
Proof.
  intros H. unfold autoInitEffect. rewrite H. cbn [negb]. now rewrite andb_false_r.
Qed.

(** X13.  Logging in with an embedded wallet starts the construction without
    any call from outside.  In a state with no cached client, [isLoading]
    false and no call parked on a watcher, the notification of a ready,
    authenticated session (with a user) whose wallets include a privy wallet
    leaves no watcher and, through the auto-initialisation effect, exactly
    one more construction started, for the first privy wallet of the list,
    with status [initializing]. *)
Theorem login_with_wallet_starts_construction
    (s : State) (ws : list Wallet) (w : Wallet) :
  Inv s ->
  (forall t, In t (tasks (loop s)) -> exists w', awaiting t = AwaitDelegate w') ->
  smartAccountClient (hooks s) = None -> isLoading (hooks s) = false ->
  embeddedWallet ws = Some w ->
  let s' := step (AuthChanged true true true ws) s in
  smartAccountStatus (hooks s') = S_initializing
  /\ isLoading (hooks s') = true /\ error (hooks s') = None
  /\ delegate_calls (loop s') = S (delegate_calls (loop s))
  /\ tasks (loop s')
     = (tasks (loop s)
        ++ [{| call_id := next_call (loop s); awaiting := AwaitDelegate w |}])%list
  /\ refs s' = refs_none /\ timers (loop s') = [].
Proof.
  intros [Hs _] Hdel Hc Hl Hw s'.
  set (s0 := with_auth {| ready := true; authenticated := true; user := true;
                          wallets := ws |} s).
  assert (Hpw : hasPrivyWallet ws = true).
  { apply hasPrivyWallet_spec. exists w. now apply embeddedWallet_Some. }
  set (x0 := bootstrapCleanup s0).
  destruct (bootstrapCleanup_frame s0) as (Ha0 & Hh0 & _). fold x0 in Ha0, Hh0.
  assert (Hs0 : watcher_shape (core x0))
    by (apply bootstrapCleanup_shape; exact Hs).
  assert (Hk0 : calls x0 = calls s)
    by (subst x0; now rewrite calls_bootstrapCleanup).
  assert (E2 : bootstrapEffect x0
               = set_bootstrap_cleanup false
                   (clearWalletReadinessWatcher (call_resolver x0))).
  { unfold bootstrapEffect. rewrite Ha0.
    change (ready (auth s0)) with true. change (authenticated (auth s0)) with true.
    change (wallets (auth s0)) with ws. now rewrite Hpw. }
  set (x1 := clearWalletReadinessWatcher (call_resolver x0)) in *.
  assert (Hin : timers_in_ref (call_resolver x0))
    by (apply timers_in_ref_call_resolver; now apply shape_timers_in_ref).
  assert (Hr1 : refs x1 = refs_none) by apply clear_refs.
  assert (Ht1 : timers (loop x1) = []) by (apply clear_timers_in_ref; exact Hin).
  assert (Ha1 : auth x1 = auth s0)
    by (subst x1; now rewrite clear_auth, auth_call_resolver).
  assert (Hh1 : hooks x1 = hooks s).
  { subst x1. rewrite clear_hooks.
    destruct (call_resolver_frame x0) as (_ & _ & _ & E & _). now rewrite E. }
  assert (Hk1 : calls x1 = calls s)
    by (subst x1; now rewrite calls_clear, calls_call_resolver).
  destruct (calls_inv _ _ Hk1) as (Kt & Kn & Kr & Kd).
  set (x2 := set_bootstrap_cleanup false x1).
  assert (Hwallets : negb (Nat.eqb (length ws) 0) = true).
  { destruct ws; [discriminate|reflexivity]. }
  assert (E3 : autoInitEffect x2 = initSmartAccount x2).
  { unfold autoInitEffect.
    change (auth x2) with (auth x1). change (hooks x2) with (hooks x1).
    rewrite Ha1, Hh1, Hc, Hl.
    change (ready (auth s0)) with true. change (authenticated (auth s0)) with true.
    change (wallets (auth s0)) with ws. rewrite Hwallets.
    rewrite bool_decide_eq_false_2 by (intros [x Hx]; discriminate). reflexivity. }
  assert (E4 : initSmartAccount x2
               = init_begin (next_call (loop s)) ws
                   (set_next_call (S (next_call (loop s))) x2)).
  { rewrite initSmartAccount_no_watcher.
    - change (auth x2) with (auth x1). change (next_call (loop x2)) with (next_call (loop x1)).
      rewrite Ha1, Kn. reflexivity.
    - change (auth x2) with (auth x1). now rewrite Ha1.
    - change (auth x2) with (auth x1). now rewrite Ha1.
    - left. change (hooks x2) with (hooks x1). now rewrite Hh1.
    - change (refs x2) with (refs x1). now rewrite Hr1. }
  assert (Eh : handle (AuthChanged true true true ws) s
               = init_begin (next_call (loop s)) ws
                   (set_next_call (S (next_call (loop s))) x2)).
  { cbn [handle]. fold s0. fold x0. rewrite E2. fold x2. now rewrite E3, E4. }
  destruct (init_begin_starts (next_call (loop s)) ws
              (set_next_call (S (next_call (loop s))) x2) w Hw)
    as (B1 & B2 & B3 & B4 & B5 & B6 & B7).
  rewrite <- Eh in B1, B2, B3, B4, B5, B6, B7.
  set (h := handle (AuthChanged true true true ws) s) in *.
  change (tasks (loop (set_next_call (S (next_call (loop s))) x2)))
    with (tasks (loop x1)) in B7.
  change (delegate_calls (loop (set_next_call (S (next_call (loop s))) x2)))
    with (delegate_calls (loop x1)) in B4.
  rewrite Kt in B7. rewrite Kd in B4.
  assert (Hu : tasks_unsettled h).
  { intros t p ws' Hint Ha. rewrite B7 in Hint. apply in_app_or in Hint.
    destruct Hint as [Hint|[<-|[]]]; [|discriminate].
    destruct (Hdel t Hint) as [w' Hw']. congruence. }
  destruct (run_microtasks_parked h Hu) as (M1 & M2 & M3).
  pose proof (tasks_run_microtasks_parked h Hu) as M4.
  set (m := run_microtasks h) in *.
  assert (Em : (if autoInit_deps_changed s m then autoInitEffect m else m) = m).
  { destruct (autoInit_deps_changed s m); [|reflexivity].
    apply autoInitEffect_loading. now rewrite M1. }
  assert (Hcore : core s' = core h) by apply core_step.
  destruct (core_eq _ _ Hcore) as (Cr & Ct & _).
  assert (Hch : core h = core x2) by (subst h; rewrite Eh; now rewrite core_init_begin).
  destruct (core_eq _ _ Hch) as (Cr2 & Ct2 & _).
  subst s'. unfold step, step_batched. fold h. fold m. rewrite Em.
  unfold step, step_batched in Cr, Ct. fold h in Cr, Ct. fold m in Cr, Ct.
  rewrite Em in Cr, Ct.
  rewrite M1, M3, M4, B1, B2, B3, B4, B7, Cr, Ct, Cr2, Ct2.
  change (refs x2) with (refs x1). change (timers (loop x2)) with (timers (loop x1)).
  rewrite Hr1, Ht1. repeat split.
Qed.

Lemma login_with_wallet_starts_construction_witness :
  let s' := step (AuthChanged true true true [external_wallet; privy_wallet]) initial in
  Inv initial
  /\ embeddedWallet [external_wallet; privy_wallet] = Some privy_wallet
  /\ smartAccountStatus (hooks s') = S_initializing
  /\ delegate_calls (loop s') = 1
  /\ tasks (loop s') = [{| call_id := 0; awaiting := AwaitDelegate privy_wallet |}].
Proof.
  intros s'.
  assert (Hdel : forall t, In t (tasks (loop initial)) ->
                   exists w', awaiting t = AwaitDelegate w') by (intros t []).
  assert (Hc : smartAccountClient (hooks initial) = None) by reflexivity.
  assert (Hl : isLoading (hooks initial) = false) by reflexivity.
  assert (Hw : embeddedWallet [external_wallet; privy_wallet] = Some privy_wallet)
    by reflexivity.
  destruct (login_with_wallet_starts_construction initial
              [external_wallet; privy_wallet] privy_wallet
              Inv_initial Hdel Hc Hl Hw) as (H1 & _ & _ & H4 & H5 & _).
  split; [exact Inv_initial|]. split; [exact Hw|]. split; [exact H1|].
  split; [exact H4|exact H5].
Defined.


(** ** Retrying without a session *)

Lemma initSmartAccount_guard s :
  authenticated (auth s) = false \/ user (auth s) = false ->
  initSmartAccount s
  = finish (next_call (loop s)) (Normal None)
      (set_next_call (S (next_call (loop s))) s).
Proof.
  intros H. unfold initSmartAccount.
  assert (E : negb (authenticated (auth s)) || negb (user (auth s)) = true)
    by (destruct H as [-> | ->]; [reflexivity|apply orb_true_r]).
  now rewrite E.
Qed.

Lemma finish_null_frame id n s :
  let s' := finish id (Normal None) (set_next_call n s) in
  hooks s' = hooks s /\ core s' = core s /\ tasks (loop s') = tasks (loop s)
  /\ returned (loop s') = (returned (loop s) ++ [(id, Normal None)])%list.
Proof. repeat split. Qed.

Lemma hooks_status_frame v s :
  let h := hooks (setSmartAccountStatus v s) in
  smartAccountClient h = smartAccountClient (hooks s)
  /\ smartAccountAddress h = smartAccountAddress (hooks s)
  /\ isLoading h = isLoading (hooks s)
  /\ error h = error (hooks s)
  /\ smartAccountStatus h = v.
Proof. repeat split. Qed.

Lemma hooks_error_frame v s :
  let h := hooks (setError v s) in
  smartAccountClient h = smartAccountClient (hooks s)
  /\ smartAccountAddress h = smartAccountAddress (hooks s)
  /\ isLoading h = isLoading (hooks s)
  /\ error h = v.
Proof. repeat split. Qed.

(** X14.  [retryWalletCreation] has no authentication guard.  Called without
    an authenticated session (or without a user) and without a privy wallet,
    it still arms a fresh watcher and shows [waiting_for_wallet], while its
    own call of [initSmartAccount] returns null at once and parks nothing;
    when the bound of the watcher has passed, the coordinator shows the
    timeout error although nobody is waiting for a wallet. *)
Theorem retry_without_session_arms_watcher (s : State) :
  Inv s ->
  authenticated (auth s) = false \/ user (auth s) = false ->
  hasPrivyWallet (wallets (auth s)) = false ->
  let s1 := step CallRetryWalletCreation s in
  returned (loop s1)
  = (returned (loop s) ++ [(next_call (loop s), Normal None)])%list
  /\ tasks (loop s1) = tasks (loop s)
  /\ smartAccountStatus (hooks s1) = S_waiting_for_wallet
  /\ error (hooks s1) = None
  /\ timers (loop s1) = [new_timer s]
  /\ forall ms, (timer_deadline (new_timer s) <= clock (loop s) + ms)%N ->
       timed_out (hooks (step (Elapse ms) s1)).
Proof.
  intros HI Hg Hw s1. pose proof HI as [Hs Hu].
  set (x1 := setError None s).
  assert (Hin1 : timers_in_ref x1)
    by (apply (timers_in_ref_eq s); [reflexivity..|now apply shape_timers_in_ref]).
  set (x2 := clearWalletReadinessWatcher x1).
  assert (Hc2 : core x2 = (refs_none, [], clock (loop s), promises (loop s),
                           next_timer (loop s), next_promise (loop s)))
    by (subst x2; now rewrite core_clear).
  destruct (core_inv _ _ _ _ _ _ _ Hc2) as (Hr2 & Ht2 & Hcl2 & Hp2 & Hnt2 & Hnp2).
  assert (Hin2 : timers_in_ref x2) by (intros t Ht; rewrite Ht2 in Ht; destruct Ht).
  assert (Ha2 : auth x2 = auth s) by (subst x2; now rewrite clear_auth).
  assert (Hh2 : hooks x2 = hooks x1) by (subst x2; now rewrite clear_hooks).
  set (x3 := createWalletReadinessWatcher x2).
  assert (Hnt : new_timer x2 = new_timer s)
    by (unfold new_timer; now rewrite Hcl2, Hnt2, Hnp2).
  assert (Hc3 : core x3 = (refs_of (new_timer s), [new_timer s], clock (loop s),
                           <[next_promise (loop s) := Pending]> (promises (loop s)),
                           Pos.succ (next_timer (loop s)),
                           Pos.succ (next_promise (loop s))))
    by (subst x3; rewrite create_core, Hnt, (clear_timers_in_ref x2 Hin2);
        now rewrite Hcl2, Hp2, Hnt2, Hnp2).
  assert (Hk3 : calls x3 = calls s)
    by (subst x3 x2 x1; now rewrite calls_create, calls_clear, calls_setError).
  destruct (calls_inv _ _ Hk3) as (Kt & Kn & Kr & _).
  destruct (create_frame x2) as [Ha3 Hh3]. fold x3 in Ha3, Hh3.
  destruct (hooks_status_frame S_waiting_for_wallet x2) as (F1 & F2 & F3 & F4 & F5).
  destruct (hooks_error_frame None s) as (G1 & G2 & G3 & G4). fold x1 in G1, G2, G3, G4.
  rewrite <- Hh3, Hh2 in F1, F2, F3, F4. rewrite <- Hh3 in F5.
  rewrite G1 in F1. rewrite G2 in F2. rewrite G3 in F3. rewrite G4 in F4.
  assert (Eh : handle CallRetryWalletCreation s
               = finish (next_call (loop s)) (Normal None)
                   (set_next_call (S (next_call (loop s))) x3)).
  { cbn [handle]. unfold retryWalletCreation. rewrite Hw. fold x1. fold x2. fold x3.
    rewrite initSmartAccount_guard by (now rewrite Ha3, Ha2).
    now rewrite Kn. }
  destruct (finish_null_frame (next_call (loop s)) (S (next_call (loop s))) x3)
    as (N1 & N2 & N3 & N4).
  rewrite <- Eh in N1, N2, N3, N4.
  set (h := handle CallRetryWalletCreation s) in *.
  rewrite Hc3 in N2. destruct (core_inv _ _ _ _ _ _ _ N2) as (_ & Th & Ch & Ph & _).
  rewrite Kt in N3. rewrite Kr in N4.
  assert (Hu1 : tasks_unsettled h).
  { intros t p ws Hin Ha. unfold settled. rewrite Ph. rewrite N3 in Hin.
    specialize (Hu t p ws Hin Ha). unfold settled in Hu.
    destruct (decide (p = next_promise (loop s))) as [->|Hne].
    - now rewrite lookup_insert_eq.
    - rewrite lookup_insert_ne by congruence. exact Hu. }
  destruct (run_microtasks_parked h Hu1) as (M1 & M2 & _).
  pose proof (tasks_run_microtasks_parked h Hu1) as M4.
  pose proof (core_run_microtasks h) as M5.
  set (m := run_microtasks h) in *.
  assert (Em : step CallRetryWalletCreation s = m).
  { unfold step, step_batched. fold h. fold m.
    rewrite (autoInit_deps_same3 s m); [reflexivity|..];
      rewrite M1, N1; [exact F1|exact F2|exact F3]. }
  fold s1 in Em.
  destruct (core_eq _ _ M5) as (_ & Tm & Cm & _).
  assert (Htim : timers (loop s1) = [new_timer s]) by (now rewrite Em, Tm, Th).
  assert (Hclock : clock (loop s1) = clock (loop s)) by (now rewrite Em, Cm, Ch).
  split; [now rewrite Em, M2, N4|]. split; [now rewrite Em, M4, N3|].
  split; [now rewrite Em, M1, N1|]. split; [now rewrite Em, M1, N1|].
  split; [exact Htim|].
  intros ms Hle.
  assert (HI1 : Inv s1) by (apply Inv_step; exact HI).
  destruct (elapse_late ms s1 (new_timer s) HI1 Htim) as [H _]; [|exact H].
  now rewrite Hclock.
Qed.

Lemma retry_without_session_arms_watcher_witness :
  let s1 := step CallRetryWalletCreation initial in
  Inv initial
  /\ authenticated (auth initial) = false
  /\ hasPrivyWallet (wallets (auth initial)) = false
  /\ returned (loop s1) = [(0, Normal None)]
  /\ smartAccountStatus (hooks s1) = S_waiting_for_wallet
  /\ timed_out (hooks (step (Elapse 25000) s1)).
Proof.
  intros s1.
  assert (Ha : authenticated (auth initial) = false) by reflexivity.
  assert (Hw : hasPrivyWallet (wallets (auth initial)) = false) by reflexivity.
  assert (Hle : (timer_deadline (new_timer initial)
                 <= clock (loop initial) + 25000)%N)
    by (apply N.leb_le; reflexivity).
  destruct (retry_without_session_arms_watcher initial Inv_initial
              (or_introl Ha) Hw) as (H1 & _ & H3 & _ & _ & H6).
  split; [exact Inv_initial|]. split; [exact Ha|]. split; [exact Hw|].
  split; [exact H1|]. split; [exact H3|exact (H6 25000%N Hle)].
Defined.

(** ** The resolver call of [retryWalletCreation] *)

(** X15.  [retryWalletCreation] never fulfils a promise.  The watcher is
    cleared (line 241) before the stored resolver is read (line 246), so with
    a privy wallet the promises are exactly what they were, and in every
    state a promise that was pending is still pending after the retry: a
    call parked on the old watcher is not released by it. *)
Theorem retry_fulfils_no_promise (s : State) :
  (hasPrivyWallet (wallets (auth s)) = true ->
   promises (loop (retryWalletCreation s)) = promises (loop s))
  /\ forall p, promises (loop s) !! p = Some Pending ->
       promises (loop (retryWalletCreation s)) !! p = Some Pending.
Proof.
  set (x2 := clearWalletReadinessWatcher (setError None s)).
  assert (Hp2 : promises (loop x2) = promises (loop s))
    by (subst x2; now rewrite clear_promises).
  assert (Hr2 : walletReadyResolveRef (refs x2) = None)
    by (subst x2; now rewrite clear_refs).
  assert (Hnp2 : next_promise (loop x2) = next_promise (loop s)).
  { subst x2. destruct (clear_counters (setError None s)) as [_ E]. now rewrite E. }
  assert (E1 : hasPrivyWallet (wallets (auth s)) = true ->
               promises (loop (retryWalletCreation s)) = promises (loop s)).
  { intros Hw. unfold retryWalletCreation. rewrite Hw. fold x2.
    rewrite (call_resolver_none x2 Hr2).
    rewrite (promises_of_core _ _ (core_initSmartAccount _)).
    now rewrite clear_promises. }
  split; [exact E1|]. intros p Hp.
  destruct (hasPrivyWallet (wallets (auth s))) eqn:Hw.
  - now rewrite E1.
  - unfold retryWalletCreation. rewrite Hw. fold x2.
    rewrite (promises_of_core _ _ (core_initSmartAccount _)).
    rewrite create_promises, Hp2, Hnp2.
    destruct (decide (p = next_promise (loop s))) as [->|Hne].
    + apply lookup_insert_eq.
    + rewrite lookup_insert_ne by congruence. exact Hp.
Qed.

(** The session of [session_abandoned], then a new login with an embedded
    wallet: promise 1 of the abandoned watcher is still pending. *)
Definition session_abandoned_relogin : list Event :=
  (session_abandoned ++ [AuthChanged true true true [privy_wallet]])%list.

Lemma retry_fulfils_no_promise_witness :
  let s := run session_abandoned_relogin initial in
  hasPrivyWallet (wallets (auth s)) = true
  /\ promises (loop s) !! 1%positive = Some Pending
  /\ promises (loop (retryWalletCreation s)) !! 1%positive = Some Pending.
Proof.
  intros s.
  assert (Hw : hasPrivyWallet (wallets (auth s)) = true) by reflexivity.
  assert (Hp : promises (loop s) !! 1%positive = Some Pending)
    by (vm_compute; reflexivity).
  split; [exact Hw|]. split; [exact Hp|].
  exact (proj2 (retry_fulfils_no_promise s) 1%positive Hp).
Defined.


(** ** When the schedule of the re-render matters *)

Lemma set_tasks_set_tasks a b s : set_tasks a (set_tasks b s) = set_tasks a s.
Proof. reflexivity. Qed.

Lemma set_tasks_same s : set_tasks (tasks (loop s)) s = s.
Proof. destruct s as [a h r []]. reflexivity. Qed.

Lemma promises_set_tasks a s : promises (loop (set_tasks a s)) = promises (loop s).
Proof. reflexivity. Qed.

Lemma resume_all_parked_state s ts acc :
  (forall t, In t ts -> parked s t) ->
  fold_left (fun x t => resume_watcher t x) ts (set_tasks acc s)
  = set_tasks (acc ++ ts) s.
Proof.
  revert acc. induction ts as [|t ts IH]; intros acc H; [now rewrite app_nil_r|].
  cbn [fold_left]. rewrite resume_watcher_parked.
  - unfold suspend. rewrite set_tasks_set_tasks.
    change (tasks (loop (set_tasks acc s))) with acc.
    replace {| call_id := call_id t; awaiting := awaiting t |} with t
      by (destruct t; reflexivity).
    rewrite IH by (intros t' Ht'; apply H; now right).
    now rewrite <- app_assoc.
  - intros p ws Ha. unfold settled. rewrite promises_set_tasks.
    exact (H t (or_introl eq_refl) p ws Ha).
Qed.

(** With no settled promise to react to, the promise reactions do nothing. *)
Lemma run_microtasks_unsettled_id s : tasks_unsettled s -> run_microtasks s = s.
Proof.
  intros H. unfold run_microtasks. rewrite resume_all_parked_state.
  - apply set_tasks_same.
  - intros t Ht p ws Ha. exact (H t p ws Ht Ha).
Qed.

Lemma autoInit_deps_unchanged s s' x :
  autoInit_deps_changed s s' = false ->
  autoInit_deps_changed s' x = autoInit_deps_changed s x.
Proof.
  unfold autoInit_deps_changed. intros H.
  apply negb_false_iff in H. apply andb_prop in H. destruct H as [H H3].
  apply andb_prop in H. destruct H as [H1 H2].
  apply bool_decide_eq_true_1 in H1, H2, H3. now rewrite H1, H2, H3.
Qed.

(** X16.  When React commits the re-render only matters for a handler that
    both changes a dependency of the auto-initialisation effect and releases
    a call parked on a watcher.  For a happening whose handler leaves
    [smartAccountClient], [smartAccountAddress] and [isLoading] as they were
    rendered, and for one whose handler settles no promise that a parked call
    waits for, the two schedules end in the same state. *)
Theorem flushing_matters_only_when_a_call_is_released (e : Event) (s : State) :
  autoInit_deps_changed s (handle e s) = false
  \/ (watcher_shape (core s) /\ tasks_unsettled (handle e s)) ->
  step (Flushed e) s = step e s.
Proof.
  intros H. destruct (flushed e) eqn:Hf; [destruct e; try discriminate; reflexivity|].
  rewrite step_Flushed, (step_plain e s Hf).
  unfold step_flushed, step_batched. cbv zeta.
  destruct (autoInit_deps_changed s (handle e s)) eqn:Hd.
  - destruct H as [H|[Hs Hu]]; [discriminate|].
    assert (Hu2 : tasks_unsettled (autoInitEffect (handle e s))).
    { apply autoInitEffect_unsettled; [now apply handle_shape|exact Hu]. }
    rewrite (run_microtasks_unsettled_id _ Hu2), (run_microtasks_unsettled_id _ Hu).
    rewrite Hd. now rewrite autoInit_deps_same.
  - now rewrite (autoInit_deps_unchanged s (handle e s) _ Hd).
Qed.

Lemma flushing_matters_only_when_a_call_is_released_witness :
  let s := run no_wallets_session initial in
  autoInit_deps_changed s (handle (Elapse 25000) s) = false
  /\ step (Flushed (Elapse 25000)) s = step (Elapse 25000) s.
Proof.
  intros s.
  assert (Hd : autoInit_deps_changed s (handle (Elapse 25000) s) = false)
    by (vm_compute; reflexivity).
  split; [exact Hd|].
  exact (flushing_matters_only_when_a_call_is_released (Elapse 25000) s
           (or_introl Hd)).
Defined.

(** The two schedules do differ when the notification of a privy wallet
    releases a parked call.  The watcher of a retry made before the login is
    not owned by the bootstrap effect (no cleanup is registered), so the
    effect resolves it when the wallet arrives.  If the released call runs
    before the re-render, it finds [isLoading] already set by the call of the
    auto-initialisation effect and resets it, and the render sees no change:
    one construction, status [waiting_for_wallet].  If the re-render is
    committed first, the reset is a change, the effect runs again and starts
    a second construction. *)
Definition session_call_parked_on_retry : list Event :=
  [CallRetryWalletCreation; AuthChanged true true true []; CallInitSmartAccount].

Lemma schedules_differ_when_a_call_is_released :
  let s := run session_call_parked_on_retry initial in
  let batched := step (AuthChanged true true true [privy_wallet]) s in
  let eager := step (Flushed (AuthChanged true true true [privy_wallet])) s in
  tasks (loop s) = [{| call_id := 1; awaiting := AwaitWatcher 1 [] |}]
  /\ delegate_calls (loop batched) = 1
  /\ smartAccountStatus (hooks batched) = S_waiting_for_wallet
  /\ delegate_calls (loop eager) = 2
  /\ smartAccountStatus (hooks eager) = S_initializing
  /\ In (1, Normal None) (returned (loop batched))
  /\ In (1, Normal None) (returned (loop eager)).
Proof. vm_compute. repeat split; auto. Qed.

End SmartAccount.

(** * [generateCoinSalt] *)

Module GaslessDeployment.

Local Open Scope Z_scope.

(** ** Numbers and strings of the source language *)

(** A string is its sequence of UTF-16 code units ([charCodeAt]). *)
Definition JsString := list Z.

Definition code_unit (c : Z) : Prop := 0 <= c < 65536.

(** The code units of a string literal of ASCII characters. *)
Definition codes (s : string) : JsString :=
  map (fun a => Z.of_N (N_of_ascii a)) (list_ascii_of_string s).

(** [ToInt32]: the operands of [<<] are taken modulo 2^32 into the signed
    range. *)
Definition toInt32 (z : Z) : Z := (z + 2 ^ 31) mod 2 ^ 32 - 2 ^ 31.

(** [a << n] *)
Definition shl (a n : Z) : Z := toInt32 (Z.shiftl (toInt32 a) n).

Definition hexDigit (d : N) : ascii :=
  match d with
  | 0 => "0" | 1 => "1" | 2 => "2" | 3 => "3" | 4 => "4" | 5 => "5"
  | 6 => "6" | 7 => "7" | 8 => "8" | 9 => "9" | 10 => "a" | 11 => "b"
  | 12 => "c" | 13 => "d" | 14 => "e" | _ => "f"
  end%N%char.

(** The hexadecimal digits of [n], most significant first, in front of
    [acc]. *)
Fixpoint hexDigits (fuel : nat) (n : N) (acc : string) : string :=
  match fuel with
  | O => acc
  | S fuel' =>
      let acc' := String (hexDigit (n mod 16)) acc in
      if (n / 16 =? 0)%N then acc' else hexDigits fuel' (n / 16) acc'
  end.

(** [n.toString(16)] for an integer [n]. *)
Definition toString16 (z : Z) : string :=
  let n := Z.to_N (Z.abs z) in
  let digits := hexDigits (S (N.to_nat (N.log2 n))) n "" in
  if z <? 0 then String "-"%char digits else digits.

Fixpoint replicate_char (n : nat) (c : ascii) : string :=
  match n with
  | O => ""
  | S n' => String c (replicate_char n' c)
  end.

(** [s.padStart(len, c)] for a one-character filler. *)
Definition padStart (len : nat) (c : ascii) (s : string) : string :=
  (replicate_char (len - String.length s) c ++ s)%string.

(** ** The salt, lines 64-70 *)

(** The reducer: [((acc << 5) - acc) + char.charCodeAt(0)].  Only the shift
    works on 32 bits; the subtraction and the sum are sums of JavaScript
    numbers (doubles), which are the exact integer results as long as their
    absolute values stay below 2^53.  [hashStep] is that exact result: it is
    the value the code computes for an accumulator below 2^53 - 2^32, and
    every statement below is made for texts of at most 2^21 code units, for
    which the accumulator stays in that range ([coinHash_safe_integer]). *)
Definition hashStep (acc c : Z) : Z := (shl acc 5 - acc) + c.

(** [`${creator}${name}${symbol}${metadataUri}`.split('').reduce(..., 0)] *)
Definition coinHash (creator name symbol metadataUri : JsString) : Z :=
  fold_left hashStep (creator ++ name ++ symbol ++ metadataUri)%list 0.

(** [now] is the value of [Date.now()]. *)
Definition generateCoinSalt (now : Z) (creator name symbol metadataUri : JsString)
    : string :=
  let timestamp := padStart 16 "0" (toString16 now) in
  let hash := coinHash creator name symbol metadataUri in
  ("0x" ++ timestamp ++ padStart 48 "0" (toString16 (Z.abs hash)))%string.

(** ** Hexadecimal strings *)

Definition isHexDigit (a : ascii) : bool :=
  existsb (Ascii.eqb a) (list_ascii_of_string "0123456789abcdef").

Fixpoint allHex (s : string) : bool :=
  match s with
  | EmptyString => true
  | String a s' => isHexDigit a && allHex s'
  end.

Lemma hexDigit_isHex d : isHexDigit (hexDigit d) = true.
Proof.
  unfold hexDigit.
  destruct d as [|[[[[?|?|]|[?|?|]|]|[[?|?|]|[?|?|]|]|]|[[[?|?|]|[?|?|]|]|[[?|?|]|[?|?|]|]|]|]];
    reflexivity.
Qed.

Lemma allHex_app s1 s2 :
  allHex (s1 ++ s2)%string = allHex s1 && allHex s2.
Proof.
  induction s1 as [|a s1 IH]; [reflexivity|].
  simpl. rewrite IH. apply andb_assoc.
Qed.

Lemma length_app s1 s2 :
  String.length (s1 ++ s2)%string = (String.length s1 + String.length s2)%nat.
Proof.
  induction s1 as [|a s1 IH]; [reflexivity|].
  simpl. now rewrite IH.
Qed.

Lemma replicate_char_length n c : String.length (replicate_char n c) = n.
Proof. induction n as [|n IH]; [reflexivity|]. cbn. now rewrite IH. Qed.

Lemma replicate_zero_allHex n : allHex (replicate_char n "0") = true.
Proof. induction n as [|n IH]; [reflexivity|]. cbn [replicate_char allHex]. now rewrite IH. Qed.

Lemma padStart_length len c s :
  (String.length s <= len)%nat -> String.length (padStart len c s) = len.
Proof.
  intros H. unfold padStart. rewrite length_app, replicate_char_length. lia.
Qed.

Lemma padStart_allHex len s :
  allHex s = true -> allHex (padStart len "0" s) = true.
Proof.
  intros H. unfold padStart. now rewrite allHex_app, replicate_zero_allHex, H.
Qed.

Lemma hexDigits_allHex fuel n acc :
  allHex acc = true -> allHex (hexDigits fuel n acc) = true.
Proof.
  revert n acc. induction fuel as [|fuel IH]; intros n acc H; [exact H|].
  cbn [hexDigits].
  assert (H' : allHex (String (hexDigit (n mod 16)) acc) = true)
    by (cbn [allHex]; now rewrite hexDigit_isHex, H).
  destruct (n / 16 =? 0)%N; [exact H'|now apply IH].
Qed.

(** A number below [16^k] has at most [k] digits. *)
Lemma hexDigits_length fuel n acc k :
  (n < 16 ^ N.of_nat k)%N -> (1 <= k)%nat ->
  (String.length (hexDigits fuel n acc) <= String.length acc + k)%nat.
Proof.
  revert n acc k. induction fuel as [|fuel IH]; intros n acc k Hn Hk; [cbn; lia|].
  cbn [hexDigits]. destruct (N.eqb_spec (n / 16) 0) as [E|E].
  - cbn [String.length]. lia.
  - destruct k as [|[|k]]; [lia| |].
    + exfalso. apply E. apply N.div_small. exact Hn.
    + specialize (IH (n / 16)%N (String (hexDigit (n mod 16)) acc) (S k)).
      cbn [String.length] in IH.
      assert (Hd : (n / 16 < 16 ^ N.of_nat (S k))%N).
      { apply N.Div0.div_lt_upper_bound.
        replace (N.of_nat (S (S k))) with (N.succ (N.of_nat (S k))) in Hn by lia.
        rewrite N.pow_succ_r' in Hn. exact Hn. }
      specialize (IH Hd ltac:(lia)). lia.
Qed.

Lemma toString16_nonneg z k :
  0 <= z < 16 ^ Z.of_nat k -> (1 <= k)%nat ->
  allHex (toString16 z) = true /\ (String.length (toString16 z) <= k)%nat.
Proof.
  intros [H0 Hk] H1. unfold toString16.
  destruct (Z.ltb_spec z 0) as [Hneg|_]; [lia|].
  split; [now apply hexDigits_allHex|].
  apply (hexDigits_length _ _ "" k); [|exact H1].
  rewrite Z.abs_eq by exact H0.
  apply N2Z.inj_lt. rewrite Z2N.id by exact H0.
  rewrite N2Z.inj_pow, nat_N_Z. exact Hk.
Qed.

(** ** The hash is not truncated *)

Lemma toInt32_range z : - 2147483648 <= toInt32 z < 2147483648.
Proof.
  unfold toInt32. change (2 ^ 31) with 2147483648. change (2 ^ 32) with 4294967296.
  pose proof (Z.mod_pos_bound (z + 2147483648) 4294967296 ltac:(lia)). lia.
Qed.

Lemma hashStep_bound acc c :
  code_unit c -> Z.abs (hashStep acc c) <= Z.abs acc + 2147549183.
Proof.
  unfold code_unit, hashStep, shl. intros Hc.
  pose proof (toInt32_range (Z.shiftl (toInt32 acc) 5)). lia.
Qed.

Lemma fold_hashStep_bound l acc :
  Forall code_unit l ->
  Z.abs (fold_left hashStep l acc) <= Z.abs acc + Z.of_nat (length l) * 2147549183.
Proof.
  revert acc. induction l as [|c l IH]; intros acc H; [cbn; lia|].
  apply Forall_cons in H. destruct H as [Hc Hl].
  cbn [fold_left length]. specialize (IH (hashStep acc c) Hl).
  pose proof (hashStep_bound acc c Hc). lia.
Qed.

(** The hash of at most 2^21 code units is an integer that a double holds
    exactly, so the integer arithmetic above is that of the source. *)
Lemma coinHash_safe_integer creator name symbol metadataUri :
  Forall code_unit (creator ++ name ++ symbol ++ metadataUri)%list ->
  Z.of_nat (length (creator ++ name ++ symbol ++ metadataUri)%list) <= 2097152 ->
  Z.abs (coinHash creator name symbol metadataUri) < 9007199254740992.
Proof.
  intros Hc Hl. unfold coinHash.
  pose proof (fold_hashStep_bound _ 0 Hc). lia.
Qed.

(** ** C10 *)

(** C10, as the code has it.  For a clock value in the range of [Date.now()]
    (non-negative) and strings of code units whose concatenation has at most
    2^21 units, the salt is ["0x"] followed by 16 hexadecimal digits (the
    padded timestamp) and 48 hexadecimal digits (the padded absolute value of
    the hash): 64 digits in all.  The hash is not truncated to 32 bits; its
    absolute value stays below 2^53. *)
Theorem generateCoinSalt_is_bytes32
    (now : Z) (creator name symbol metadataUri : JsString) :
  0 <= now <= 8640000000000000 ->
  Forall code_unit (creator ++ name ++ symbol ++ metadataUri)%list ->
  Z.of_nat (length (creator ++ name ++ symbol ++ metadataUri)%list) <= 2097152 ->
  Z.abs (coinHash creator name symbol metadataUri) < 2 ^ 53
  /\ exists ts hs : string,
       generateCoinSalt now creator name symbol metadataUri
       = ("0x" ++ ts ++ hs)%string
       /\ String.length ts = 16%nat /\ String.length hs = 48%nat
       /\ allHex ts = true /\ allHex hs = true
       /\ String.length (ts ++ hs)%string = 64%nat.
Proof.
  intros Hnow Hc Hl.
  pose proof (coinHash_safe_integer creator name symbol metadataUri Hc Hl) as Hh.
  split; [exact Hh|].
  destruct (toString16_nonneg now 16) as [T1 T2]; [|lia|].
  { change (16 ^ Z.of_nat 16) with 18446744073709551616. lia. }
  destruct (toString16_nonneg (Z.abs (coinHash creator name symbol metadataUri)) 48)
    as [H1 H2]; [|lia|].
  { change (16 ^ Z.of_nat 48)
      with 6277101735386680763835789423207666416102355444464034512896. lia. }
  exists (padStart 16 "0" (toString16 now)),
         (padStart 48 "0" (toString16 (Z.abs (coinHash creator name symbol metadataUri)))).
  split; [reflexivity|].
  rewrite length_app, !padStart_length by assumption.
  rewrite !padStart_allHex by assumption. repeat split.
Qed.

Definition sample_creator : JsString :=
  codes "0x1234567890abcdef1234567890abcdef12345678".

Lemma codes_are_code_units s : Forall code_unit (codes s).
Proof.
  unfold codes. apply Forall_map, Forall_forall. intros a _.
  unfold code_unit. pose proof (N_ascii_bounded a). lia.
Qed.

Lemma generateCoinSalt_is_bytes32_witness :
  0 <= 1700000000000 <= 8640000000000000
  /\ generateCoinSalt 1700000000000 sample_creator (codes "MyCoin") (codes "MYC")
       (codes "ipfs://bafy")
     = "0x0000018bcfe568000000000000000000000000000000000000000000308440c6"
  /\ exists ts hs : string,
       generateCoinSalt 1700000000000 sample_creator (codes "MyCoin") (codes "MYC")
         (codes "ipfs://bafy") = ("0x" ++ ts ++ hs)%string
       /\ String.length ts = 16%nat /\ String.length hs = 48%nat.
Proof.
  assert (Hnow : 0 <= 1700000000000 <= 8640000000000000) by lia.
  assert (Hc : Forall code_unit
                 (sample_creator ++ codes "MyCoin" ++ codes "MYC" ++ codes "ipfs://bafy")%list).
  { unfold sample_creator. rewrite !Forall_app. repeat split; apply codes_are_code_units. }
  assert (Hl : Z.of_nat (length (sample_creator ++ codes "MyCoin" ++ codes "MYC"
                                 ++ codes "ipfs://bafy")%list) <= 2097152)
    by (vm_compute; discriminate).
  destruct (generateCoinSalt_is_bytes32 1700000000000 sample_creator (codes "MyCoin")
              (codes "MYC") (codes "ipfs://bafy") Hnow Hc Hl)
    as (_ & ts & hs & E & L1 & L2 & _).
  split; [exact Hnow|]. split; [vm_compute; reflexivity|].
  exists ts, hs. split; [exact E|]. split; [exact L1|exact L2].
Defined.

(** C10 as stated fails in its account of the hash: the reducer does not
    truncate to 32 bits, and here the absolute value of the hash needs nine
    hexadecimal digits before padding. *)
Lemma coinHash_exceeds_32_bits :
  let h := coinHash sample_creator (codes "Coin0") (codes "SYM") (codes "ipfs://meta") in
  h = -6582738693 /\ 2 ^ 32 <= Z.abs h
  /\ toString16 (Z.abs h) = "1885c9f05"
  /\ String.length (toString16 (Z.abs h)) = 9%nat.
Proof.
  intros h.
  assert (E : h = -6582738693) by (vm_compute; reflexivity).
  rewrite E. split; [reflexivity|]. split; [vm_compute; discriminate|].
  split; vm_compute; reflexivity.
Qed.


(** * Further properties of the salt *)

(** ** Reading the salt back *)

Definition hexDigitValue (a : ascii) : N :=
  let n := N_of_ascii a in
  if (48 <=? n)%N && (n <=? 57)%N then (n - 48)%N
  else if (97 <=? n)%N && (n <=? 102)%N then (n - 87)%N
  else 0%N.

(** The number that a string of hexadecimal digits denotes, continuing from
    [v]. *)
Fixpoint hexValueFrom (s : string) (v : N) : N :=
  match s with
  | EmptyString => v
  | String a s' => hexValueFrom s' (16 * v + hexDigitValue a)%N
  end.

Definition hexValue (s : string) : N := hexValueFrom s 0.

Lemma hexDigitValue_hexDigit d : (d < 16)%N -> hexDigitValue (hexDigit d) = d.
Proof.
  intros H.
  destruct d as [|[[[[?|?|]|[?|?|]|]|[[?|?|]|[?|?|]|]|]|[[[?|?|]|[?|?|]|]|[[?|?|]|[?|?|]|]|]|]];
    try reflexivity; exfalso; lia.
Qed.

Lemma hexValueFrom_hexDigits fuel n acc :
  (n < 16 ^ N.of_nat fuel)%N ->
  hexValueFrom (hexDigits fuel n acc) 0 = hexValueFrom acc n.
Proof.
  revert n acc. induction fuel as [|fuel IH]; intros n acc Hn.
  - cbn in Hn. assert (n = 0%N) by lia. now subst n.
  - cbn [hexDigits].
    assert (Hd : hexDigitValue (hexDigit (n mod 16)) = (n mod 16)%N)
      by (apply hexDigitValue_hexDigit, N.mod_lt; lia).
    pose proof (N.div_mod n 16 ltac:(lia)) as Hdm.
    destruct (N.eqb_spec (n / 16) 0) as [E|E].
    + cbn [hexValueFrom]. rewrite Hd. f_equal. lia.
    + rewrite IH.
      * cbn [hexValueFrom]. rewrite Hd. f_equal. lia.
      * apply N.Div0.div_lt_upper_bound.
        replace (N.of_nat (S fuel)) with (N.succ (N.of_nat fuel)) in Hn by lia.
        rewrite N.pow_succ_r' in Hn. exact Hn.
Qed.

Lemma hexValueFrom_zeros k s : hexValueFrom (replicate_char k "0" ++ s)%string 0
                               = hexValueFrom s 0.
Proof. induction k as [|k IH]; [reflexivity|]. simpl. exact IH. Qed.

Lemma fuel_suffices n : (n < 16 ^ N.of_nat (S (N.to_nat (N.log2 n))))%N.
Proof.
  rewrite Nat2N.inj_succ, N2Nat.id.
  destruct n as [|p]; [reflexivity|].
  pose proof (N.log2_spec (N.pos p) ltac:(lia)) as [_ H].
  eapply N.lt_le_trans; [exact H|].
  apply N.pow_le_mono_l. lia.
Qed.

(** Printing a non-negative integer in base 16, padding it with zeros and
    reading it back gives the integer. *)
Lemma hexValue_padStart_toString16 len z :
  0 <= z -> hexValue (padStart len "0" (toString16 z)) = Z.to_N z.
Proof.
  intros H. unfold hexValue, padStart, toString16.
  destruct (Z.ltb_spec z 0) as [Hneg|_]; [lia|].
  rewrite hexValueFrom_zeros, Z.abs_eq by exact H.
  rewrite hexValueFrom_hexDigits by apply fuel_suffices. reflexivity.
Qed.

Lemma substring_prefix a b :
  substring 0 (String.length a) (a ++ b)%string = a.
Proof.
  induction a as [|c a IH]; [destruct b; reflexivity|].
  simpl. now rewrite IH.
Qed.

Lemma substring_all b : substring 0 (String.length b) b = b.
Proof. induction b as [|c b IH]; [reflexivity|]. simpl. now rewrite IH. Qed.

Lemma substring_suffix a b :
  substring (String.length a) (String.length b) (a ++ b)%string = b.
Proof.
  induction a as [|c a IH]; simpl; [apply substring_all|exact IH].
Qed.

(** The two fields of a salt: characters 2-17 and 18-65. *)
Definition saltTimestamp (salt : string) : N := hexValue (substring 2 16 salt).
Definition saltHash (salt : string) : N := hexValue (substring 18 48 salt).

(** X7.  The salt can be read back: for a non-negative clock value in the
    range of [Date.now()] and inputs of at most 2^21 code units, the 16
    digits after ["0x"] denote the clock value and the last 48 digits denote
    the absolute value of the hash.  Hence two salts made at different
    milliseconds differ, whatever the inputs, and the salt of given inputs is
    not a function of the inputs alone. *)
Theorem generateCoinSalt_reads_back
    (now : Z) (creator name symbol metadataUri : JsString) :
  0 <= now <= 8640000000000000 ->
  Forall code_unit (creator ++ name ++ symbol ++ metadataUri)%list ->
  Z.of_nat (length (creator ++ name ++ symbol ++ metadataUri)%list) <= 2097152 ->
  let salt := generateCoinSalt now creator name symbol metadataUri in
  Z.of_N (saltTimestamp salt) = now
  /\ Z.of_N (saltHash salt) = Z.abs (coinHash creator name symbol metadataUri)
  /\ forall now' creator' name' symbol' metadataUri',
       0 <= now' <= 8640000000000000 ->
       Forall code_unit (creator' ++ name' ++ symbol' ++ metadataUri')%list ->
       Z.of_nat (length (creator' ++ name' ++ symbol' ++ metadataUri')%list)
         <= 2097152 ->
       generateCoinSalt now' creator' name' symbol' metadataUri' = salt ->
       now' = now.
Proof.
  intros Hnow Hc Hl salt.
  assert (G : forall n c m s u,
    0 <= n <= 8640000000000000 ->
    Forall code_unit (c ++ m ++ s ++ u)%list ->
    Z.of_nat (length (c ++ m ++ s ++ u)%list) <= 2097152 ->
    Z.of_N (saltTimestamp (generateCoinSalt n c m s u)) = n
    /\ Z.of_N (saltHash (generateCoinSalt n c m s u)) = Z.abs (coinHash c m s u)).
  { intros n c m s u Hn Hcu Hlen.
    pose proof (coinHash_safe_integer c m s u Hcu Hlen) as Hh.
    set (T := padStart 16 "0" (toString16 n)).
    set (H := padStart 48 "0" (toString16 (Z.abs (coinHash c m s u)))).
    assert (L1 : String.length T = 16%nat).
    { apply padStart_length. apply (toString16_nonneg n 16); [|lia].
      change (16 ^ Z.of_nat 16) with 18446744073709551616. lia. }
    assert (L2 : String.length H = 48%nat).
    { apply padStart_length.
      apply (toString16_nonneg (Z.abs (coinHash c m s u)) 48); [|lia].
      change (16 ^ Z.of_nat 48)
        with 6277101735386680763835789423207666416102355444464034512896. lia. }
    assert (E : generateCoinSalt n c m s u = String "0" (String "x" (T ++ H)%string))
      by reflexivity.
    unfold saltTimestamp, saltHash. rewrite E.
    change (substring 2 16 (String "0" (String "x" (T ++ H)%string)))
      with (substring 0 16 (T ++ H)%string).
    change (substring 18 48 (String "0" (String "x" (T ++ H)%string)))
      with (substring 16 48 (T ++ H)%string).
    replace (substring 0 16 (T ++ H)%string)
      with (substring 0 (String.length T) (T ++ H)%string) by (now rewrite L1).
    replace (substring 16 48 (T ++ H)%string)
      with (substring (String.length T) (String.length H) (T ++ H)%string)
      by (now rewrite L1, L2).
    rewrite substring_prefix, substring_suffix.
    subst T H. rewrite !hexValue_padStart_toString16 by lia.
    rewrite !Z2N.id by lia. split; reflexivity. }
  destruct (G now creator name symbol metadataUri Hnow Hc Hl) as [G1 G2].
  split; [exact G1|]. split; [exact G2|].
  intros now' c' m' s' u' Hn' Hc' Hl' E.
  destruct (G now' c' m' s' u' Hn' Hc' Hl') as [G1' _].
  rewrite E in G1'. fold salt in G1. congruence.
Qed.


Lemma generateCoinSalt_reads_back_witness :
  let salt := generateCoinSalt 1700000000000 sample_creator (codes "MyCoin")
                (codes "MYC") (codes "ipfs://bafy") in
  0 <= 1700000000000 <= 8640000000000000
  /\ Z.of_N (saltTimestamp salt) = 1700000000000
  /\ Z.of_N (saltHash salt) = 813973702.
Proof.
  intros salt.
  assert (Hnow : 0 <= 1700000000000 <= 8640000000000000) by lia.
  assert (Hc : Forall code_unit
                 (sample_creator ++ codes "MyCoin" ++ codes "MYC" ++ codes "ipfs://bafy")%list).
  { unfold sample_creator. rewrite !Forall_app. repeat split; apply codes_are_code_units. }
  assert (Hl : Z.of_nat (length (sample_creator ++ codes "MyCoin" ++ codes "MYC"
                                 ++ codes "ipfs://bafy")%list) <= 2097152)
    by (vm_compute; discriminate).
  destruct (generateCoinSalt_reads_back 1700000000000 sample_creator (codes "MyCoin")
              (codes "MYC") (codes "ipfs://bafy") Hnow Hc Hl) as (H1 & H2 & _).
  split; [exact Hnow|]. split; [exact H1|].
  fold salt in H2. rewrite H2. vm_compute. reflexivity.
Defined.

(** ** What the hash computes *)

(** The classic string hash with multiplier 31, over the integers. *)
Definition polynomialHash (l : JsString) : Z :=
  fold_left (fun acc c => 31 * acc + c) l 0.

Lemma toInt32_mod z : toInt32 z mod 2 ^ 32 = z mod 2 ^ 32.
Proof.
  unfold toInt32. rewrite Zminus_mod_idemp_l. f_equal. lia.
Qed.

Lemma hashStep_mod acc acc' c :
  acc mod 2 ^ 32 = acc' mod 2 ^ 32 ->
  hashStep acc c mod 2 ^ 32 = (31 * acc' + c) mod 2 ^ 32.
Proof.
  intros H. unfold hashStep, shl.
  rewrite <- Zplus_mod_idemp_l, <- Zminus_mod_idemp_l, toInt32_mod.
  rewrite Z.shiftl_mul_pow2 by lia. change (2 ^ 5) with 32.
  rewrite <- Zmult_mod_idemp_l, toInt32_mod, Zmult_mod_idemp_l.
  rewrite Zminus_mod_idemp_l, Zplus_mod_idemp_l.
  replace (acc * 32 - acc + c) with (31 * acc + c) by lia.
  rewrite <- Zplus_mod_idemp_l, <- Zmult_mod_idemp_r, H,
          Zmult_mod_idemp_r, Zplus_mod_idemp_l.
  reflexivity.
Qed.

Lemma fold_hashStep_mod l acc acc' :
  acc mod 2 ^ 32 = acc' mod 2 ^ 32 ->
  fold_left hashStep l acc mod 2 ^ 32
  = fold_left (fun a c => 31 * a + c) l acc' mod 2 ^ 32.
Proof.
  revert acc acc'. induction l as [|c l IH]; intros acc acc' H; [exact H|].
  cbn [fold_left]. apply IH. now apply hashStep_mod.
Qed.

(** X8.  Only the shift of the reducer wraps at 32 bits, but the result is
    still the classic 31-multiplier string hash modulo 2^32: for a text of at
    most 2^21 code units (for which the sums of the reducer are exact: the
    hash stays below 2^53) the hash and the polynomial hash of the
    concatenated text have the same residue modulo 2^32, and so the same
    [ToInt32]. *)
Theorem coinHash_is_polynomial_hash_mod_2_32
    (creator name symbol metadataUri : JsString) :
  let text := (creator ++ name ++ symbol ++ metadataUri)%list in
  Forall code_unit text ->
  Z.of_nat (length text) <= 2097152 ->
  Z.abs (coinHash creator name symbol metadataUri) < 2 ^ 53
  /\ coinHash creator name symbol metadataUri mod 2 ^ 32
     = polynomialHash text mod 2 ^ 32
  /\ toInt32 (coinHash creator name symbol metadataUri)
     = toInt32 (polynomialHash text).
Proof.
  intros text Hc Hl.
  split; [exact (coinHash_safe_integer creator name symbol metadataUri Hc Hl)|].
  assert (H : coinHash creator name symbol metadataUri mod 2 ^ 32
              = polynomialHash text mod 2 ^ 32)
    by (apply fold_hashStep_mod; reflexivity).
  split; [exact H|].
  unfold toInt32. rewrite <- Zplus_mod_idemp_l, H, Zplus_mod_idemp_l. reflexivity.
Qed.

Lemma coinHash_is_polynomial_hash_mod_2_32_witness :
  let text := (sample_creator ++ codes "MyCoin" ++ codes "MYC" ++ codes "ipfs://bafy")%list in
  Forall code_unit text
  /\ Z.of_nat (length text) <= 2097152
  /\ coinHash sample_creator (codes "MyCoin") (codes "MYC") (codes "ipfs://bafy")
       mod 2 ^ 32
     = polynomialHash text mod 2 ^ 32.
Proof.
  intros text.
  assert (Hc : Forall code_unit text).
  { unfold text, sample_creator. rewrite !Forall_app.
    repeat split; apply codes_are_code_units. }
  assert (Hl : Z.of_nat (length text) <= 2097152) by (vm_compute; discriminate).
  split; [exact Hc|]. split; [exact Hl|].
  exact (proj1 (proj2 (coinHash_is_polynomial_hash_mod_2_32 sample_creator
                         (codes "MyCoin") (codes "MYC") (codes "ipfs://bafy") Hc Hl))).
Defined.


(** * [deployGaslessCoin], lines 91-171 *)

Import SmartAccount.

(** The two chains of [viem/chains] that the file imports. *)
Inductive Chain := base | baseSepolia.

(** [chain.id]: the identifiers that viem gives the two chains (constants of
    that library). *)
Definition chainIdOf (c : Chain) : Z :=
  match c with
  | base => 8453
  | baseSepolia => 84532
  end.

(** Lines 107-112.  [networkPreference] is what
    [localStorage.getItem('ADMIN_NETWORK_PREFERENCE')] gives, or null when
    there is no window. *)
Definition selectChain (networkPreference : option string) : Chain :=
  match networkPreference with
  | Some pref => if String.eqb pref "sepolia" then baseSepolia else base
  | None => base
  end.

(** [GaslessCoinDeployParams], lines 72-78. *)
Record GaslessCoinDeployParams := {
  name : JsString;
  symbol : JsString;
  metadataUri : JsString;
  smartAccountAddress : SmartAccount.Address;
  platformReferrer : option SmartAccount.Address;
}.

(** The first argument of [createCoinOnBaseSepolia], lines 131-137. *)
Record CoinArgs := {
  arg_creator : SmartAccount.Address;
  arg_name : JsString;
  arg_symbol : JsString;
  arg_metadataUri : JsString;
  arg_platformReferrer : option SmartAccount.Address;
}.

(** What [createCoinOnBaseSepolia] resolves to: the fields that are read. *)
Record CoinCreated := {
  created_hash : string;
  created_address : option SmartAccount.Address;
}.

(** [GaslessCoinDeployResult], lines 80-86. *)
Record GaslessCoinDeployResult := {
  hash : string;
  address : option SmartAccount.Address;
  createdAt : Z;
  deployedFrom : SmartAccount.Address;
  chainId : Z;
}.

(** The two awaited collaborators: [createCoinOnBaseSepolia] (of the module
    [./zora-coins]) and [publicClient.waitForTransactionReceipt] of the
    public client made for the chain. *)
Section Deploy.

Variable createCoinOnBaseSepolia : CoinArgs -> Result CoinCreated.
Variable waitForTransactionReceipt : Chain -> string -> Result unit.

(** [now] is the value of [Date.now()] read after the receipt.  The [catch]
    logs and throws the same error again. *)
Definition deployGaslessCoin (networkPreference : option string) (now : Z)
    (params : GaslessCoinDeployParams) : Result GaslessCoinDeployResult :=
  let chain := selectChain networkPreference in
  match createCoinOnBaseSepolia
          {| arg_creator := smartAccountAddress params;
             arg_name := name params;
             arg_symbol := symbol params;
             arg_metadataUri := metadataUri params;
             arg_platformReferrer := platformReferrer params |} with
  | Abrupt e => Abrupt e
  | Normal result =>
      match waitForTransactionReceipt chain (created_hash result) with
      | Abrupt e => Abrupt e
      | Normal _ =>
          Normal {| hash := created_hash result;
                    address := created_address result;
                    createdAt := now / 1000;
                    deployedFrom := smartAccountAddress params;
                    chainId := chainIdOf chain |}
      end
  end.

(** X9.  [deployGaslessCoin] returns a result exactly when the coin was
    created and the receipt of its transaction, on the selected chain, was
    awaited successfully; the result then carries the hash and address of the
    creation, the whole seconds of the clock, and the chain identifier, which
    is Base Sepolia's exactly when the stored preference is the string
    ["sepolia"] (Base mainnet otherwise, also with no preference).  A failure
    of either step is thrown on unchanged.  The referrer handed to the
    creation is the caller's own, absent when the caller gave none. *)
Theorem deployGaslessCoin_outcome
    (networkPreference : option string) (now : Z) (params : GaslessCoinDeployParams) :
  let args := {| arg_creator := smartAccountAddress params;
                 arg_name := name params; arg_symbol := symbol params;
                 arg_metadataUri := metadataUri params;
                 arg_platformReferrer := platformReferrer params |} in
  let chain := selectChain networkPreference in
  (chain = baseSepolia <-> networkPreference = Some "sepolia")
  /\ (forall r, deployGaslessCoin networkPreference now params = Normal r <->
        exists c u, createCoinOnBaseSepolia args = Normal c
                    /\ waitForTransactionReceipt chain (created_hash c) = Normal u
                    /\ r = {| hash := created_hash c; address := created_address c;
                              createdAt := now / 1000;
                              deployedFrom := smartAccountAddress params;
                              chainId := chainIdOf chain |})
  /\ (forall e, deployGaslessCoin networkPreference now params = Abrupt e <->
        createCoinOnBaseSepolia args = Abrupt e
        \/ exists c, createCoinOnBaseSepolia args = Normal c
                     /\ waitForTransactionReceipt chain (created_hash c) = Abrupt e)
  /\ (forall r, deployGaslessCoin networkPreference now params = Normal r ->
        (chainId r = 84532 <-> networkPreference = Some "sepolia")
        /\ (chainId r = 8453 <-> networkPreference <> Some "sepolia")
        /\ 1000 * createdAt r <= now < 1000 * createdAt r + 1000).
Proof.
  intros args chain.
  assert (Hchain : chain = baseSepolia <-> networkPreference = Some "sepolia").
  { subst chain. unfold selectChain. destruct networkPreference as [pref|].
    - destruct (String.eqb_spec pref "sepolia") as [->|Hne].
      + split; reflexivity.
      + split; [discriminate|]. intros [= E]. contradiction.
    - split; discriminate. }
  split; [exact Hchain|].
  unfold deployGaslessCoin. fold args. fold chain.
  split; [|split].
  - intros r. split.
    + destruct (createCoinOnBaseSepolia args) as [c|e]; [|discriminate].
      destruct (waitForTransactionReceipt chain (created_hash c)) as [u|e] eqn:Ew;
        [|discriminate].
      intros [= <-]. exists c, u. repeat split. exact Ew.
    + intros (c & u & -> & -> & ->). reflexivity.
  - intros e. split.
    + destruct (createCoinOnBaseSepolia args) as [c|e']; [|intros [= ->]; now left].
      destruct (waitForTransactionReceipt chain (created_hash c)) as [u|e'] eqn:Ew;
        [discriminate|].
      intros [= ->]. right. exists c. split; [reflexivity|exact Ew].
    + intros [->|(c & -> & ->)]; reflexivity.
  - intros r.
    destruct (createCoinOnBaseSepolia args) as [c|e]; [|discriminate].
    destruct (waitForTransactionReceipt chain (created_hash c)) as [u|e];
      [|discriminate].
    intros [= <-]. cbn [chainId createdAt].
    split; [|split].
    + rewrite <- Hchain. destruct chain; cbn; split; congruence.
    + split.
      * intros E Hp. apply Hchain in Hp. rewrite Hp in E. discriminate.
      * intros Hp. destruct chain eqn:Ec; [reflexivity|].
        exfalso. apply Hp, Hchain. reflexivity.
    + pose proof (Z.div_mod now 1000 ltac:(lia)).
      pose proof (Z.mod_pos_bound now 1000 ltac:(lia)). lia.
Qed.

End Deploy.


Definition sample_params : GaslessCoinDeployParams :=
  {| name := codes "MyCoin"; symbol := codes "MYC";
     metadataUri := codes "ipfs://bafy"; smartAccountAddress := "0xbeef";
     platformReferrer := None |}.

Lemma deployGaslessCoin_outcome_witness :
  let create := fun _ : CoinArgs =>
    Normal {| created_hash := "0xabc"; created_address := Some "0xc01" |} in
  let wait := fun (_ : Chain) (_ : string) => Normal tt in
  exists r, deployGaslessCoin create wait None 1700000000123 sample_params = Normal r
            /\ chainId r = 8453 /\ createdAt r = 1700000000.
Proof.
  intros create wait.
  destruct (deployGaslessCoin_outcome create wait None 1700000000123 sample_params)
    as (_ & H & _ & Hc).
  eexists. split; [reflexivity|].
  destruct (Hc _ eq_refl) as (_ & [_ H2] & H3).
  split; [apply H2; discriminate|]. cbn [createdAt] in *. reflexivity.
Defined.

End GaslessDeployment.
